(** * AI Deep Research Assistant: session state machine, API usage guard
      and research orchestrator.

    A shallow embedding of [lib/state-machine.ts], [lib/api-usage-guard.ts]
    and [lib/research-orchestrator.ts] together with the properties of the
    session lifecycle and of the quota guard. *)

From Stdlib Require Import ZArith Lia Bool.
From stdpp Require Import base decidable option list strings gmap pretty.

Local Open Scope Z_scope.
Local Open Scope string_scope.
Local Open Scope list_scope.

(** ** JavaScript values *)

(** Truthiness of [string | undefined | null]: absent and empty are falsy. *)
Definition truthy (o : option string) : bool :=
  match o with
  | Some s => bool_decide (s ≠ "")
  | None => false
  end.

(** [a || b] on an optional string with a string default. *)
Definition or_else (o : option string) (d : string) : string :=
  match o with
  | Some s => if bool_decide (s ≠ "") then s else d
  | None => d
  end.

(** [[...new Set(xs)]]: a Set keeps the first occurrence of each element,
    in insertion order. *)
Definition Set_add {A} `{EqDecision A} (seen : list A) (x : A) : list A :=
  if bool_decide (x ∈ seen) then seen else seen ++ [x].

Definition spread_Set {A} `{EqDecision A} (xs : list A) : list A :=
  fold_left Set_add xs [].

(** [Array.prototype.join]. *)
Fixpoint join (sep : string) (xs : list string) : string :=
  match xs with
  | [] => ""
  | [x] => x
  | x :: rest => x +:+ sep +:+ join sep rest
  end.

Definition newline : string := String (Ascii.ascii_of_nat 10) "".

(** A [Date] seen through its local calendar fields; [msOfDay] is the time
    elapsed since local midnight. *)
Record Date := mkDate {
  getFullYear : Z;
  getMonth : Z;
  getDate : Z;
  msOfDay : Z
}.

#[global] Instance Date_eq_dec : EqDecision Date.
Proof. solve_decision. Defined.

(** [d.setHours(0, 0, 0, 0)]. *)
Definition setHours0 (d : Date) : Date :=
  mkDate (getFullYear d) (getMonth d) (getDate d) 0.

(** [a.getTime() > b.getTime()]: instants compare as their calendar fields
    do, most significant first. *)
Definition getTime_gt (a b : Date) : bool :=
  if bool_decide (getFullYear a = getFullYear b) then
    if bool_decide (getMonth a = getMonth b) then
      if bool_decide (getDate a = getDate b) then
        bool_decide (msOfDay b < msOfDay a)
      else bool_decide (getDate b < getDate a)
    else bool_decide (getMonth b < getMonth a)
  else bool_decide (getFullYear b < getFullYear a).

(** ** [lib/types.ts] *)

Inductive ResearchSessionStatus :=
  | CREATED
  | AWAITING_REFINEMENTS
  | REFINEMENTS_IN_PROGRESS
  | REFINEMENTS_COMPLETE
  | RUNNING_RESEARCH
  | COMPLETED
  | FAILED.

#[global] Instance ResearchSessionStatus_eq_dec : EqDecision ResearchSessionStatus.
Proof. solve_decision. Defined.

Record RefinementQuestion := mkRefinementQuestion {
  rq_question : string;
  rq_index : Z
}.

Record RefinementData := mkRefinementData {
  rd_id : string;
  rd_question : string;
  rd_answer : option string;
  rd_questionIndex : Z;
  rd_answeredAt : option Date
}.

Record ResearchSessionData := mkResearchSessionData {
  sd_id : string;
  sd_userId : string;
  sd_initialPrompt : string;
  sd_refinedPrompt : option string;
  sd_status : ResearchSessionStatus;
  sd_openaiResult : option string;
  sd_geminiResult : option string;
  sd_pdfUrl : option string;
  sd_pdfGeneratedAt : option Date;
  sd_emailSentAt : option Date;
  sd_errorMessage : option string;
  sd_createdAt : Date;
  sd_updatedAt : Date;
  sd_refinements : list RefinementData
}.

Record DeepResearchResponse := mkDeepResearchResponse {
  refinementQuestions : option (list RefinementQuestion);
  result : option string;
  requiresRefinement : bool
}.

Record StateTransition := mkStateTransition {
  from : ResearchSessionStatus;
  to : ResearchSessionStatus;
  condition : ResearchSessionData → bool
}.

(** ** [lib/state-machine.ts] *)

Module ResearchSessionStateMachine.

Definition transitions : list StateTransition := [
  mkStateTransition CREATED AWAITING_REFINEMENTS (λ session, true);
  mkStateTransition AWAITING_REFINEMENTS REFINEMENTS_IN_PROGRESS
    (λ session, bool_decide (0 < length (sd_refinements session))%nat);
  mkStateTransition REFINEMENTS_IN_PROGRESS REFINEMENTS_COMPLETE
    (λ session,
       let unanswered :=
         List.filter (λ r, negb (truthy (rd_answer r))) (sd_refinements session) in
       bool_decide (length unanswered = 0%nat)
       && bool_decide (0 < length (sd_refinements session))%nat);
  mkStateTransition REFINEMENTS_COMPLETE RUNNING_RESEARCH
    (λ session, truthy (sd_refinedPrompt session));
  mkStateTransition RUNNING_RESEARCH COMPLETED
    (λ session, truthy (sd_openaiResult session) && truthy (sd_geminiResult session));
  mkStateTransition CREATED FAILED (λ _, false);
  mkStateTransition AWAITING_REFINEMENTS FAILED (λ _, false);
  mkStateTransition REFINEMENTS_IN_PROGRESS FAILED (λ _, false);
  mkStateTransition REFINEMENTS_COMPLETE FAILED (λ _, false);
  mkStateTransition RUNNING_RESEARCH FAILED (λ _, false)
].

Definition canTransition (from0 to0 : ResearchSessionStatus)
    (session : ResearchSessionData) : bool :=
  if bool_decide (from0 = to0) then true
  else if bool_decide (to0 = FAILED) then true
  else
    match List.find (λ t, bool_decide (from t = from0) && bool_decide (to t = to0))
                    transitions with
    | None => false
    | Some transition => condition transition session
    end.

Definition getNextStates (currentState : ResearchSessionStatus)
    (session : ResearchSessionData) : list ResearchSessionStatus :=
  let nextStates := [currentState] in
  let nextStates :=
    fold_left
      (λ acc transition,
         if condition transition session then acc ++ [to transition] else acc)
      (List.filter (λ t, bool_decide (from t = currentState)) transitions)
      nextStates in
  let nextStates :=
    if bool_decide (currentState ≠ FAILED) then nextStates ++ [FAILED]
    else nextStates in
  spread_Set nextStates.

Definition getNextState (session : ResearchSessionData)
    : option ResearchSessionStatus :=
  let currentState := sd_status session in
  let nextStates := getNextStates currentState session in
  let progressionStates :=
    List.filter (λ s, bool_decide (s ≠ currentState) && bool_decide (s ≠ FAILED))
                nextStates in
  match progressionStates with
  | [] => None
  | s :: _ => Some s
  end.

End ResearchSessionStateMachine.

(** ** Effects: exceptions, the database, and the outside world *)

(** The outcome of an awaited call: a value, or a thrown [Error] seen
    through its [message]. *)
Inductive Result (A : Type) :=
  | Ok (value : A)
  | Throw (message : string).
Arguments Ok {A} value.
Arguments Throw {A} message.

Inductive Provider := OpenAI | Gemini.

#[global] Instance Provider_eq_dec : EqDecision Provider.
Proof. solve_decision. Defined.

(** Modelled from the spec: the Prisma schema ([prisma/schema.prisma]) is
    not among the sources. The rows carry the columns the code reads and
    writes; a created [ApiUsage] row has all counters zero (spec 4.2,
    step 1) and its [lastResetDate] is the creation instant. *)
Module ApiUsage.
Record t := mk {
  userId : string;
  openaiRequestsToday : Z;
  geminiRequestsToday : Z;
  openaiRequestsMonth : Z;
  geminiRequestsMonth : Z;
  lastResetDate : Date
}.

Definition requestsToday (p : Provider) (u : t) : Z :=
  match p with OpenAI => openaiRequestsToday u | Gemini => geminiRequestsToday u end.

Definition requestsMonth (p : Provider) (u : t) : Z :=
  match p with OpenAI => openaiRequestsMonth u | Gemini => geminiRequestsMonth u end.
End ApiUsage.

Module ResearchSession.
Record t := mk {
  id : string;
  userId : string;
  title : string;
  initialPrompt : string;
  refinedPrompt : option string;
  status : ResearchSessionStatus;
  openaiResult : option string;
  geminiResult : option string;
  pdfUrl : option string;
  pdfGeneratedAt : option Date;
  emailSentAt : option Date;
  errorMessage : option string;
  createdAt : Date
}.

Definition set_status (s : ResearchSessionStatus) (r : t) : t :=
  mk (id r) (userId r) (title r) (initialPrompt r) (refinedPrompt r) s
     (openaiResult r) (geminiResult r) (pdfUrl r) (pdfGeneratedAt r)
     (emailSentAt r) (errorMessage r) (createdAt r).

Definition set_errorMessage (m : string) (r : t) : t :=
  mk (id r) (userId r) (title r) (initialPrompt r) (refinedPrompt r) (status r)
     (openaiResult r) (geminiResult r) (pdfUrl r) (pdfGeneratedAt r)
     (emailSentAt r) (Some m) (createdAt r).

Definition set_refinedPrompt (p : string) (r : t) : t :=
  mk (id r) (userId r) (title r) (initialPrompt r) (Some p) (status r)
     (openaiResult r) (geminiResult r) (pdfUrl r) (pdfGeneratedAt r)
     (emailSentAt r) (errorMessage r) (createdAt r).

Definition set_results (o g : string) (r : t) : t :=
  mk (id r) (userId r) (title r) (initialPrompt r) (refinedPrompt r) (status r)
     (Some o) (Some g) (pdfUrl r) (pdfGeneratedAt r)
     (emailSentAt r) (errorMessage r) (createdAt r).

Definition set_pdf (url : string) (at_ : Date) (r : t) : t :=
  mk (id r) (userId r) (title r) (initialPrompt r) (refinedPrompt r) (status r)
     (openaiResult r) (geminiResult r) (Some url) (Some at_)
     (emailSentAt r) (errorMessage r) (createdAt r).

Definition set_emailSentAt (at_ : Date) (r : t) : t :=
  mk (id r) (userId r) (title r) (initialPrompt r) (refinedPrompt r) (status r)
     (openaiResult r) (geminiResult r) (pdfUrl r) (pdfGeneratedAt r)
     (Some at_) (errorMessage r) (createdAt r).
End ResearchSession.

Module Refinement.
Record t := mk {
  id : string;
  researchSessionId : string;
  question : string;
  questionIndex : Z;
  answer : option string;
  answeredAt : option Date
}.

Definition set_answer (a : string) (at_ : Date) (r : t) : t :=
  mk (id r) (researchSessionId r) (question r) (questionIndex r) (Some a) (Some at_).
End Refinement.

(** The tables of the store. [user] maps a user id to the user's email. *)
Record Db := mkDb {
  researchSession : gmap string ResearchSession.t;
  refinement : list Refinement.t;
  apiUsage : gmap string ApiUsage.t;
  user : gmap string (option string)
}.

(** [API_LIMITS]: read once from the process environment; the values are
    taken as integers (a limit that fails to parse is outside the model). *)
Record API_LIMITS := mkLimits {
  OPENAI_DAILY_LIMIT : Z;
  GEMINI_DAILY_LIMIT : Z;
  OPENAI_MONTHLY_LIMIT : Z;
  GEMINI_MONTHLY_LIMIT : Z;
  OPENAI_GLOBAL_DAILY_LIMIT : Z;
  GEMINI_GLOBAL_DAILY_LIMIT : Z
}.

(** The limits when no environment variable is set. *)
Definition default_limits : API_LIMITS := mkLimits 10 20 100 200 50 100.

(** The kinds of interaction with the outside world; each kind is answered
    by its own oracle, asked for its n-th answer. *)
Inductive Oracle := KStorage | KOpenAI | KGemini | KPdf | KEmail | KClock | KId.

#[global] Instance Oracle_eq_dec : EqDecision Oracle.
Proof. solve_decision. Defined.

Record Env := mkEnv {
  (** the n-th storage call fails with this message *)
  storageFault : nat → option string;
  openaiClient_startDeepResearch : nat → string → Result DeepResearchResponse;
  geminiClient_research : nat → string → Result string;
  generatePDFBuffer : nat → Result string;
  emailService_sendPDF : nat → Result unit;
  (** the n-th reading of the clock *)
  now : nat → Date;
  (** the n-th generated identifier *)
  cuid : nat → string;
  limits : API_LIMITS
}.

(** What an observer of the store and of the guard sees happen. *)
Inductive Event :=
  | EvSession (row : ResearchSession.t)   (* a session row as just written *)
  | EvRecord (p : Provider) (userId : string). (* recordRequest was called *)

Record World := mkWorld {
  db : Db;
  ticks : Oracle → nat;
  log : list Event  (* newest first *)
}.

Definition M (A : Type) : Type := World → Result A * World.

Definition ret {A} (a : A) : M A := λ w, (Ok a, w).

Definition throw {A} (message : string) : M A := λ w, (Throw message, w).

Definition bind {A B} (m : M A) (f : A → M B) : M B := λ w,
  match m w with
  | (Ok a, w') => f a w'
  | (Throw e, w') => (Throw e, w')
  end.

(** [try { m } catch (error) { h error.message }] *)
Definition try_catch {A} (m : M A) (h : string → M A) : M A := λ w,
  match m w with
  | (Ok a, w') => (Ok a, w')
  | (Throw e, w') => h e w'
  end.

(** [Promise.allSettled([a, b])]: neither branch's rejection reaches the
    other or the caller. The branches are sequenced, [a] first. *)
Definition allSettled {A B} (a : M A) (b : M B) : M (Result A * Result B) := λ w,
  let '(ra, w1) := a w in
  let '(rb, w2) := b w1 in
  (Ok (ra, rb), w2).

Notation "'let!' x ':=' m 'in' k" := (bind m (λ x, k))
  (at level 10, x name, m at level 100, k at level 200, only parsing).
Notation "'let!' ' p ':=' m 'in' k" := (bind m (λ x, match x with p => k end))
  (at level 10, p pattern, m at level 100, k at level 200, only parsing).

Definition bump (k : Oracle) (w : World) : World :=
  mkWorld (db w) (λ k', if bool_decide (k' = k) then S (ticks w k') else ticks w k') (log w).

Definition set_db (d : Db) (w : World) : World := mkWorld d (ticks w) (log w).

Definition emit (e : Event) : M unit := λ w,
  (Ok tt, mkWorld (db w) (ticks w) (e :: log w)).

Section Model.

Context (env : Env).

(** [new Date()] *)
Definition new_Date : M Date := λ w,
  (Ok (now env (ticks w KClock)), bump KClock w).

Definition new_cuid : M string := λ w,
  (Ok (cuid env (ticks w KId)), bump KId w).

(** One call to the Prisma client: it fails when the storage oracle says
    so, and otherwise runs [op] on the tables. *)
Definition prisma {A} (op : Db → Result A * Db) : M A := λ w,
  let w1 := bump KStorage w in
  match storageFault env (ticks w KStorage) with
  | Some message => (Throw message, w1)
  | None => let '(r, d) := op (db w1) in (r, set_db d w1)
  end.

(** *** [prisma.apiUsage] *)

Definition with_apiUsage (d : Db) (m : gmap string ApiUsage.t) : Db :=
  mkDb (researchSession d) (refinement d) m (user d).

Definition apiUsage_findUnique (userId : string) : M (option ApiUsage.t) :=
  prisma (λ d, (Ok (apiUsage d !! userId), d)).

Definition apiUsage_insert (row : ApiUsage.t) : M ApiUsage.t :=
  prisma (λ d,
    match apiUsage d !! ApiUsage.userId row with
    | Some _ => (Throw "Unique constraint failed on the fields: (userId)", d)
    | None => (Ok row, with_apiUsage d (<[ApiUsage.userId row := row]> (apiUsage d)))
    end).

(** [prisma.apiUsage.create({ data: { userId } })] *)
Definition apiUsage_create (userId : string) : M ApiUsage.t :=
  let! created := new_Date in
  apiUsage_insert (ApiUsage.mk userId 0 0 0 0 created).

Definition apiUsage_update (userId : string) (f : ApiUsage.t → ApiUsage.t)
    : M ApiUsage.t :=
  prisma (λ d,
    match apiUsage d !! userId with
    | None => (Throw "Record to update not found.", d)
    | Some row => (Ok (f row), with_apiUsage d (<[userId := f row]> (apiUsage d)))
    end).

(** [prisma.apiUsage.upsert({ where: { userId }, create, update })]; the
    store reads its clock for the [lastResetDate] of a created row. *)
Definition apiUsage_upsert (userId : string) (create : Date → ApiUsage.t)
    (update : ApiUsage.t → ApiUsage.t) : M ApiUsage.t :=
  let! created := new_Date in
  prisma (λ d,
    let row :=
      match apiUsage d !! userId with
      | None => create created
      | Some row => update row
      end in
    (Ok row, with_apiUsage d (<[userId := row]> (apiUsage d)))).

(** [_sum] of a column over all rows: [null] on an empty table. *)
Definition sum_column (col : ApiUsage.t → Z) (m : gmap string ApiUsage.t) : Z :=
  map_fold (λ _ row acc, col row + acc) 0 m.

Definition apiUsage_aggregate_sum (col : ApiUsage.t → Z) : M (option Z) :=
  prisma (λ d,
    (Ok (if bool_decide (apiUsage d = ∅) then None
         else Some (sum_column col (apiUsage d))), d)).

(** *** [lib/api-usage-guard.ts] *)

Record Admission := mkAdmission {
  allowed : bool;
  reason : option string
}.

Definition providerName (p : Provider) : string :=
  match p with OpenAI => "OpenAI" | Gemini => "Gemini" end.

Definition DAILY_LIMIT (p : Provider) : Z :=
  match p with
  | OpenAI => OPENAI_DAILY_LIMIT (limits env)
  | Gemini => GEMINI_DAILY_LIMIT (limits env)
  end.

Definition MONTHLY_LIMIT (p : Provider) : Z :=
  match p with
  | OpenAI => OPENAI_MONTHLY_LIMIT (limits env)
  | Gemini => GEMINI_MONTHLY_LIMIT (limits env)
  end.

Definition GLOBAL_DAILY_LIMIT (p : Provider) : Z :=
  match p with
  | OpenAI => OPENAI_GLOBAL_DAILY_LIMIT (limits env)
  | Gemini => GEMINI_GLOBAL_DAILY_LIMIT (limits env)
  end.

Definition dailyReason (p : Provider) : string :=
  "Daily " +:+ providerName p +:+ " limit reached (" +:+ pretty (DAILY_LIMIT p)
  +:+ " requests). Please try again tomorrow.".

Definition monthlyReason (p : Provider) : string :=
  "Monthly " +:+ providerName p +:+ " limit reached (" +:+ pretty (MONTHLY_LIMIT p)
  +:+ " requests). Limit resets at the start of next month.".

Definition globalReason : string :=
  "Service temporarily unavailable due to high demand. Please try again later.".

Definition resetDaily (today : Date) (u : ApiUsage.t) : ApiUsage.t :=
  ApiUsage.mk (ApiUsage.userId u) 0 0
    (ApiUsage.openaiRequestsMonth u) (ApiUsage.geminiRequestsMonth u) today.

Definition resetMonthly (today : Date) (u : ApiUsage.t) : ApiUsage.t :=
  ApiUsage.mk (ApiUsage.userId u)
    (ApiUsage.openaiRequestsToday u) (ApiUsage.geminiRequestsToday u) 0 0 today.

(** The month-rollover test of the guard, on two midnight dates. *)
Definition monthDiffers (today lastReset : Date) : bool :=
  let currentMonth := getMonth today in
  let lastResetMonth := getMonth lastReset in
  let currentYear := getFullYear today in
  let lastResetYear := getFullYear lastReset in
  bool_decide (currentMonth ≠ lastResetMonth)
  || bool_decide (currentYear ≠ lastResetYear).

(** The [try] block of [canMakeOpenAIRequest] and of
    [canMakeGeminiRequest], which differ only in the provider's columns,
    limits and name, in its three parts: get or create the usage record
    (in [canMakeRequest_try]), reset the daily and monthly counters
    ([applyRollovers]), check the limits ([enforceLimits]). *)
Definition applyRollovers (userId : string) (usage : ApiUsage.t) : M ApiUsage.t :=
  let! today := new_Date in
  let today := setHours0 today in
  let lastReset := setHours0 (ApiUsage.lastResetDate usage) in
  let! usage :=
    if getTime_gt today lastReset
    then apiUsage_update userId (resetDaily today)
    else ret usage in
  let! usage :=
    if monthDiffers today lastReset
    then apiUsage_update userId (resetMonthly today)
    else ret usage in
  ret usage.

Definition enforceLimits (p : Provider) (usage : ApiUsage.t) : M Admission :=
  if bool_decide (DAILY_LIMIT p ≤ ApiUsage.requestsToday p usage)%Z then
    ret (mkAdmission false (Some (dailyReason p)))
  else if bool_decide (MONTHLY_LIMIT p ≤ ApiUsage.requestsMonth p usage)%Z then
    ret (mkAdmission false (Some (monthlyReason p)))
  else
    let! globalUsageToday := apiUsage_aggregate_sum (ApiUsage.requestsToday p) in
    let totalGlobalToday :=
      match globalUsageToday with
      | Some n => if bool_decide (n ≠ 0) then n else 0
      | None => 0
      end in
    if bool_decide (GLOBAL_DAILY_LIMIT p ≤ totalGlobalToday)%Z then
      ret (mkAdmission false (Some globalReason))
    else ret (mkAdmission true None).

Definition canMakeRequest_try (p : Provider) (userId : string) : M Admission :=
  let! usage := apiUsage_findUnique userId in
  let! usage :=
    match usage with
    | Some usage => ret usage
    | None => apiUsage_create userId
    end in
  let! usage := applyRollovers userId usage in
  enforceLimits p usage.

Definition canMakeRequest (p : Provider) (userId : string) : M Admission :=
  try_catch (canMakeRequest_try p userId)
            (λ _, ret (mkAdmission true None)).

Definition canMakeOpenAIRequest := canMakeRequest OpenAI.
Definition canMakeGeminiRequest := canMakeRequest Gemini.

Definition recordedOnCreate (p : Provider) (userId : string) (created : Date)
    : ApiUsage.t :=
  match p with
  | OpenAI => ApiUsage.mk userId 1 0 1 0 created
  | Gemini => ApiUsage.mk userId 0 1 0 1 created
  end.

Definition increment (p : Provider) (u : ApiUsage.t) : ApiUsage.t :=
  match p with
  | OpenAI =>
      ApiUsage.mk (ApiUsage.userId u)
        (ApiUsage.openaiRequestsToday u + 1) (ApiUsage.geminiRequestsToday u)
        (ApiUsage.openaiRequestsMonth u + 1) (ApiUsage.geminiRequestsMonth u)
        (ApiUsage.lastResetDate u)
  | Gemini =>
      ApiUsage.mk (ApiUsage.userId u)
        (ApiUsage.openaiRequestsToday u) (ApiUsage.geminiRequestsToday u + 1)
        (ApiUsage.openaiRequestsMonth u) (ApiUsage.geminiRequestsMonth u + 1)
        (ApiUsage.lastResetDate u)
  end.

Definition recordRequest (p : Provider) (userId : string) : M unit :=
  let! _ := emit (EvRecord p userId) in
  try_catch
    (let! _ := apiUsage_upsert userId (recordedOnCreate p userId) (increment p) in
     ret tt)
    (λ _, ret tt).

Definition recordOpenAIRequest := recordRequest OpenAI.
Definition recordGeminiRequest := recordRequest Gemini.

(** *** [prisma.researchSession] and [prisma.refinement] *)

Definition with_researchSession (d : Db) (m : gmap string ResearchSession.t) : Db :=
  mkDb m (refinement d) (apiUsage d) (user d).

Definition with_refinement (d : Db) (l : list Refinement.t) : Db :=
  mkDb (researchSession d) l (apiUsage d) (user d).

(** [include: { refinements: true }] *)
Definition refinements_of (d : Db) (sessionId : string) : list Refinement.t :=
  List.filter (λ r, bool_decide (Refinement.researchSessionId r = sessionId))
              (refinement d).

(** [prisma.researchSession.create]: a fresh id, status as given, every
    optional column empty. The written row is observed. *)
Definition researchSession_create (userId title initialPrompt : string)
    (status : ResearchSessionStatus) : M ResearchSession.t :=
  let! id := new_cuid in
  let! created := new_Date in
  let! row :=
    prisma (λ d,
      match researchSession d !! id with
      | Some _ => (Throw "Unique constraint failed on the fields: (id)", d)
      | None =>
          let row := ResearchSession.mk id userId title initialPrompt None status
                       None None None None None None created in
          (Ok row, with_researchSession d (<[id := row]> (researchSession d)))
      end) in
  let! _ := emit (EvSession row) in
  ret row.

(** [prisma.researchSession.update({ where: { id }, data })] *)
Definition researchSession_update (id : string)
    (data : ResearchSession.t → ResearchSession.t) : M ResearchSession.t :=
  let! row :=
    prisma (λ d,
      match researchSession d !! id with
      | None => (Throw "Record to update not found.", d)
      | Some row =>
          (Ok (data row), with_researchSession d (<[id := data row]> (researchSession d)))
      end) in
  let! _ := emit (EvSession row) in
  ret row.

(** [findFirst({ where: { id, userId }, include: { refinements: true } })] *)
Definition researchSession_findFirst (id userId : string)
    : M (option (ResearchSession.t * list Refinement.t)) :=
  prisma (λ d,
    (Ok (match researchSession d !! id with
         | Some row =>
             if bool_decide (ResearchSession.userId row = userId)
             then Some (row, refinements_of d id) else None
         | None => None
         end), d)).

(** [findUnique({ where: { id }, include: { refinements: true } })] *)
Definition researchSession_findUnique_refinements (id : string)
    : M (option (ResearchSession.t * list Refinement.t)) :=
  prisma (λ d,
    (Ok (match researchSession d !! id with
         | Some row => Some (row, refinements_of d id)
         | None => None
         end), d)).

(** [findUnique({ where: { id }, include: { user: true } })], of which
    the caller reads the session's own columns only. *)
Definition researchSession_findUnique (id : string) : M (option ResearchSession.t) :=
  prisma (λ d, (Ok (researchSession d !! id), d)).

(** [update({ where: { id }, data, include: { user: true } })]: the row
    and the email of its user ([None] when there is no such user). *)
Definition researchSession_update_user (id : string)
    (data : ResearchSession.t → ResearchSession.t)
    : M (ResearchSession.t * option (option string)) :=
  let! '(row, u) :=
    prisma (λ d,
      match researchSession d !! id with
      | None => (Throw "Record to update not found.", d)
      | Some row =>
          (Ok (data row, user d !! ResearchSession.userId row),
           with_researchSession d (<[id := data row]> (researchSession d)))
      end) in
  let! _ := emit (EvSession row) in
  ret (row, u).

Fixpoint new_cuids (n : nat) : M (list string) :=
  match n with
  | O => ret []
  | S n => let! id := new_cuid in let! ids := new_cuids n in ret (id :: ids)
  end.

(** [prisma.refinement.createMany({ data })]: all rows or none. *)
Definition refinement_createMany (data : list (string * string * Z)) : M unit :=
  let! ids := new_cuids (length data) in
  prisma (λ d,
    let rows :=
      zip_with (λ id '(sessionId, question, questionIndex),
                  Refinement.mk id sessionId question questionIndex None None)
               ids data in
    if bool_decide (NoDup ids
                    ∧ Forall (λ id, id ∉ List.map Refinement.id (refinement d)) ids)
    then (Ok tt, with_refinement d (refinement d ++ rows))
    else (Throw "Unique constraint failed on the fields: (id)", d)).

(** [prisma.refinement.update({ where: { id }, data })] *)
Definition refinement_update (id : string) (data : Refinement.t → Refinement.t)
    : M unit :=
  prisma (λ d,
    if existsb (λ r, bool_decide (Refinement.id r = id)) (refinement d)
    then (Ok tt,
          with_refinement d
            (List.map (λ r, if bool_decide (Refinement.id r = id) then data r else r)
                      (refinement d)))
    else (Throw "Record to update not found.", d)).

(** *** The providers, the report generator and the mail service *)

Definition openaiClient (prompt : string) : M DeepResearchResponse := λ w,
  (openaiClient_startDeepResearch env (ticks w KOpenAI) prompt, bump KOpenAI w).

Definition geminiClient (prompt : string) : M string := λ w,
  (geminiClient_research env (ticks w KGemini) prompt, bump KGemini w).

Definition pdfGenerator : M string := λ w,
  (generatePDFBuffer env (ticks w KPdf), bump KPdf w).

Definition emailService : M unit := λ w,
  (emailService_sendPDF env (ticks w KEmail), bump KEmail w).

(** *** [lib/research-orchestrator.ts] *)

Definition markFailed (message : string) (r : ResearchSession.t) : ResearchSession.t :=
  ResearchSession.set_errorMessage message (ResearchSession.set_status FAILED r).

Definition generateRefinedPrompt (initialPrompt : string)
    (refinements : list Refinement.t) : string :=
  let answers :=
    join (newline +:+ newline)
      (List.map
         (λ r, "Q: " +:+ Refinement.question r +:+ newline
               +:+ "A: " +:+ default "" (Refinement.answer r))
         (List.filter (λ r, truthy (Refinement.answer r)) refinements)) in
  initialPrompt +:+ newline +:+ newline +:+ "[REFINED]" +:+ newline +:+ newline
  +:+ "Additional context based on clarifications:" +:+ newline +:+ answers.

Definition researchFailed : string := "Research failed".

Definition settledText (r : Result string) : string :=
  match r with
  | Ok value => value
  | Throw _ => researchFailed
  end.

(** [runResearch], in its blocks: the two provider calls
    ([researchBoth]), the report and its delivery ([deliverReport]). *)
Definition researchBoth (userId prompt : string) : M (Result string * Result string) :=
  allSettled
    (let! r := openaiClient prompt in
     let! _ := recordOpenAIRequest userId in
     ret (or_else (result r) ""))
    (let! result := geminiClient prompt in
     let! _ := recordGeminiRequest userId in
     ret result).

Definition deliverReport (sessionId : string) (session_user : option (option string))
    : M unit :=
  let! pdfBuffer := pdfGenerator in
  let pdfUrl := "/api/sessions/" +:+ sessionId +:+ "/pdf" in
  let! generatedAt := new_Date in
  let! _ := researchSession_update sessionId (ResearchSession.set_pdf pdfUrl generatedAt) in
  match session_user with
  | None => throw "Cannot read properties of null (reading 'email')"
  | Some email =>
    if truthy email then
      try_catch
        (let! _ := emailService in
         let! sentAt := new_Date in
         let! _ := researchSession_update sessionId (ResearchSession.set_emailSentAt sentAt) in
         ret tt)
        (λ _, ret tt)
    else ret tt
  end.

Definition runResearch (sessionId prompt : string) : M unit :=
  let! _ := researchSession_update sessionId (ResearchSession.set_status RUNNING_RESEARCH) in
  try_catch
    (let! sessionData := researchSession_findUnique sessionId in
     match sessionData with
     | None => throw "Session not found"
     | Some sessionData =>
       let userId := ResearchSession.userId sessionData in
       let! canMakeOpenAI := canMakeOpenAIRequest userId in
       let! canMakeGemini := canMakeGeminiRequest userId in
       if negb (allowed canMakeOpenAI) || negb (allowed canMakeGemini) then
         let errorMsg :=
           join " "
             (omap (λ o, if truthy o then o else None)
                [ if negb (allowed canMakeOpenAI) then reason canMakeOpenAI else None;
                  if negb (allowed canMakeGemini) then reason canMakeGemini else None ]) in
         let message := or_else (Some errorMsg) "API usage limit reached" in
         let! _ := researchSession_update sessionId (markFailed message) in
         throw message
       else
         let! '(openaiResult, geminiResult) := researchBoth userId prompt in
         let openaiText := settledText openaiResult in
         let geminiText := settledText geminiResult in
         let! '(session, session_user) :=
           researchSession_update_user sessionId
             (λ r, ResearchSession.set_status COMPLETED
                     (ResearchSession.set_results openaiText geminiText r)) in
         deliverReport sessionId session_user
     end)
    (λ message,
       let! _ := researchSession_update sessionId (markFailed message) in
       throw message).

Definition startSession (userId title initialPrompt : string) : M ResearchSession.t :=
  let! session := researchSession_create userId title initialPrompt CREATED in
  let id := ResearchSession.id session in
  let! _ :=
    try_catch
      (let! canMakeRequest := canMakeOpenAIRequest userId in
       let! _ :=
         if negb (allowed canMakeRequest) then
           let message := or_else (reason canMakeRequest) "API usage limit reached" in
           let! _ := researchSession_update id (markFailed message) in
           throw message
         else ret tt in
       let! response := openaiClient initialPrompt in
       let! _ := recordOpenAIRequest userId in
       match requiresRefinement response, refinementQuestions response with
       | true, Some questions =>
           let! _ :=
             refinement_createMany
               (List.map (λ q, (id, rq_question q, rq_index q)) questions) in
           let! _ := researchSession_update id (ResearchSession.set_status AWAITING_REFINEMENTS) in
           ret tt
       | _, _ =>
           if truthy (result response) then runResearch id initialPrompt
           else ret tt
       end)
      (λ message,
         let! _ := researchSession_update id (markFailed message) in
         throw message) in
  ret session.

Definition submitRefinementAnswer (sessionId userId : string) (questionIndex : Z)
    (answer : string) : M unit :=
  let! session := researchSession_findFirst sessionId userId in
  match session with
  | None => throw "Session not found or access denied"
  | Some (session, session_refinements) =>
    match List.find (λ r, bool_decide (Refinement.questionIndex r = questionIndex))
                    session_refinements with
    | None => throw "Refinement question not found"
    | Some refinement =>
      let! answeredAt := new_Date in
      let! _ := refinement_update (Refinement.id refinement)
                  (Refinement.set_answer answer answeredAt) in
      let! updatedSession := researchSession_findUnique_refinements sessionId in
      match updatedSession with
      | None => throw "Session not found"
      | Some (updatedSession, updated_refinements) =>
        let allAnswered :=
          forallb (λ r, truthy (Refinement.answer r)) updated_refinements in
        if allAnswered && bool_decide (0 < length updated_refinements)%nat then
          let! _ := researchSession_update sessionId
                      (ResearchSession.set_status REFINEMENTS_COMPLETE) in
          let refinedPrompt :=
            generateRefinedPrompt (ResearchSession.initialPrompt updatedSession)
                                  updated_refinements in
          let! _ := researchSession_update sessionId
                      (ResearchSession.set_refinedPrompt refinedPrompt) in
          runResearch sessionId refinedPrompt
        else
          let! _ := researchSession_update sessionId
                      (ResearchSession.set_status REFINEMENTS_IN_PROGRESS) in
          ret tt
      end
    end
  end.

End Model.

(** *** [lib/openai-client.ts] *)

(** The response [RealOpenAIClient.startDeepResearch] builds from the
    provider's JSON text ([requiresRefinement: parsed.requiresRefinement
    || false], [refinementQuestions: parsed.refinementQuestions || []],
    [result: parsed.result]); a field of the parsed object is absent or
    has its declared type. *)
Definition RealOpenAIClient_parsed (parsed_requiresRefinement : option bool)
    (parsed_refinementQuestions : option (list RefinementQuestion))
    (parsed_result : option string) : DeepResearchResponse :=
  mkDeepResearchResponse (Some (default [] parsed_refinementQuestions)) parsed_result
    (default false parsed_requiresRefinement).

(** ** Vocabulary of the specification *)

(** *** The state machine *)

(** A refinement with a non-empty answer. *)
Definition answered (r : RefinementData) : Prop :=
  ∃ a, rd_answer r = Some a ∧ a ≠ "".

(** The guard of REFINEMENTS_IN_PROGRESS → REFINEMENTS_COMPLETE. *)
Definition refinementsAnswered (session : ResearchSessionData) : bool :=
  bool_decide
    (length (List.filter (λ r, negb (truthy (rd_answer r))) (sd_refinements session))
     = 0%nat)
  && bool_decide (0 < length (sd_refinements session))%nat.

(** *** The usage guard *)

Section GuardVocabulary.

Context (env : Env).

(** A computation stops at the first failing storage call: a failure
    among the storage calls it performed is what it throws. *)
Definition fault_stops {A} (m : M A) : Prop :=
  ∀ w, (ticks w KStorage ≤ ticks (m w).2 KStorage)%nat
       ∧ ∀ k message,
           (ticks w KStorage ≤ k < ticks (m w).2 KStorage)%nat →
           storageFault env k = Some message →
           (m w).1 = Throw message.

(** The usage row after the two rollover steps, [lastReset] being the
    midnight of the [lastResetDate] read when the row was loaded. *)
Definition afterRollovers (today lastReset : Date) (u : ApiUsage.t) : ApiUsage.t :=
  let u := if getTime_gt today lastReset then resetDaily today u else u in
  if monthDiffers today lastReset then resetMonthly today u else u.

(** The rollover steps in the spec's words (4.2 step 3, Design Notes):
    the month-rollover condition looks at [lastResetDate] as the
    day-rollover step has left it. *)
Definition applyRollovers_reread (userId : string) (usage : ApiUsage.t)
    : M ApiUsage.t :=
  let! today := new_Date env in
  let today := setHours0 today in
  let lastReset := setHours0 (ApiUsage.lastResetDate usage) in
  let! usage :=
    if getTime_gt today lastReset
    then apiUsage_update env userId (resetDaily today)
    else ret usage in
  let lastReset := setHours0 (ApiUsage.lastResetDate usage) in
  let! usage :=
    if monthDiffers today lastReset
    then apiUsage_update env userId (resetMonthly today)
    else ret usage in
  ret usage.

(** The three ceilings in the order daily, monthly, global. *)
Definition admission (p : Provider) (todayCount monthCount globalToday : Z)
    : Admission :=
  if bool_decide (DAILY_LIMIT env p ≤ todayCount)%Z then
    mkAdmission false (Some (dailyReason env p))
  else if bool_decide (MONTHLY_LIMIT env p ≤ monthCount)%Z then
    mkAdmission false (Some (monthlyReason env p))
  else if bool_decide (GLOBAL_DAILY_LIMIT env p ≤ globalToday)%Z then
    mkAdmission false (Some globalReason)
  else mkAdmission true None.

(** The user is below every limit of provider [p]: the per-user daily
    and monthly limits, and the global daily limit. *)
Definition under_limits (p : Provider) (userId : string)
    (table : gmap string ApiUsage.t) : Prop :=
  (0 < DAILY_LIMIT env p)%Z
  ∧ (0 < MONTHLY_LIMIT env p)%Z
  ∧ (sum_column (ApiUsage.requestsToday p) table < GLOBAL_DAILY_LIMIT env p)%Z
  ∧ ∀ row, table !! userId = Some row →
      (0 ≤ ApiUsage.requestsToday p row < DAILY_LIMIT env p)%Z
      ∧ (ApiUsage.requestsMonth p row < MONTHLY_LIMIT env p)%Z.

End GuardVocabulary.

(** The guard touches the usage table, the storage counter and the
    clock, and nothing else. *)
Definition usage_frame (w w' : World) : Prop :=
  researchSession (db w') = researchSession (db w)
  ∧ refinement (db w') = refinement (db w)
  ∧ user (db w') = user (db w)
  ∧ log w' = log w
  ∧ ∀ k, k ≠ KStorage → k ≠ KClock → ticks w' k = ticks w k.

(** *** The orchestrator *)

(** The session rows written so far, newest first. *)
Definition sessionWrites (l : list Event) : list ResearchSession.t :=
  omap (λ e, match e with EvSession row => Some row | EvRecord _ _ => None end) l.

(** The calls to [recordRequest] so far, newest first. *)
Definition records (l : list Event) : list (Provider * string) :=
  omap (λ e, match e with EvRecord p u => Some (p, u) | EvSession _ => None end) l.

(** What the guard, the providers and the clock leave alone. *)
Definition quiet (w w' : World) : Prop :=
  researchSession (db w') = researchSession (db w)
  ∧ refinement (db w') = refinement (db w)
  ∧ user (db w') = user (db w)
  ∧ sessionWrites (log w') = sessionWrites (log w).

(** What leaves the provider oracles and the record of usage alone. *)
Definition calm (w w' : World) : Prop :=
  ticks w' KOpenAI = ticks w KOpenAI
  ∧ ticks w' KGemini = ticks w KGemini
  ∧ records (log w') = records (log w).

(** The session keeps its status and its two results. *)
Definition outcome_kept (sessionId : string) (w w' : World) : Prop :=
  ∀ row, researchSession (db w) !! sessionId = Some row →
    ∃ row', researchSession (db w') !! sessionId = Some row'
            ∧ ResearchSession.status row' = ResearchSession.status row
            ∧ ResearchSession.openaiResult row' = ResearchSession.openaiResult row
            ∧ ResearchSession.geminiResult row' = ResearchSession.geminiResult row.

(** Among [writes] there is a row of session [sessionId] with status
    REFINEMENTS_COMPLETE. *)
Definition reachedComplete (writes : list ResearchSession.t) (sessionId : string) : Prop :=
  ∃ row, row ∈ writes
         ∧ ResearchSession.id row = sessionId
         ∧ ResearchSession.status row = REFINEMENTS_COMPLETE.

(** Every written row with a refined prompt is, or comes after, a written
    row of the same session with status REFINEMENTS_COMPLETE. *)
Fixpoint promptAfterComplete (writes : list ResearchSession.t) : Prop :=
  match writes with
  | [] => True
  | row :: older =>
      (is_Some (ResearchSession.refinedPrompt row) →
       reachedComplete (row :: older) (ResearchSession.id row))
      ∧ promptAfterComplete older
  end.

(** The invariant on the refined prompt, on the writes and on the store. *)
Definition Inv (w : World) : Prop :=
  promptAfterComplete (sessionWrites (log w))
  ∧ ∀ sessionId row, researchSession (db w) !! sessionId = Some row →
      ResearchSession.id row = sessionId
      ∧ (is_Some (ResearchSession.refinedPrompt row) →
         reachedComplete (sessionWrites (log w)) sessionId).

(** The writes only grow and the invariant is kept, for a session that
    is known to have reached REFINEMENTS_COMPLETE when [known] is set. *)
Definition keepsInv (known : option string) (w w' : World) : Prop :=
  (∃ post, sessionWrites (log w') = post ++ sessionWrites (log w))
  ∧ (Inv w →
     (∀ sessionId, known = Some sessionId →
                   reachedComplete (sessionWrites (log w)) sessionId) →
     Inv w').

(** The worlds the orchestrator's two entry points lead to, from a store
    without sessions. *)
Inductive reachable (env : Env) : World → Prop :=
  | reachable_init w :
      researchSession (db w) = ∅ → log w = [] → reachable env w
  | reachable_startSession w userId title initialPrompt :
      reachable env w →
      reachable env (startSession env userId title initialPrompt w).2
  | reachable_submitRefinementAnswer w sessionId userId questionIndex answer :
      reachable env w →
      reachable env (submitRefinementAnswer env sessionId userId questionIndex answer w).2.

(** The refinement table once [refinement] has received [answer]. *)
Definition answerRecorded (target : Refinement.t) (answer : string) (answeredAt : Date)
    (table : list Refinement.t) : list Refinement.t :=
  List.map (λ r, if bool_decide (Refinement.id r = Refinement.id target)
                 then Refinement.set_answer answer answeredAt r else r) table.

(** Every run of [m] takes a world to an [R]-related one. *)
Definition preserves (R : World → World → Prop) {A} (m : M A) : Prop :=
  ∀ w, R w (m w).2.

(** An update that leaves the key and the refined prompt of the row alone. *)
Definition keeps_prompt (data : ResearchSession.t → ResearchSession.t) : Prop :=
  ∀ r, ResearchSession.id (data r) = ResearchSession.id r
       ∧ ResearchSession.refinedPrompt (data r) = ResearchSession.refinedPrompt r.

(** *** Scenarios *)

(** A session in REFINEMENTS_IN_PROGRESS with three refinements, the
    third of which has answer [a2]. *)
Definition session3 (a2 : option string) : ResearchSessionData :=
  mkResearchSessionData "1" "user1" "Test prompt" None REFINEMENTS_IN_PROGRESS
    None None None None None None (mkDate 2025 0 1 0) (mkDate 2025 0 1 0)
    [ mkRefinementData "r0" "q0" (Some "a0") 0 None;
      mkRefinementData "r1" "q1" (Some "a1") 1 None;
      mkRefinementData "r2" "q2" a2 2 None ].

(** A healthy store, the default limits, and a clock that reads
    2025-02-01 10:00. *)
Definition env_feb1 : Env :=
  mkEnv (λ _, None)
        (λ _ _, Ok (mkDeepResearchResponse None (Some "OpenAI findings") false))
        (λ _ _, Ok "Gemini findings")
        (λ _, Ok "%PDF") (λ _, Ok tt)
        (λ _, mkDate 2025 1 1 36000000) (λ n, "id" +:+ pretty n) default_limits.

Definition world_of (d : Db) : World := mkWorld d (λ _, O) [].

(** One user, whose usage record is [row]. *)
Definition db_usage (row : ApiUsage.t) : Db :=
  mkDb ∅ [] {[ ApiUsage.userId row := row ]} {[ ApiUsage.userId row := Some "user@example.org" ]}.

(** The usage record of a user last seen on 2025-01-31. *)
Definition row_jan31 : ApiUsage.t := ApiUsage.mk "u" 3 4 5 7 (mkDate 2025 0 31 0).

(** [e] with its first provider replaced. *)
Definition with_openai (o : nat → string → Result DeepResearchResponse) (e : Env) : Env :=
  mkEnv (storageFault e) o (geminiClient_research e) (generatePDFBuffer e)
        (emailService_sendPDF e) (now e) (cuid e) (limits e).

Definition three_questions : list RefinementQuestion :=
  [ mkRefinementQuestion "What aspect?" 0;
    mkRefinementQuestion "Which audience?" 1;
    mkRefinementQuestion "What depth?" 2 ].

(** The first provider asks three questions on its first call and
    answers with a result afterwards. *)
Definition env_refine : Env :=
  with_openai
    (λ n _, match n with
            | O => Ok (mkDeepResearchResponse (Some three_questions) None true)
            | S _ => Ok (mkDeepResearchResponse None (Some "OpenAI findings") false)
            end)
    env_feb1.

(** The first provider is down. *)
Definition env_openai_down : Env :=
  with_openai (λ _ _, Throw "OpenAI rate limit exceeded. Please try again in a few minutes.")
              env_feb1.

(** [e] with its second provider replaced. *)
Definition with_gemini (g : nat → string → Result string) (e : Env) : Env :=
  mkEnv (storageFault e) (openaiClient_startDeepResearch e) g (generatePDFBuffer e)
        (emailService_sendPDF e) (now e) (cuid e) (limits e).

(** The second provider is down. *)
Definition env_gemini_down : Env :=
  with_gemini (λ _ _, Throw "Gemini API error: service unavailable") env_feb1.

(** The first provider answers [{"requiresRefinement": false}]: neither
    questions nor a result. *)
Definition env_silent : Env :=
  with_openai (λ _ _, Ok (RealOpenAIClient_parsed (Some false) None None)) env_feb1.

(** The first provider answers [{"requiresRefinement": true}]: it
    requires refinement and sends no question. *)
Definition env_no_questions : Env :=
  with_openai (λ _ _, Ok (RealOpenAIClient_parsed (Some true) None None)) env_feb1.

(** A store with one user and nothing else. *)
Definition world_one_user : World :=
  world_of (mkDb ∅ [] ∅ {[ "u" := Some "user@example.org" ]}).

(** A store with one session of that user, in status REFINEMENTS_COMPLETE. *)
Definition session_s : ResearchSession.t :=
  ResearchSession.mk "s" "u" "Title" "X" (Some "X refined") REFINEMENTS_COMPLETE
    None None None None None None (mkDate 2025 1 1 0).

Definition world_one_session : World :=
  world_of (mkDb {[ "s" := session_s ]} [] ∅ {[ "u" := Some "user@example.org" ]}).

(** The session asked three questions, of which two are answered. *)
Definition world_two_answered : World :=
  (submitRefinementAnswer env_refine "id0" "u" 1 "a1"
     (submitRefinementAnswer env_refine "id0" "u" 0 "a0"
        (startSession env_refine "u" "Title" "X" world_one_user).2).2).2.

(** The session of [world_two_answered] and its third question. *)
Definition session_in_progress : ResearchSession.t :=
  ResearchSession.mk "id0" "u" "Title" "X" None REFINEMENTS_IN_PROGRESS
    None None None None None None (mkDate 2025 1 1 36000000).

Definition third_question : Refinement.t :=
  Refinement.mk "id3" "id0" "What depth?" 2 None None.

(** The session [startSession] creates in [world_one_user]. *)
Definition session_created : ResearchSession.t :=
  ResearchSession.mk "id0" "u" "Title" "X" None CREATED
    None None None None None None (mkDate 2025 1 1 36000000).

(** The next state of the progression
    CREATED, AWAITING_REFINEMENTS, REFINEMENTS_IN_PROGRESS,
    REFINEMENTS_COMPLETE, RUNNING_RESEARCH, COMPLETED. *)
Definition successor (s : ResearchSessionStatus) : option ResearchSessionStatus :=
  match s with
  | CREATED => Some AWAITING_REFINEMENTS
  | AWAITING_REFINEMENTS => Some REFINEMENTS_IN_PROGRESS
  | REFINEMENTS_IN_PROGRESS => Some REFINEMENTS_COMPLETE
  | REFINEMENTS_COMPLETE => Some RUNNING_RESEARCH
  | RUNNING_RESEARCH => Some COMPLETED
  | COMPLETED => None
  | FAILED => None
  end.

(** ** More of [lib/api-usage-guard.ts] *)

Record UsageStats := mkUsageStats {
  today : Z;
  month : Z;
  dailyLimit : Z;
  monthlyLimit : Z
}.

Record UserUsage := mkUserUsage {
  openai : UsageStats;
  gemini : UsageStats
}.

Definition statsOf (p : Provider) (u : UserUsage) : UsageStats :=
  match p with OpenAI => openai u | Gemini => gemini u end.

Section GuardMore.

Context (env : Env).

(** [ApiUsageGuard.getUserUsage]; it has no [try]. *)
Definition getUserUsage (userId : string) : M UserUsage :=
  let! usage := apiUsage_findUnique env userId in
  match usage with
  | None =>
      ret (mkUserUsage
             (mkUsageStats 0 0 (OPENAI_DAILY_LIMIT (limits env))
                (OPENAI_MONTHLY_LIMIT (limits env)))
             (mkUsageStats 0 0 (GEMINI_DAILY_LIMIT (limits env))
                (GEMINI_MONTHLY_LIMIT (limits env))))
  | Some usage =>
      ret (mkUserUsage
             (mkUsageStats (ApiUsage.openaiRequestsToday usage)
                (ApiUsage.openaiRequestsMonth usage)
                (OPENAI_DAILY_LIMIT (limits env)) (OPENAI_MONTHLY_LIMIT (limits env)))
             (mkUsageStats (ApiUsage.geminiRequestsToday usage)
                (ApiUsage.geminiRequestsMonth usage)
                (GEMINI_DAILY_LIMIT (limits env)) (GEMINI_MONTHLY_LIMIT (limits env))))
  end.

(** [k] requests of user [userId] to provider [p], each recorded. *)
Definition recorded (p : Provider) (userId : string) (k : nat) (w : World) : World :=
  Nat.iter k (λ w, (recordRequest env p userId w).2) w.

End GuardMore.

(** The usage rows of the users other than [userId] are as they were,
    and so is everything outside the usage table. *)
Definition others_kept (userId : string) (w w' : World) : Prop :=
  (∀ u, u ≠ userId → apiUsage (db w') !! u = apiUsage (db w) !! u)
  ∧ researchSession (db w') = researchSession (db w)
  ∧ refinement (db w') = refinement (db w)
  ∧ user (db w') = user (db w)
  ∧ sessionWrites (log w') = sessionWrites (log w).

(** ** [lib/utils.ts]: [sanitizeFilename] *)

(** A string is the list of its code units. *)
Definition hyphen : Ascii.ascii := Ascii.ascii_of_nat 45.

(** The class [[a-z0-9]] under the flag [i]. *)
Definition alphanumeric (c : Ascii.ascii) : bool :=
  let n := Ascii.nat_of_ascii c in
  ((97 <=? n) && (n <=? 122) || (65 <=? n) && (n <=? 90)
   || (48 <=? n) && (n <=? 57))%nat.

(** [.replace(/[^a-z0-9]/gi, '-')] *)
Definition replace_nonAlphanumeric (s : list Ascii.ascii) : list Ascii.ascii :=
  List.map (λ c, if alphanumeric c then c else hyphen) s.

(** [.toLowerCase()] on one code unit: the letters A-Z, and those of the
    Latin-1 range. *)
Definition toLowerCase_unit (c : Ascii.ascii) : Ascii.ascii :=
  let n := Ascii.nat_of_ascii c in
  if ((65 <=? n) && (n <=? 90)
      || (192 <=? n) && (n <=? 222) && negb (n =? 215))%nat
  then Ascii.ascii_of_nat (n + 32) else c.

Definition toLowerCase (s : list Ascii.ascii) : list Ascii.ascii := List.map toLowerCase_unit s.

(** [.replace(/-+/g, '-')] *)
Fixpoint replace_hyphenRuns (s : list Ascii.ascii) : list Ascii.ascii :=
  match s with
  | [] => []
  | c :: rest =>
      if bool_decide (c = hyphen) then
        match rest with
        | c' :: _ => if bool_decide (c' = hyphen) then replace_hyphenRuns rest
                     else c :: replace_hyphenRuns rest
        | [] => [c]
        end
      else c :: replace_hyphenRuns rest
  end.

(** [.replace(/^-|-$/g, '')]: one hyphen at the start and one at the end. *)
Fixpoint remove_lastHyphen (s : list Ascii.ascii) : list Ascii.ascii :=
  match s with
  | [] => []
  | [c] => if bool_decide (c = hyphen) then [] else [c]
  | c :: rest => c :: remove_lastHyphen rest
  end.

Definition replace_edgeHyphens (s : list Ascii.ascii) : list Ascii.ascii :=
  match s with
  | c :: rest => if bool_decide (c = hyphen) then remove_lastHyphen rest
                 else remove_lastHyphen s
  | [] => []
  end.

(** [.substring(0, maxLength)]: a negative bound counts as 0, a bound past
    the end as the length. *)
Definition substring0 (maxLength : Z) (s : list Ascii.ascii) : list Ascii.ascii :=
  take (Z.to_nat maxLength) s.

Definition sanitizeFilename (title : string) (maxLength : Z) : string :=
  let s :=
    substring0 maxLength
      (replace_edgeHyphens
         (replace_hyphenRuns
            (toLowerCase
               (replace_nonAlphanumeric (String.list_ascii_of_string title))))) in
  match s with
  | [] => "research-report"
  | _ => String.string_of_list_ascii s
  end.

(** The default of the parameter [maxLength]. *)
Definition sanitizeFilename_maxLength : Z := 50.

(** The characters a sanitized name is made of: [a-z], [0-9] and [-]. *)
Definition filenameChar (c : Ascii.ascii) : bool :=
  let n := Ascii.nat_of_ascii c in
  ((97 <=? n) && (n <=? 122) || (48 <=? n) && (n <=? 57))%nat
  || bool_decide (c = hyphen).

Fixpoint hyphenPairFree (s : list Ascii.ascii) : bool :=
  match s with
  | c :: (c' :: _) as rest =>
      negb (bool_decide (c = hyphen) && bool_decide (c' = hyphen)) && hyphenPairFree rest
  | _ => true
  end.

(** The title with runs of non-alphanumerics turned into one hyphen, in
    lower case, before the length is cut. *)
Definition slug (title : string) : list Ascii.ascii :=
  replace_edgeHyphens
    (replace_hyphenRuns (toLowerCase (replace_nonAlphanumeric (String.list_ascii_of_string title)))).

(** No stored session is deleted, and none changes its key, its owner,
    its title, its initial prompt or its creation date. *)
Definition identity_kept (w w' : World) : Prop :=
  ∀ sessionId row, researchSession (db w) !! sessionId = Some row →
    ∃ row', researchSession (db w') !! sessionId = Some row'
            ∧ ResearchSession.id row' = ResearchSession.id row
            ∧ ResearchSession.userId row' = ResearchSession.userId row
            ∧ ResearchSession.title row' = ResearchSession.title row
            ∧ ResearchSession.initialPrompt row' = ResearchSession.initialPrompt row
            ∧ ResearchSession.createdAt row' = ResearchSession.createdAt row.

(** An update that leaves those columns alone. *)
Definition keeps_identity (data : ResearchSession.t → ResearchSession.t) : Prop :=
  ∀ r, ResearchSession.id (data r) = ResearchSession.id r
       ∧ ResearchSession.userId (data r) = ResearchSession.userId r
       ∧ ResearchSession.title (data r) = ResearchSession.title r
       ∧ ResearchSession.initialPrompt (data r) = ResearchSession.initialPrompt r
       ∧ ResearchSession.createdAt (data r) = ResearchSession.createdAt r.

(** [e] with its report generator replaced. *)
Definition with_pdf (g : nat → Result string) (e : Env) : Env :=
  mkEnv (storageFault e) (openaiClient_startDeepResearch e) (geminiClient_research e) g
        (emailService_sendPDF e) (now e) (cuid e) (limits e).

(** The report generator is down. *)
Definition env_pdf_down : Env := with_pdf (λ _, Throw "PDF generation failed") env_feb1.

(** [e] with its mail service replaced. *)
Definition with_email (m : nat → Result unit) (e : Env) : Env :=
  mkEnv (storageFault e) (openaiClient_startDeepResearch e) (geminiClient_research e)
        (generatePDFBuffer e) m (now e) (cuid e) (limits e).

(** The mail service is down. *)
Definition env_email_down : Env := with_email (λ _, Throw "SMTP connection refused") env_feb1.

(** The session of [world_two_answered], its second question answered. *)
Definition second_question : Refinement.t :=
  Refinement.mk "id2" "id0" "Which audience?" 1 (Some "a1")
    (Some (mkDate 2025 1 1 36000000)).

(** A user who has used up the day's requests to the first provider. *)
Definition world_at_limit : World :=
  world_of (db_usage (ApiUsage.mk "u" 10 0 10 0 (mkDate 2025 1 1 0))).

(** ** [lib/openai-client.ts]: the mock client *)

(** [String.prototype.includes] *)
Fixpoint includes (s searchString : string) : bool :=
  String.prefix searchString s
  || match s with
     | EmptyString => false
     | String _ rest => includes rest searchString
     end.

(** [MockOpenAIClient.startDeepResearch], without its delay. *)
Definition MockOpenAIClient_startDeepResearch (prompt : string) : DeepResearchResponse :=
  if negb (includes prompt "[REFINED]") then
    mkDeepResearchResponse
      (Some [ mkRefinementQuestion
                "What specific aspect of this topic interests you most?" 0;
              mkRefinementQuestion "What is your target audience or use case?" 1;
              mkRefinementQuestion "What depth of detail are you looking for?" 2 ])
      None true
  else
    mkDeepResearchResponse None
      (Some
         ("# Research Results for: " +:+ prompt
       +:+ newline +:+ newline +:+ "## Executive Summary" +:+ newline +:+ newline
       +:+ "This is a mock research result generated for testing purposes. In "
       +:+ "production, this would contain comprehensive research findings from "
       +:+ "OpenAI's Deep Research capabilities." +:+ newline +:+ newline
       +:+ "## Key Findings" +:+ newline +:+ newline
       +:+ "1. **Finding One**: Detailed analysis of the first key point." +:+ newline
       +:+ "2. **Finding Two**: Comprehensive examination of the second important "
       +:+ "aspect." +:+ newline
       +:+ "3. **Finding Three**: In-depth exploration of the third critical "
       +:+ "element." +:+ newline +:+ newline +:+ "## Detailed Analysis" +:+ newline
       +:+ newline +:+ "### Section 1" +:+ newline +:+ newline
       +:+ "Detailed content for section one with thorough analysis and insights."
       +:+ newline +:+ newline +:+ "### Section 2" +:+ newline +:+ newline
       +:+ "Comprehensive information for section two covering all relevant "
       +:+ "aspects." +:+ newline +:+ newline +:+ "### Section 3" +:+ newline +:+ newline
       +:+ "In-depth exploration of section three with supporting evidence and "
       +:+ "examples." +:+ newline +:+ newline +:+ "## Conclusion" +:+ newline
       +:+ newline +:+ "Summary of findings and recommendations based on the research "
       +:+ "conducted."))
      false.

(** ** [app/api/sessions/[id]/pdf/route.ts] *)

Inductive ResponseBody :=
  | Json_error (error : string)   (* [{ error }] *)
  | Buffer (pdfBuffer : string).

(** A response: its status, the headers the route gives it, its body. *)
Record Response := mkResponse {
  res_status : Z;
  res_headers : list (string * string);
  res_body : ResponseBody
}.

(** [NextResponse.json({ error }, { status })] *)
Definition NextResponse_json (error : string) (status : Z) : Response :=
  mkResponse status [] (Json_error error).

Definition double_quote : string := String (Ascii.ascii_of_nat 34) "".

Section Routes.
Context (env : Env).

(** [prisma.researchSession.findFirst({ where: { id, userId } })] *)
Definition researchSession_findFirst_where (id userId : string)
    : M (option ResearchSession.t) :=
  prisma env (λ d,
    (Ok (match researchSession d !! id with
         | Some row =>
             if bool_decide (ResearchSession.userId row = userId) then Some row else None
         | None => None
         end), d)).

(** [GET /api/sessions/[id]/pdf]. [getServerSession] is the outcome of
    the authentication: [session?.user?.id], or an exception. *)
Definition pdf_GET (getServerSession : Result (option string)) (params_id : string)
    : M Response :=
  try_catch
    (let! session_user_id := (λ w, (getServerSession, w)) in
     if negb (truthy session_user_id) then ret (NextResponse_json "Unauthorized" 401)
     else
       let! researchSession :=
         researchSession_findFirst_where params_id (default "" session_user_id) in
       match researchSession with
       | None => ret (NextResponse_json "Session not found" 404)
       | Some researchSession =>
         if negb (truthy (ResearchSession.openaiResult researchSession))
            || negb (truthy (ResearchSession.geminiResult researchSession))
         then ret (NextResponse_json "Research not completed yet" 400)
         else
           let! pdfBuffer := pdfGenerator env in
           let filename :=
             sanitizeFilename (ResearchSession.title researchSession)
                              sanitizeFilename_maxLength
             +:+ " Research Report.pdf" in
           ret (mkResponse 200
                  [ ("Content-Type", "application/pdf");
                    ("Content-Disposition",
                     "attachment; filename=" +:+ double_quote +:+ filename
                     +:+ double_quote) ]
                  (Buffer pdfBuffer))
       end)
    (λ message,
       ret (NextResponse_json (or_else (Some message) "Failed to generate PDF") 500)).

End Routes.

(** A completed session of user "u". *)
Definition session_done : ResearchSession.t :=
  ResearchSession.mk "s" "u" "Q3: AI & Law" "X" None COMPLETED
    (Some "OpenAI findings") (Some "Gemini findings") None None None None
    (mkDate 2025 1 1 0).

Definition world_done : World :=
  world_of (mkDb {[ "s" := session_done ]} [] ∅ {[ "u" := Some "user@example.org" ]}).

(** * Proofs *)

(** ** The state machine *)

Section StateMachine.
Import ResearchSessionStateMachine.

Lemma truthy_spec (o : option string) :
  truthy o = true ↔ ∃ a, o = Some a ∧ a ≠ "".
Proof.
  destruct o as [a|]; simpl.
  - rewrite bool_decide_eq_true. split; [eauto | intros (? & [= <-] & ?); done].
  - split; [done | intros (? & ? & ?); done].
Qed.

Lemma Set_add_NoDup {A} `{EqDecision A} (seen : list A) (x : A) :
  NoDup seen → NoDup (Set_add seen x).
Proof.
  intros Hnd. unfold Set_add. case_bool_decide as Hin; [done|].
  apply NoDup_app. repeat split; [done | | apply NoDup_singleton].
  intros y Hy Hy'. apply list_elem_of_singleton in Hy'. by subst.
Qed.

Lemma fold_Set_add_NoDup {A} `{EqDecision A} (xs seen : list A) :
  NoDup seen → NoDup (fold_left Set_add xs seen).
Proof.
  revert seen. induction xs as [|x xs IH]; intros seen Hnd; simpl; [done|].
  apply IH. by apply Set_add_NoDup.
Qed.

Lemma spread_Set_NoDup {A} `{EqDecision A} (xs : list A) : NoDup (spread_Set xs).
Proof. apply fold_Set_add_NoDup. constructor. Qed.

Lemma unanswered_none (rs : list RefinementData) :
  length (List.filter (λ r, negb (truthy (rd_answer r))) rs) = 0%nat
  ↔ Forall answered rs.
Proof.
  induction rs as [|r rs IH]; simpl.
  - split; [constructor | done].
  - destruct (truthy (rd_answer r)) eqn:Ht; simpl.
    + rewrite IH. split.
      * intros Hall. constructor; [by apply truthy_spec | done].
      * by inversion 1.
    + split; [done|]. inversion 1 as [|? ? Hr _]; subst.
      apply truthy_spec in Hr. congruence.
Qed.

Lemma refinementsAnswered_spec session :
  refinementsAnswered session = true
  ↔ sd_refinements session ≠ []
    ∧ Forall answered (sd_refinements session).
Proof.
  unfold refinementsAnswered.
  rewrite andb_true_iff, !bool_decide_eq_true, unanswered_none.
  destruct (sd_refinements session); simpl; split; intros [? ?]; split;
    try done; lia.
Qed.

Lemma getNextStates_in_progress session :
  getNextStates REFINEMENTS_IN_PROGRESS session =
    if refinementsAnswered session
    then [REFINEMENTS_IN_PROGRESS; REFINEMENTS_COMPLETE; FAILED]
    else [REFINEMENTS_IN_PROGRESS; FAILED].
Proof.
  unfold getNextStates, refinementsAnswered; simpl.
  by destruct (_ && _).
Qed.

Ltac entries :=
  repeat match goal with
         | H : _ ∈ [] |- _ => by apply elem_of_nil in H
         | H : _ ∈ _ :: _ |- _ => apply elem_of_cons in H as [-> | H]
         end.

(** C1: [canTransition] is true on a self-transition, true on a
    transition to FAILED, and otherwise true exactly when the table has
    an entry for the pair of states whose guard holds of the session;
    with no entry for the pair it is false. *)
Theorem canTransition_correct (from0 to0 : ResearchSessionStatus)
    (session : ResearchSessionData) :
  (from0 = to0 → canTransition from0 to0 session = true)
  ∧ (to0 = FAILED → canTransition from0 to0 session = true)
  ∧ (from0 ≠ to0 → to0 ≠ FAILED →
     (canTransition from0 to0 session = true
      ↔ ∃ t, t ∈ transitions ∧ from t = from0 ∧ to t = to0
             ∧ condition t session = true))
  ∧ (from0 ≠ to0 → to0 ≠ FAILED →
     (¬ ∃ t, t ∈ transitions ∧ from t = from0 ∧ to t = to0) →
     canTransition from0 to0 session = false).
Proof.
  assert (Hfind : ∀ t, List.find (λ t, bool_decide (from t = from0)
                                      && bool_decide (to t = to0)) transitions = Some t →
                       t ∈ transitions ∧ from t = from0 ∧ to t = to0).
  { intros t Ht. apply find_some in Ht as [Hin Hb].
    apply andb_true_iff in Hb as [?%bool_decide_eq_true ?%bool_decide_eq_true].
    by rewrite list_elem_of_In. }
  split; [|split; [|split]].
  - intros ->. unfold canTransition. by rewrite bool_decide_eq_true_2.
  - intros ->. unfold canTransition. by destruct from0.
  - intros Hne Hnf. unfold canTransition.
    rewrite (bool_decide_eq_false_2 _ Hne), (bool_decide_eq_false_2 _ Hnf).
    split.
    + destruct (List.find _ _) as [t|] eqn:Ht; [|done].
      intros Hc. exists t. destruct (Hfind t eq_refl) as (? & ? & ?). done.
    + intros (t & Hin & Hf & Ht & Hc). clear Hfind. unfold transitions in Hin.
      entries; simpl in *; subst; simpl; done.
  - intros Hne Hnf Hnone. unfold canTransition.
    rewrite (bool_decide_eq_false_2 _ Hne), (bool_decide_eq_false_2 _ Hnf).
    destruct (List.find _ _) as [t|] eqn:Ht; [|done].
    exfalso. apply Hnone. exists t. by apply Hfind.
Qed.

Lemma canTransition_correct_witness :
  canTransition CREATED CREATED (session3 None) = true
  ∧ canTransition CREATED FAILED (session3 None) = true
  ∧ canTransition REFINEMENTS_IN_PROGRESS REFINEMENTS_COMPLETE (session3 (Some "a2")) = true
  ∧ canTransition CREATED COMPLETED (session3 None) = false.
Proof.
  split; [|split; [|split]].
  - exact (proj1 (canTransition_correct CREATED CREATED _) eq_refl).
  - exact (proj1 (proj2 (canTransition_correct CREATED FAILED _)) eq_refl).
  - apply (proj1 (proj2 (proj2
             (canTransition_correct REFINEMENTS_IN_PROGRESS REFINEMENTS_COMPLETE _))));
      [done | done |].
    eexists. split; [ | split; [ | split ] ];
      [ unfold transitions; rewrite !elem_of_cons; do 2 right; left; reflexivity
      | done | done | done ].
  - apply (proj2 (proj2 (proj2 (canTransition_correct CREATED COMPLETED _))));
      [done | done |].
    intros (t & Hin & Hf & Ht). unfold transitions in Hin.
    repeat (apply elem_of_cons in Hin as [-> | Hin]; [done|]).
    by apply elem_of_nil in Hin.
Defined.

(** C2: REFINEMENTS_IN_PROGRESS → REFINEMENTS_COMPLETE is legal, and
    REFINEMENTS_COMPLETE is among the next states of
    REFINEMENTS_IN_PROGRESS, exactly when the session has a refinement
    and every refinement has a non-empty answer. With three refinements
    of which exactly one is unanswered it is excluded; with all three
    answered it is included. *)
Theorem refinements_complete_iff_all_answered (session : ResearchSessionData) :
  (canTransition REFINEMENTS_IN_PROGRESS REFINEMENTS_COMPLETE session = true
   ↔ sd_refinements session ≠ [] ∧ Forall answered (sd_refinements session))
  ∧ (REFINEMENTS_COMPLETE ∈ getNextStates REFINEMENTS_IN_PROGRESS session
     ↔ sd_refinements session ≠ [] ∧ Forall answered (sd_refinements session))
  ∧ (length (sd_refinements session) = 3%nat →
     length (List.filter (λ r, negb (truthy (rd_answer r))) (sd_refinements session))
       = 1%nat →
     REFINEMENTS_COMPLETE ∉ getNextStates REFINEMENTS_IN_PROGRESS session)
  ∧ (length (sd_refinements session) = 3%nat →
     Forall answered (sd_refinements session) →
     REFINEMENTS_COMPLETE ∈ getNextStates REFINEMENTS_IN_PROGRESS session).
Proof.
  assert (Hnext : REFINEMENTS_COMPLETE ∈ getNextStates REFINEMENTS_IN_PROGRESS session
                  ↔ refinementsAnswered session = true).
  { rewrite getNextStates_in_progress. destruct (refinementsAnswered session).
    - split; [done|]. intros _. rewrite !elem_of_cons. auto.
    - split; [|done]. rewrite !elem_of_cons, elem_of_nil. intros [|[|]]; done. }
  split; [|split; [|split]].
  - rewrite <- refinementsAnswered_spec. done.
  - by rewrite Hnext, refinementsAnswered_spec.
  - intros _ Hone. rewrite Hnext. unfold refinementsAnswered. rewrite Hone. done.
  - intros Hlen Hall. rewrite Hnext, refinementsAnswered_spec. split; [|done].
    intros Hnil. by rewrite Hnil in Hlen.
Qed.

Lemma refinements_complete_iff_all_answered_witness :
  (REFINEMENTS_COMPLETE ∉ getNextStates REFINEMENTS_IN_PROGRESS (session3 None))
  ∧ REFINEMENTS_COMPLETE ∈ getNextStates REFINEMENTS_IN_PROGRESS (session3 (Some "a2")).
Proof.
  split.
  - apply (proj1 (proj2 (proj2
             (refinements_complete_iff_all_answered (session3 None)))));
      reflexivity.
  - apply (proj2 (proj2 (proj2
             (refinements_complete_iff_all_answered (session3 (Some "a2"))))));
      [reflexivity|].
    repeat constructor; eexists; (split; [reflexivity | done]).
Defined.

(** C9: from FAILED the only next state is FAILED itself, no forward
    state is proposed for a session whose status is FAILED, and the list
    of next states never repeats a state. *)
Theorem FAILED_is_absorbing (session : ResearchSessionData) :
  getNextStates FAILED session = [FAILED]
  ∧ (sd_status session = FAILED → getNextState session = None)
  ∧ ∀ currentState, NoDup (getNextStates currentState session).
Proof.
  split; [done | split].
  - intros Hst. unfold getNextState. rewrite Hst. done.
  - intros currentState. apply spread_Set_NoDup.
Qed.

Lemma FAILED_is_absorbing_witness :
  getNextState
    (mkResearchSessionData "1" "user1" "Test prompt" (Some "p") FAILED
       (Some "a") (Some "b") None None None (Some "boom")
       (mkDate 2025 0 1 0) (mkDate 2025 0 1 0) []) = None.
Proof. apply FAILED_is_absorbing. reflexivity. Defined.

End StateMachine.

(** ** The usage guard *)

Section UsageGuard.
Context (env : Env).

Lemma fault_stops_ret {A} (a : A) : fault_stops env (ret a).
Proof. intros w. simpl. split; [lia | intros; lia]. Qed.

Lemma fault_stops_new_Date : fault_stops env (new_Date env).
Proof. intros w. simpl. split; [lia | intros; lia]. Qed.

Lemma fault_stops_prisma {A} (op : Db → Result A * Db) : fault_stops env (prisma env op).
Proof.
  intros w. unfold prisma.
  destruct (storageFault env (ticks w KStorage)) as [m|] eqn:Hf.
  - simpl. split; [lia|]. intros k message Hk Hm.
    assert (k = ticks w KStorage) as -> by lia. congruence.
  - destruct (op (db (bump KStorage w))) as [r d]. simpl. split; [lia|].
    intros k message Hk Hm.
    assert (k = ticks w KStorage) as -> by lia. congruence.
Qed.

Lemma fault_stops_bind {A B} (m : M A) (f : A → M B) :
  fault_stops env m → (∀ a, fault_stops env (f a)) → fault_stops env (bind m f).
Proof.
  intros Hm Hf w. unfold bind.
  destruct (Hm w) as [Hle Hstop].
  destruct (m w) as [[a|e] w1] eqn:Hmw; simpl in *.
  - destruct (Hf a w1) as [Hle' Hstop']. split; [lia|].
    intros k message Hk Hfault.
    destruct (decide (k < ticks w1 KStorage)%nat) as [Hlt|Hge].
    + specialize (Hstop k message ltac:(lia) Hfault). done.
    + apply (Hstop' k message); [lia | done].
  - split; [done|]. intros k message Hk Hfault.
    by injection (Hstop k message Hk Hfault) as ->.
Qed.

Lemma fault_stops_canMakeRequest_try p userId :
  fault_stops env (canMakeRequest_try env p userId).
Proof.
  unfold canMakeRequest_try, applyRollovers, enforceLimits, apiUsage_findUnique,
    apiUsage_create,
    apiUsage_insert, apiUsage_update, apiUsage_aggregate_sum.
  repeat first
    [ apply fault_stops_bind; [|intros ?]
    | apply fault_stops_prisma
    | apply fault_stops_new_Date
    | apply fault_stops_ret
    | match goal with
      | |- fault_stops env (match ?x with _ => _ end) => destruct x
      end ].
Qed.

(** C6: the guard never raises; a failure of any storage call it
    performed, and anything else thrown in its [try] block, is swallowed
    into [allowed: true], whatever the counters are. *)
Theorem canMakeRequest_fails_open (p : Provider) (userId : string) (w : World) :
  (∃ a, (canMakeRequest env p userId w).1 = Ok a)
  ∧ (∀ k message,
       (ticks w KStorage ≤ k < ticks (canMakeRequest env p userId w).2 KStorage)%nat →
       storageFault env k = Some message →
       (canMakeRequest env p userId w).1 = Ok (mkAdmission true None))
  ∧ (∀ message w1,
       canMakeRequest_try env p userId w = (Throw message, w1) →
       (canMakeRequest env p userId w).1 = Ok (mkAdmission true None)).
Proof.
  unfold canMakeRequest, try_catch.
  pose proof (fault_stops_canMakeRequest_try p userId w) as [_ Hstop].
  destruct (canMakeRequest_try env p userId w) as [[a|e] w1]; simpl in *.
  - split; [eauto|]. split; [|done].
    intros k message Hk Hf. by specialize (Hstop k message Hk Hf).
  - split; [eauto|]. done.
Qed.

Lemma bind_Ok {A B} (m : M A) (f : A → M B) w a w1 :
  m w = (Ok a, w1) → bind m f w = f a w1.
Proof. intros H. unfold bind. by rewrite H. Qed.

Lemma bind_ret {A B} (a : A) (f : A → M B) w : bind (ret a) f w = f a w.
Proof. done. Qed.

Section Healthy.
Hypothesis healthy : ∀ k, storageFault env k = None.

Lemma run_findUnique userId w :
  apiUsage_findUnique env userId w = (Ok (apiUsage (db w) !! userId), bump KStorage w).
Proof. unfold apiUsage_findUnique, prisma. by rewrite healthy. Qed.

Lemma run_update userId f row w :
  apiUsage (db w) !! userId = Some row →
  apiUsage_update env userId f w =
    (Ok (f row),
     set_db (with_apiUsage (db w) (<[userId := f row]> (apiUsage (db w))))
            (bump KStorage w)).
Proof. intros H. unfold apiUsage_update, prisma. rewrite healthy. simpl. by rewrite H. Qed.

Lemma run_create userId w :
  apiUsage (db w) !! userId = None →
  apiUsage_create env userId w =
    (Ok (ApiUsage.mk userId 0 0 0 0 (now env (ticks w KClock))),
     set_db (with_apiUsage (db w)
               (<[userId := ApiUsage.mk userId 0 0 0 0 (now env (ticks w KClock))]>
                  (apiUsage (db w))))
            (bump KStorage (bump KClock w))).
Proof.
  intros H. unfold apiUsage_create, apiUsage_insert, bind, new_Date, prisma.
  rewrite healthy. simpl. by rewrite H.
Qed.

Lemma run_aggregate col w :
  apiUsage_aggregate_sum env col w =
    (Ok (if bool_decide (apiUsage (db w) = ∅) then None
         else Some (sum_column col (apiUsage (db w)))), bump KStorage w).
Proof. unfold apiUsage_aggregate_sum, prisma. by rewrite healthy. Qed.

Lemma usage_frame_refl w : usage_frame w w.
Proof. by repeat split. Qed.

Lemma usage_frame_trans w1 w2 w3 :
  usage_frame w1 w2 → usage_frame w2 w3 → usage_frame w1 w3.
Proof.
  intros (? & ? & ? & ? & H12) (? & ? & ? & ? & H23).
  repeat split; try congruence. intros k ? ?. rewrite H23, H12; done.
Qed.

Lemma applyRollovers_healthy userId row w :
  apiUsage (db w) !! userId = Some row →
  let today := setHours0 (now env (ticks w KClock)) in
  let usage := afterRollovers today (setHours0 (ApiUsage.lastResetDate row)) row in
  let w' := (applyRollovers env userId row w).2 in
  (applyRollovers env userId row w).1 = Ok usage
  ∧ apiUsage (db w') !! userId = Some usage
  ∧ (∀ u, u ≠ userId → apiUsage (db w') !! u = apiUsage (db w) !! u)
  ∧ usage_frame w w'.
Proof.
  intros Hrow today usage w'. subst usage w'. unfold applyRollovers, afterRollovers.
  rewrite (bind_Ok _ _ _ _ _ (eq_refl : new_Date env w = _)). fold today.
  destruct (getTime_gt today _) eqn:Hday.
  - erewrite bind_Ok; [| apply run_update; simpl; exact Hrow ].
    destruct (monthDiffers today _) eqn:Hmonth.
    + erewrite bind_Ok; [| apply run_update; simpl; apply lookup_insert_eq ].
      simpl. split; [done|]. split; [apply lookup_insert_eq|]. split.
      * intros u Hu. by rewrite !lookup_insert_ne.
      * repeat split; try done. intros k ? ?. simpl.
        rewrite !bool_decide_eq_false_2 by done. done.
    + simpl. split; [done|]. split; [apply lookup_insert_eq|]. split.
      * intros u Hu. by rewrite !lookup_insert_ne.
      * repeat split; try done. intros k ? ?. simpl.
        rewrite !bool_decide_eq_false_2 by done. done.
  - rewrite bind_ret. destruct (monthDiffers today _) eqn:Hmonth.
    + erewrite bind_Ok; [| apply run_update; simpl; exact Hrow ].
      simpl. split; [done|]. split; [apply lookup_insert_eq|]. split.
      * intros u Hu. by rewrite !lookup_insert_ne.
      * repeat split; try done. intros k ? ?. simpl.
        rewrite !bool_decide_eq_false_2 by done. done.
    + simpl. split; [done|]. split; [done|]. split; [done|].
      repeat split; try done. intros k ? ?. simpl.
      rewrite !bool_decide_eq_false_2 by done. done.
Qed.

Lemma enforceLimits_healthy p usage w :
  apiUsage (db w) ≠ ∅ →
  let w' := (enforceLimits env p usage w).2 in
  (enforceLimits env p usage w).1 =
    Ok (admission env p (ApiUsage.requestsToday p usage) (ApiUsage.requestsMonth p usage)
          (sum_column (ApiUsage.requestsToday p) (apiUsage (db w))))
  ∧ db w' = db w
  ∧ usage_frame w w'.
Proof.
  intros Hne w'. subst w'. unfold enforceLimits, admission.
  destruct (bool_decide (DAILY_LIMIT env p ≤ _)%Z);
    [ simpl; split; [done|]; split; [done|]; apply usage_frame_refl |].
  destruct (bool_decide (MONTHLY_LIMIT env p ≤ _)%Z);
    [ simpl; split; [done|]; split; [done|]; apply usage_frame_refl |].
  erewrite bind_Ok; [| apply run_aggregate ].
  rewrite (bool_decide_eq_false_2 _ Hne).
  assert (∀ n : Z, (if bool_decide (n ≠ 0) then n else 0) = n) as ->.
  { intros n. case_bool_decide as Hn; [done | by rewrite Hn]. }
  destruct (bool_decide (GLOBAL_DAILY_LIMIT env p ≤ _)%Z); simpl;
    (split; [done|]; split; [done|]; repeat split; try done;
     intros k ? ?; simpl; by rewrite bool_decide_eq_false_2).
Qed.

Lemma canMakeRequest_healthy p userId w :
  let row0 := default (ApiUsage.mk userId 0 0 0 0 (now env (ticks w KClock)))
                      (apiUsage (db w) !! userId) in
  let today :=
    setHours0 (now env (if apiUsage (db w) !! userId is Some _ then ticks w KClock
                        else S (ticks w KClock))) in
  let usage := afterRollovers today (setHours0 (ApiUsage.lastResetDate row0)) row0 in
  let w' := (canMakeRequest env p userId w).2 in
  (canMakeRequest env p userId w).1 =
    Ok (admission env p (ApiUsage.requestsToday p usage) (ApiUsage.requestsMonth p usage)
          (sum_column (ApiUsage.requestsToday p) (apiUsage (db w'))))
  ∧ apiUsage (db w') !! userId = Some usage
  ∧ (∀ u, u ≠ userId → apiUsage (db w') !! u = apiUsage (db w) !! u)
  ∧ usage_frame w w'.
Proof.
  intros row0 today usage w'. subst w'.
  assert (Hload : ∃ w1,
             bind (apiUsage_findUnique env userId)
                  (λ usage, match usage with
                            | Some usage => ret usage
                            | None => apiUsage_create env userId
                            end) w = (Ok row0, w1)
             ∧ apiUsage (db w1) !! userId = Some row0
             ∧ (∀ u, u ≠ userId → apiUsage (db w1) !! u = apiUsage (db w) !! u)
             ∧ usage_frame w w1
             ∧ today = setHours0 (now env (ticks w1 KClock))).
  { rewrite (bind_Ok _ _ _ _ _ (run_findUnique userId w)).
    subst today row0.
    destruct (apiUsage (db w) !! userId) as [row|] eqn:Hrow; simpl.
    - eexists. split; [reflexivity|]. simpl. split; [done|]. split; [done|].
      split; [|done]. repeat split; try done.
      intros k ? ?. simpl. by rewrite bool_decide_eq_false_2.
    - rewrite run_create by done. eexists. split; [reflexivity|]. simpl.
      split; [apply lookup_insert_eq|]. split.
      + intros u Hu. by rewrite lookup_insert_ne.
      + split; [|done]. repeat split; try done.
        intros k ? ?. simpl. by rewrite !bool_decide_eq_false_2. }
  destruct Hload as (w1 & Hrun & Hrow1 & Hothers1 & Hframe1 & Htoday).
  pose proof (applyRollovers_healthy userId row0 w1 Hrow1) as Hroll.
  simpl in Hroll. rewrite <- Htoday in Hroll. fold usage in Hroll.
  destruct (applyRollovers env userId row0 w1) as [r2 w2] eqn:Hrun2.
  simpl in Hroll. destruct Hroll as (-> & Hrow2 & Hothers2 & Hframe2).
  assert (Hne : apiUsage (db w2) ≠ ∅).
  { intros E. rewrite E, lookup_empty in Hrow2. done. }
  pose proof (enforceLimits_healthy p usage w2 Hne) as Hlim. simpl in Hlim.
  destruct (enforceLimits env p usage w2) as [r3 w3] eqn:Hrun3.
  simpl in Hlim. destruct Hlim as (-> & Hdb3 & Hframe3).
  assert (Hall : canMakeRequest env p userId w =
            (Ok (admission env p (ApiUsage.requestsToday p usage)
                   (ApiUsage.requestsMonth p usage)
                   (sum_column (ApiUsage.requestsToday p) (apiUsage (db w2)))), w3)).
  { unfold canMakeRequest, try_catch, canMakeRequest_try.
    unfold bind in *. 
    destruct (apiUsage_findUnique env userId w) as [[o|e] w0]; [|done].
    rewrite Hrun, Hrun2, Hrun3. done. }
  rewrite Hall. simpl. rewrite Hdb3. split; [done|]. split; [done|]. split.
  - intros u Hu. by rewrite Hothers2, Hothers1.
  - eauto using usage_frame_trans.
Qed.
End Healthy.

(** C5: with a healthy store the guard decides on the user's counters as
    they are after the rollovers, trying the daily ceiling first, the
    monthly ceiling next, the global daily ceiling (the sum of the
    today-counts of all users) last; the reasons name the daily limit,
    the monthly limit, or are the generic one. *)
Theorem canMakeRequest_ceilings_in_order (p : Provider) (userId : string) (w : World) :
  (∀ k, storageFault env k = None) →
  let r := (canMakeRequest env p userId w).1 in
  let w' := (canMakeRequest env p userId w).2 in
  ∃ usage,
    apiUsage (db w') !! userId = Some usage
    ∧ (let todayCount := ApiUsage.requestsToday p usage in
       let monthCount := ApiUsage.requestsMonth p usage in
       let globalToday := sum_column (ApiUsage.requestsToday p) (apiUsage (db w')) in
       (DAILY_LIMIT env p ≤ todayCount →
        r = Ok (mkAdmission false (Some (dailyReason env p))))%Z
       ∧ (todayCount < DAILY_LIMIT env p → MONTHLY_LIMIT env p ≤ monthCount →
          r = Ok (mkAdmission false (Some (monthlyReason env p))))%Z
       ∧ (todayCount < DAILY_LIMIT env p → monthCount < MONTHLY_LIMIT env p →
          GLOBAL_DAILY_LIMIT env p ≤ globalToday →
          r = Ok (mkAdmission false (Some globalReason)))%Z
       ∧ (todayCount < DAILY_LIMIT env p → monthCount < MONTHLY_LIMIT env p →
          globalToday < GLOBAL_DAILY_LIMIT env p →
          r = Ok (mkAdmission true None))%Z)
    ∧ dailyReason env p =
        "Daily " +:+ providerName p +:+ " limit reached ("
        +:+ pretty (DAILY_LIMIT env p) +:+ " requests). Please try again tomorrow."
    ∧ monthlyReason env p =
        "Monthly " +:+ providerName p +:+ " limit reached ("
        +:+ pretty (MONTHLY_LIMIT env p)
        +:+ " requests). Limit resets at the start of next month."
    ∧ globalReason =
        "Service temporarily unavailable due to high demand. Please try again later.".
Proof.
  intros Hh r w'. subst r w'.
  destruct (canMakeRequest_healthy Hh p userId w) as (Hr & Hrow & _ & _).
  eexists. split; [exact Hrow|]. split; [|done].
  rewrite Hr. unfold admission.
  split; [|split; [|split]].
  - intros Hd. by rewrite bool_decide_eq_true_2.
  - intros Hd Hm. rewrite bool_decide_eq_false_2 by lia.
    by rewrite bool_decide_eq_true_2.
  - intros Hd Hm Hg. rewrite !bool_decide_eq_false_2 by lia.
    by rewrite bool_decide_eq_true_2.
  - intros Hd Hm Hg. by rewrite !bool_decide_eq_false_2 by lia.
Qed.

(** C7 (as amended): with a healthy store and an existing usage record,
    both rollover conditions are evaluated against the [lastResetDate]
    read when the record was loaded: the monthly counters are zeroed
    exactly when the month or year of today differs from that of this
    snapshot, also in a call whose day-rollover has just written today
    into [lastResetDate]. *)
Theorem month_rollover_uses_snapshot (p : Provider) (userId : string) (w : World)
    (row : ApiUsage.t) :
  (∀ k, storageFault env k = None) →
  apiUsage (db w) !! userId = Some row →
  let today := setHours0 (now env (ticks w KClock)) in
  let snapshot := setHours0 (ApiUsage.lastResetDate row) in
  ∃ usage,
    apiUsage (db (canMakeRequest env p userId w).2) !! userId = Some usage
    ∧ (∀ q, ApiUsage.requestsMonth q usage =
            if monthDiffers today snapshot then 0 else ApiUsage.requestsMonth q row)
    ∧ (∀ q, ApiUsage.requestsToday q usage =
            if getTime_gt today snapshot then 0 else ApiUsage.requestsToday q row)
    ∧ ApiUsage.lastResetDate usage =
        if getTime_gt today snapshot || monthDiffers today snapshot
        then today else ApiUsage.lastResetDate row.
Proof.
  intros Hh Hrow today snapshot.
  destruct (canMakeRequest_healthy Hh p userId w) as (_ & Hrow' & _ & _).
  rewrite Hrow in Hrow'. simpl in Hrow'. fold today snapshot in Hrow'.
  eexists. split; [exact Hrow'|]. unfold afterRollovers.
  destruct (getTime_gt today snapshot), (monthDiffers today snapshot); simpl;
    (split; [by intros []|]; split; [by intros []|]; done).
Qed.

Lemma recordRequest_Ok p userId w : (recordRequest env p userId w).1 = Ok tt.
Proof.
  unfold recordRequest, try_catch, bind, emit, apiUsage_upsert, bind, new_Date, prisma, ret.
  simpl. by destruct (storageFault env _).
Qed.

Lemma recordRequest_run p userId w :
  storageFault env (ticks w KStorage) = None →
  let row := match apiUsage (db w) !! userId with
             | None => recordedOnCreate p userId (now env (ticks w KClock))
             | Some row => increment p row
             end in
  apiUsage (db (recordRequest env p userId w).2) = <[userId := row]> (apiUsage (db w))
  ∧ ticks (recordRequest env p userId w).2 KStorage = S (ticks w KStorage).
Proof.
  intros Hf. unfold recordRequest, try_catch, bind, emit, apiUsage_upsert, bind,
    new_Date, prisma, ret. simpl. rewrite Hf. done.
Qed.

(** C8: [recordRequest] never raises; when its storage call goes through
    it creates the user's record with the provider's two counters at 1
    and the other provider's at 0, or adds exactly 1 to the provider's
    today-count and month-count of the existing record; three calls for
    a fresh user leave both counters at 3. *)
Theorem recordRequest_increments (p : Provider) (userId : string) (w : World) :
  (recordRequest env p userId w).1 = Ok tt
  ∧ (storageFault env (ticks w KStorage) = None →
     ∃ usage,
       apiUsage (db (recordRequest env p userId w).2) !! userId = Some usage
       ∧ match apiUsage (db w) !! userId with
         | Some before =>
             ApiUsage.requestsToday p usage = ApiUsage.requestsToday p before + 1
             ∧ ApiUsage.requestsMonth p usage = ApiUsage.requestsMonth p before + 1
             ∧ ∀ q, q ≠ p →
                 ApiUsage.requestsToday q usage = ApiUsage.requestsToday q before
                 ∧ ApiUsage.requestsMonth q usage = ApiUsage.requestsMonth q before
         | None =>
             ApiUsage.requestsToday p usage = 1
             ∧ ApiUsage.requestsMonth p usage = 1
             ∧ ∀ q, q ≠ p →
                 ApiUsage.requestsToday q usage = 0
                 ∧ ApiUsage.requestsMonth q usage = 0
         end)
  ∧ ((∀ k, storageFault env k = None) →
     apiUsage (db w) !! userId = None →
     let w1 := (recordRequest env p userId w).2 in
     let w2 := (recordRequest env p userId w1).2 in
     let w3 := (recordRequest env p userId w2).2 in
     ∃ usage,
       apiUsage (db w3) !! userId = Some usage
       ∧ ApiUsage.requestsToday p usage = 3
       ∧ ApiUsage.requestsMonth p usage = 3).
Proof.
  split; [apply recordRequest_Ok | split].
  - intros Hf. destruct (recordRequest_run p userId w Hf) as [Hm _].
    rewrite Hm, lookup_insert_eq. eexists. split; [done|].
    destruct (apiUsage (db w) !! userId) as [before|]; destruct p; simpl;
      (split; [done|]; split; [done|]; by intros []).
  - intros Hh Hfresh w1 w2 w3.
    destruct (recordRequest_run p userId w (Hh _)) as [H1 _].
    destruct (recordRequest_run p userId w1 (Hh _)) as [H2 _].
    destruct (recordRequest_run p userId w2 (Hh _)) as [H3 _].
    fold w1 in H1. fold w2 in H2. fold w3 in H3.
    rewrite Hfresh in H1. rewrite H1, lookup_insert_eq in H2.
    rewrite H2, lookup_insert_eq in H3. rewrite H3, lookup_insert_eq.
    eexists. split; [done|]. by destruct p.
Qed.
End UsageGuard.

Lemma canMakeRequest_ceilings_in_order_witness :
  (canMakeRequest env_feb1 OpenAI "u"
     (world_of (db_usage (ApiUsage.mk "u" 10 0 10 0 (mkDate 2025 1 1 0))))).1
  = Ok (mkAdmission false
          (Some "Daily OpenAI limit reached (10 requests). Please try again tomorrow."))
  ∧ (canMakeRequest env_feb1 OpenAI "u"
       (world_of (db_usage (ApiUsage.mk "u" 9 0 9 0 (mkDate 2025 1 1 0))))).1
    = Ok (mkAdmission true None).
Proof.
  split.
  - destruct (canMakeRequest_ceilings_in_order env_feb1 OpenAI "u"
                (world_of (db_usage (ApiUsage.mk "u" 10 0 10 0 (mkDate 2025 1 1 0))))
                (λ _, eq_refl)) as (usage & Hrow & (Hd & _) & _).
    vm_compute in Hrow. injection Hrow as <-.
    rewrite Hd; [reflexivity | vm_compute; discriminate].
  - destruct (canMakeRequest_ceilings_in_order env_feb1 OpenAI "u"
                (world_of (db_usage (ApiUsage.mk "u" 9 0 9 0 (mkDate 2025 1 1 0))))
                (λ _, eq_refl)) as (usage & Hrow & (_ & _ & _ & Ha) & _).
    vm_compute in Hrow. injection Hrow as <-.
    apply Ha; vm_compute; reflexivity.
Defined.

(** C7, counterexample: on 2025-02-01 a record last reset on 2025-01-31
    has its day rolled over, which writes 2025-02-01 into [lastResetDate];
    against that date the month-rollover condition is false, yet the guard
    zeroes the monthly counters; the guard that re-reads the date keeps
    them. *)
Lemma month_rollover_rereads_counterexample :
  let today := setHours0 (now env_feb1 O) in
  getTime_gt today (setHours0 (ApiUsage.lastResetDate row_jan31)) = true
  ∧ monthDiffers today (setHours0 (ApiUsage.lastResetDate (resetDaily today row_jan31)))
    = false
  ∧ apiUsage (db (canMakeRequest env_feb1 OpenAI "u" (world_of (db_usage row_jan31))).2)
      !! "u" = Some (ApiUsage.mk "u" 0 0 0 0 today)
  ∧ (applyRollovers_reread env_feb1 "u" row_jan31 (world_of (db_usage row_jan31))).1
    = Ok (ApiUsage.mk "u" 0 0 5 7 today)
  ∧ (applyRollovers env_feb1 "u" row_jan31 (world_of (db_usage row_jan31))).1
    ≠ (applyRollovers_reread env_feb1 "u" row_jan31 (world_of (db_usage row_jan31))).1.
Proof. vm_compute. repeat split; discriminate. Qed.

Lemma month_rollover_uses_snapshot_witness :
  ∃ usage,
    apiUsage (db (canMakeRequest env_feb1 OpenAI "u" (world_of (db_usage row_jan31))).2)
      !! "u" = Some usage
    ∧ ApiUsage.requestsMonth OpenAI usage = 0
    ∧ ApiUsage.requestsToday OpenAI usage = 0.
Proof.
  destruct (month_rollover_uses_snapshot env_feb1 OpenAI "u"
              (world_of (db_usage row_jan31)) row_jan31 (λ _, eq_refl) eq_refl)
    as (usage & Hrow & Hm & Hd & _).
  exists usage. split; [exact Hrow|]. split; [apply (Hm OpenAI) | apply (Hd OpenAI)].
Defined.

Lemma recordRequest_increments_witness :
  ∃ usage,
    apiUsage (db (recordRequest env_feb1 Gemini "u"
                    (recordRequest env_feb1 Gemini "u"
                       (recordRequest env_feb1 Gemini "u"
                          (world_of (mkDb ∅ [] ∅ ∅))).2).2).2) !! "u" = Some usage
    ∧ ApiUsage.requestsToday Gemini usage = 3
    ∧ ApiUsage.requestsMonth Gemini usage = 3.
Proof.
  apply (proj2 (proj2 (recordRequest_increments env_feb1 Gemini "u"
                         (world_of (mkDb ∅ [] ∅ ∅)))));
    [intros k; reflexivity | reflexivity].
Defined.

Lemma canMakeRequest_fails_open_witness :
  (canMakeRequest
     (mkEnv (λ _, Some "database is locked")
            (openaiClient_startDeepResearch env_feb1) (geminiClient_research env_feb1)
            (generatePDFBuffer env_feb1) (emailService_sendPDF env_feb1)
            (now env_feb1) (cuid env_feb1) default_limits)
     OpenAI "u"
     (world_of (db_usage (ApiUsage.mk "u" 10 0 10 0 (mkDate 2025 1 1 0))))).1
  = Ok (mkAdmission true None).
Proof.
  apply (proj1 (proj2 (canMakeRequest_fails_open _ OpenAI "u" _)) O "database is locked");
    [vm_compute; lia | reflexivity].
Defined.

(** ** Reasoning about runs *)

Section Preserve.
Context (R : World → World → Prop) `{!PreOrder R}.

Lemma preserves_ret {A} (a : A) : preserves R (ret a).
Proof. intros w. simpl. reflexivity. Qed.

Lemma preserves_throw {A} e : preserves R (@throw A e).
Proof. intros w. simpl. reflexivity. Qed.

Lemma preserves_bind {A B} (m : M A) (f : A → M B) :
  preserves R m → (∀ a, preserves R (f a)) → preserves R (bind m f).
Proof.
  intros Hm Hf w. unfold bind. specialize (Hm w).
  destruct (m w) as [[a|e] w1]; simpl in *; [|done].
  etransitivity; [exact Hm | apply Hf].
Qed.

Lemma preserves_try_catch {A} (m : M A) (h : string → M A) :
  preserves R m → (∀ e, preserves R (h e)) → preserves R (try_catch m h).
Proof.
  intros Hm Hh w. unfold try_catch. specialize (Hm w).
  destruct (m w) as [[a|e] w1]; simpl in *; [done|].
  etransitivity; [exact Hm | apply Hh].
Qed.

Lemma preserves_allSettled {A B} (a : M A) (b : M B) :
  preserves R a → preserves R b → preserves R (allSettled a b).
Proof.
  intros Ha Hb w. unfold allSettled. specialize (Ha w).
  destruct (a w) as [ra w1]. specialize (Hb w1).
  destruct (b w1) as [rb w2]. simpl in *. by etransitivity.
Qed.
End Preserve.

Ltac preserves_step :=
  first
    [ solve [apply preserves_ret; apply _]
    | solve [apply preserves_throw; apply _]
    | apply preserves_bind; [apply _ | | intros ?]
    | apply preserves_try_catch; [apply _ | | intros ?]
    | apply preserves_allSettled; [apply _ | | ]
    | match goal with
      | |- preserves _ (if ?x then _ else _) => destruct x
      | |- preserves _ (match ?x with _ => _ end) => destruct x
      | |- preserves _ (let '(_, _) := ?x in _) => destruct x
      end ].

Lemma preserves_weaken (R R' : World → World → Prop) {A} (m : M A) :
  (∀ w w', R w w' → R' w w') → preserves R m → preserves R' m.
Proof. intros HR Hm w. apply HR, Hm. Qed.

#[global] Instance calm_preorder : PreOrder calm.
Proof.
  split.
  - by intros w.
  - intros w1 w2 w3 (? & ? & ?) (? & ? & ?). repeat split; congruence.
Qed.

#[global] Instance outcome_kept_preorder sessionId : PreOrder (outcome_kept sessionId).
Proof.
  split.
  - intros w row Hrow. eauto.
  - intros w1 w2 w3 H12 H23 row Hrow.
    destruct (H12 row Hrow) as (row2 & Hrow2 & ? & ? & ?).
    destruct (H23 row2 Hrow2) as (row3 & Hrow3 & ? & ? & ?).
    exists row3. repeat split; congruence.
Qed.

#[global] Instance usage_frame_preorder : PreOrder usage_frame.
Proof.
  split.
  - intros w. by repeat split.
  - intros w1 w2 w3 (? & ? & ? & ? & H12) (? & ? & ? & ? & H23).
    repeat split; try congruence. intros k ? ?. rewrite H23, H12; done.
Qed.

Lemma usage_frame_calm w w' : usage_frame w w' → calm w w'.
Proof.
  intros (_ & _ & _ & Hlog & Ht). unfold calm. rewrite Hlog, !Ht; done.
Qed.

Lemma quiet_outcome_kept sessionId w w' : quiet w w' → outcome_kept sessionId w w'.
Proof. intros (Hs & _) row Hrow. rewrite Hs. eauto. Qed.

Lemma reachedComplete_mono post writes sessionId :
  reachedComplete writes sessionId → reachedComplete (post ++ writes) sessionId.
Proof.
  intros (row & Hin & ? & ?). exists row. split; [|done].
  apply elem_of_app. by right.
Qed.

#[global] Instance keepsInv_preorder known : PreOrder (keepsInv known).
Proof.
  split.
  - intros w. split; [by exists [] | done].
  - intros w1 w2 w3 [[post1 Hg1] H12] [[post2 Hg2] H23]. split.
    + exists (post2 ++ post1). by rewrite Hg2, Hg1, app_assoc.
    + intros Hinv Hknown. apply H23; [by apply H12|].
      intros sessionId Hk. rewrite Hg1. by apply reachedComplete_mono, Hknown.
Qed.

Lemma quiet_keepsInv known w w' : quiet w w' → keepsInv known w w'.
Proof.
  intros (Hs & _ & _ & Hw). split; [exists []; by rewrite Hw|].
  intros [Hlog Hdb] _. unfold Inv. rewrite Hw, Hs. done.
Qed.

#[global] Instance quiet_preorder : PreOrder quiet.
Proof.
  split.
  - by intros w.
  - intros w1 w2 w3 (? & ? & ? & ?) (? & ? & ? & ?). repeat split; congruence.
Qed.

Section Orchestrator.
Context (env : Env).

(** *** The primitives *)

Lemma prisma_spec {A} (op : Db → Result A * Db) w :
  (∀ k, k ≠ KStorage → ticks (prisma env op w).2 k = ticks w k)
  ∧ ticks (prisma env op w).2 KStorage = S (ticks w KStorage)
  ∧ log (prisma env op w).2 = log w
  ∧ match storageFault env (ticks w KStorage) with
    | Some message =>
        (prisma env op w).1 = Throw message ∧ db (prisma env op w).2 = db w
    | None =>
        (prisma env op w).1 = (op (db w)).1 ∧ db (prisma env op w).2 = (op (db w)).2
    end.
Proof.
  unfold prisma. destruct (storageFault env _); simpl.
  - repeat split; try done. intros k Hk. by rewrite bool_decide_eq_false_2.
  - destruct (op (db w)); simpl. repeat split; try done.
    intros k Hk. by rewrite bool_decide_eq_false_2.
Qed.

Lemma quiet_new_Date : preserves quiet (new_Date env).
Proof. by intros w. Qed.

Lemma quiet_new_cuid : preserves quiet (new_cuid env).
Proof. by intros w. Qed.

Lemma quiet_emit_record p u : preserves quiet (emit (EvRecord p u)).
Proof. by intros w. Qed.

Lemma quiet_openaiClient prompt : preserves quiet (openaiClient env prompt).
Proof. by intros w. Qed.

Lemma quiet_geminiClient prompt : preserves quiet (geminiClient env prompt).
Proof. by intros w. Qed.

Lemma quiet_pdfGenerator : preserves quiet (pdfGenerator env).
Proof. by intros w. Qed.

Lemma quiet_emailService : preserves quiet (emailService env).
Proof. by intros w. Qed.

(** A storage call that touches the usage table only. *)
Lemma quiet_prisma_usage {A} (op : Db → Result A * Db) :
  (∀ d, researchSession (op d).2 = researchSession d
        ∧ refinement (op d).2 = refinement d
        ∧ user (op d).2 = user d) →
  preserves quiet (prisma env op).
Proof.
  intros Hop w. destruct (prisma_spec op w) as (_ & _ & Hlog & Hdb).
  unfold quiet. rewrite Hlog.
  destruct (storageFault env _); destruct Hdb as [_ ->]; [done|].
  destruct (Hop (db w)) as (? & ? & ?). done.
Qed.

Lemma quiet_canMakeRequest p userId : preserves quiet (canMakeRequest env p userId).
Proof.
  unfold canMakeRequest, canMakeRequest_try, applyRollovers, enforceLimits,
    apiUsage_findUnique, apiUsage_create, apiUsage_insert, apiUsage_update,
    apiUsage_aggregate_sum.
  repeat first
    [ preserves_step
    | apply quiet_new_Date
    | apply quiet_prisma_usage; intros d; simpl;
      repeat match goal with |- context [match ?x with _ => _ end] => destruct x end;
      done ].
Qed.

Lemma quiet_recordRequest p userId : preserves quiet (recordRequest env p userId).
Proof.
  unfold recordRequest, apiUsage_upsert.
  repeat first
    [ preserves_step
    | apply quiet_new_Date
    | apply quiet_emit_record
    | apply quiet_prisma_usage; intros d; simpl; done ].
Qed.

Lemma usage_frame_prisma {A} (op : Db → Result A * Db) :
  (∀ d, researchSession (op d).2 = researchSession d
        ∧ refinement (op d).2 = refinement d
        ∧ user (op d).2 = user d) →
  preserves usage_frame (prisma env op).
Proof.
  intros Hop w. destruct (prisma_spec op w) as (Ht & _ & Hlog & Hdb).
  unfold usage_frame. rewrite Hlog.
  assert (∀ k, k ≠ KStorage → k ≠ KClock → ticks (prisma env op w).2 k = ticks w k)
    by (intros; by apply Ht).
  destruct (storageFault env _); destruct Hdb as [_ ->]; [done|].
  destruct (Hop (db w)) as (? & ? & ?). done.
Qed.

Lemma usage_frame_new_Date : preserves usage_frame (new_Date env).
Proof.
  intros w. repeat split; try done. intros k ? ?. simpl.
  by rewrite bool_decide_eq_false_2.
Qed.

Lemma usage_frame_canMakeRequest p userId :
  preserves usage_frame (canMakeRequest env p userId).
Proof.
  unfold canMakeRequest, canMakeRequest_try, applyRollovers, enforceLimits,
    apiUsage_findUnique, apiUsage_create, apiUsage_insert, apiUsage_update,
    apiUsage_aggregate_sum.
  repeat first
    [ preserves_step
    | apply usage_frame_new_Date
    | apply usage_frame_prisma; intros d; simpl;
      repeat match goal with |- context [match ?x with _ => _ end] => destruct x end;
      done ].
Qed.

Lemma canMakeRequest_Ok p userId w : ∃ a, (canMakeRequest env p userId w).1 = Ok a.
Proof.
  unfold canMakeRequest, try_catch.
  destruct (canMakeRequest_try env p userId w) as [[a|e] w1]; simpl; eauto.
Qed.

Lemma recordRequest_frame p userId w :
  ∃ w', recordRequest env p userId w = (Ok tt, w')
        ∧ quiet w w'
        ∧ records (log w') = (p, userId) :: records (log w)
        ∧ ticks w' KOpenAI = ticks w KOpenAI
        ∧ ticks w' KGemini = ticks w KGemini.
Proof.
  unfold recordRequest, try_catch, bind, emit, apiUsage_upsert, bind, new_Date, prisma, ret.
  simpl. destruct (storageFault env _); eexists; (split; [reflexivity|]); done.
Qed.

(** *** Writes to the session table *)

Lemma researchSession_update_spec id data w :
  let r := (researchSession_update env id data w).1 in
  let w' := (researchSession_update env id data w).2 in
  (∀ k, k ≠ KStorage → ticks w' k = ticks w k)
  ∧ refinement (db w') = refinement (db w)
  ∧ user (db w') = user (db w)
  ∧ apiUsage (db w') = apiUsage (db w)
  ∧ match r with
    | Ok row =>
        ∃ old, researchSession (db w) !! id = Some old
               ∧ row = data old
               ∧ researchSession (db w') = <[id := data old]> (researchSession (db w))
               ∧ log w' = EvSession (data old) :: log w
    | Throw _ =>
        researchSession (db w') = researchSession (db w) ∧ log w' = log w
    end.
Proof.
  unfold researchSession_update, bind, prisma, emit, ret. simpl.
  destruct (storageFault env _); simpl.
  - repeat split; try done. intros k ?. by rewrite bool_decide_eq_false_2.
  - destruct (researchSession (db w) !! id) as [old|] eqn:Hold; simpl.
    + repeat split; try done; [intros k ?; by rewrite bool_decide_eq_false_2|].
      eauto.
    + repeat split; try done. intros k ?. by rewrite bool_decide_eq_false_2.
Qed.

Lemma researchSession_update_user_spec id data w :
  let r := (researchSession_update_user env id data w).1 in
  let w' := (researchSession_update_user env id data w).2 in
  (∀ k, k ≠ KStorage → ticks w' k = ticks w k)
  ∧ refinement (db w') = refinement (db w)
  ∧ user (db w') = user (db w)
  ∧ apiUsage (db w') = apiUsage (db w)
  ∧ match r with
    | Ok (row, u) =>
        ∃ old, researchSession (db w) !! id = Some old
               ∧ row = data old
               ∧ u = user (db w) !! ResearchSession.userId old
               ∧ researchSession (db w') = <[id := data old]> (researchSession (db w))
               ∧ log w' = EvSession (data old) :: log w
    | Throw _ =>
        researchSession (db w') = researchSession (db w) ∧ log w' = log w
    end.
Proof.
  unfold researchSession_update_user, bind, prisma, emit, ret. simpl.
  destruct (storageFault env _); simpl.
  - repeat split; try done. intros k ?. by rewrite bool_decide_eq_false_2.
  - destruct (researchSession (db w) !! id) as [old|] eqn:Hold; simpl.
    + repeat split; try done; [intros k ?; by rewrite bool_decide_eq_false_2|].
      eauto 10.
    + repeat split; try done. intros k ?. by rewrite bool_decide_eq_false_2.
Qed.

Lemma researchSession_create_spec userId title initialPrompt status w :
  let r := (researchSession_create env userId title initialPrompt status w).1 in
  let w' := (researchSession_create env userId title initialPrompt status w).2 in
  (∀ k, k ≠ KStorage → k ≠ KClock → k ≠ KId → ticks w' k = ticks w k)
  ∧ refinement (db w') = refinement (db w)
  ∧ user (db w') = user (db w)
  ∧ apiUsage (db w') = apiUsage (db w)
  ∧ match r with
    | Ok row =>
        row = ResearchSession.mk (cuid env (ticks w KId)) userId title initialPrompt
                None status None None None None None None (now env (ticks w KClock))
        ∧ researchSession (db w) !! ResearchSession.id row = None
        ∧ researchSession (db w') = <[ResearchSession.id row := row]> (researchSession (db w))
        ∧ log w' = EvSession row :: log w
    | Throw _ =>
        researchSession (db w') = researchSession (db w) ∧ log w' = log w
    end.
Proof.
  unfold researchSession_create, bind, prisma, emit, ret, new_cuid, new_Date. simpl.
  destruct (storageFault env _); simpl.
  - repeat split; try done. intros k ? ? ?. by rewrite !bool_decide_eq_false_2.
  - destruct (researchSession (db w) !! cuid env (ticks w KId)) as [old|] eqn:Hold; simpl.
    + repeat split; try done. intros k ? ? ?. by rewrite !bool_decide_eq_false_2.
    + repeat split; try done. intros k ? ? ?. by rewrite !bool_decide_eq_false_2.
Qed.

(** *** Inversion of runs *)

Lemma run_eta {A} (m : M A) w r : (m w).1 = r → m w = (r, (m w).2).
Proof. intros <-. by destruct (m w). Qed.

Lemma bind_Ok_inv {A B} (m : M A) (f : A → M B) w b w' :
  bind m f w = (Ok b, w') → ∃ a w1, m w = (Ok a, w1) ∧ f a w1 = (Ok b, w').
Proof. unfold bind. destruct (m w) as [[a|e] w1]; [eauto | done]. Qed.

Lemma try_catch_rethrow_inv {A B} (m : M A) (h : string → M B) (g : string → string)
    w a w' :
  try_catch m (λ e, bind (h e) (λ _, throw (g e))) w = (Ok a, w') → m w = (Ok a, w').
Proof.
  unfold try_catch, bind, throw. destruct (m w) as [[a0|e] w1]; [done|].
  by destruct (h e w1) as [[?|?] ?].
Qed.

Lemma update_then_throw_inv {A} id data message w (a : A) w' :
  bind (researchSession_update env id data) (λ _, throw message) w ≠ (Ok a, w').
Proof.
  unfold bind, throw. by destruct (researchSession_update env id data w) as [[?|?] ?].
Qed.

(** *** The two provider calls *)

Lemma researchBoth_spec userId prompt w :
  let o := openaiClient_startDeepResearch env (ticks w KOpenAI) prompt in
  let g := geminiClient_research env (ticks w KGemini) prompt in
  ∃ w',
    researchBoth env userId prompt w =
      (Ok (match o with Ok r => Ok (or_else (result r) "") | Throw e => Throw e end, g), w')
    ∧ quiet w w'
    ∧ records (log w') =
        (if g is Ok _ then [(Gemini, userId)] else [])
        ++ (if o is Ok _ then [(OpenAI, userId)] else [])
        ++ records (log w).
Proof.
  intros o g. unfold researchBoth, allSettled.
  assert (HA : ∃ w1,
             bind (openaiClient env prompt)
                  (λ r, bind (recordOpenAIRequest env userId)
                             (λ _, ret (or_else (result r) ""))) w
             = (match o with Ok r => Ok (or_else (result r) "") | Throw e => Throw e end, w1)
             ∧ quiet w w1
             ∧ records (log w1)
               = (if o is Ok _ then [(OpenAI, userId)] else []) ++ records (log w)
             ∧ ticks w1 KGemini = ticks w KGemini).
  { unfold bind at 1. unfold openaiClient. fold o. destruct o as [r|e].
    - destruct (recordRequest_frame OpenAI userId (bump KOpenAI w))
        as (w1 & Hrun & Hq & Hrec & _ & Hg).
      unfold recordOpenAIRequest, bind. rewrite Hrun. simpl. eauto. 
    - eexists. split; [reflexivity|]. done. }
  destruct HA as (w1 & -> & Hq1 & Hrec1 & Hg1).
  assert (HB : ∃ w2,
             bind (geminiClient env prompt)
                  (λ result, bind (recordGeminiRequest env userId) (λ _, ret result)) w1
             = (g, w2)
             ∧ quiet w1 w2
             ∧ records (log w2)
               = (if g is Ok _ then [(Gemini, userId)] else []) ++ records (log w1)).
  { unfold bind at 1. unfold geminiClient. rewrite Hg1. fold g. destruct g as [text|e].
    - destruct (recordRequest_frame Gemini userId (bump KGemini w1))
        as (w2 & Hrun & Hq & Hrec & _ & _).
      unfold recordGeminiRequest, bind. rewrite Hrun. simpl. eauto.
    - eexists. split; [reflexivity|]. done. }
  destruct HB as (w2 & -> & Hq2 & Hrec2).
  exists w2. split; [done|]. split; [by etransitivity|].
  by rewrite Hrec2, Hrec1.
Qed.

(** *** The report and its delivery *)

Lemma calm_update id data : preserves calm (researchSession_update env id data).
Proof.
  intros w. destruct (researchSession_update_spec id data w) as (Ht & _ & _ & _ & Hr).
  unfold calm. rewrite !Ht by done.
  destruct (researchSession_update env id data w).1 as [row|e].
  - destruct Hr as (old & _ & _ & _ & ->). done.
  - destruct Hr as [_ ->]. done.
Qed.

Lemma outcome_kept_update sessionId data :
  (∀ r, ResearchSession.status (data r) = ResearchSession.status r
        ∧ ResearchSession.openaiResult (data r) = ResearchSession.openaiResult r
        ∧ ResearchSession.geminiResult (data r) = ResearchSession.geminiResult r) →
  preserves (outcome_kept sessionId) (researchSession_update env sessionId data).
Proof.
  intros Hdata w row Hrow.
  destruct (researchSession_update_spec sessionId data w) as (_ & _ & _ & _ & Hr).
  destruct (researchSession_update env sessionId data w).1 as [row'|e].
  - destruct Hr as (old & Hold & _ & -> & _). rewrite lookup_insert_eq.
    rewrite Hrow in Hold. injection Hold as <-. eexists. split; [done|]. apply Hdata.
  - destruct Hr as [-> _]. eauto.
Qed.

Lemma deliverReport_keeps sessionId session_user :
  preserves (outcome_kept sessionId) (deliverReport env sessionId session_user)
  ∧ preserves calm (deliverReport env sessionId session_user).
Proof.
  unfold deliverReport. split.
  - repeat first
      [ apply outcome_kept_update; by intros []
      | preserves_step
      | by intros w; apply quiet_outcome_kept ].
  - repeat first
      [ apply calm_update
      | preserves_step
      | by intros w ].
Qed.

(** *** The invariant on the refined prompt *)

Lemma keepsInv_prisma_other {A} known (op : Db → Result A * Db) :
  (∀ d, researchSession (op d).2 = researchSession d) →
  preserves (keepsInv known) (prisma env op).
Proof.
  intros Hop w. destruct (prisma_spec op w) as (_ & _ & Hlog & Hdb).
  assert (Hs : researchSession (db (prisma env op w).2) = researchSession (db w)).
  { destruct (storageFault env _); destruct Hdb as [_ ->]; [done | apply Hop]. }
  split; [exists []; by rewrite Hlog|].
  intros [Hw Hd] _. unfold Inv. rewrite Hlog, Hs. done.
Qed.

(** A written row that keeps the key and the invariant. *)
Lemma Inv_write w w' sessionId (row : ResearchSession.t) :
  Inv w →
  ResearchSession.id row = sessionId →
  (is_Some (ResearchSession.refinedPrompt row) →
   reachedComplete (row :: sessionWrites (log w)) sessionId) →
  researchSession (db w') = <[sessionId := row]> (researchSession (db w)) →
  log w' = EvSession row :: log w →
  Inv w'.
Proof.
  intros [Hw Hd] Hid Hrow Hdb Hlog. unfold Inv. rewrite Hlog, Hdb. simpl. split.
  - split; [|done]. rewrite Hid. done.
  - intros sid r Hr. destruct (decide (sid = sessionId)) as [->|Hne].
    + rewrite lookup_insert_eq in Hr. injection Hr as <-. done.
    + rewrite lookup_insert_ne in Hr by done. destruct (Hd sid r Hr) as [? Hc].
      split; [done|]. intros Hp. by apply (reachedComplete_mono [row]), Hc.
Qed.

Lemma Inv_update w w' sessionId data old :
  keeps_prompt data →
  Inv w →
  researchSession (db w) !! sessionId = Some old →
  researchSession (db w') = <[sessionId := data old]> (researchSession (db w)) →
  log w' = EvSession (data old) :: log w →
  Inv w'.
Proof.
  intros Hdata Hinv Hold Hdb Hlog.
  destruct (proj2 Hinv sessionId old Hold) as [Hid Hc].
  destruct (Hdata old) as [Hid' Hp].
  apply (Inv_write w w' sessionId (data old)); try done; [congruence|].
  intros Hsome. rewrite Hp in Hsome.
  by apply (reachedComplete_mono [data old]), Hc.
Qed.

Lemma keepsInv_update known id data :
  keeps_prompt data → preserves (keepsInv known) (researchSession_update env id data).
Proof.
  intros Hdata w.
  destruct (researchSession_update_spec id data w) as (_ & _ & _ & _ & Hr).
  destruct (researchSession_update env id data w).1 as [row|e].
  - destruct Hr as (old & Hold & _ & Hdb & Hlog). split.
    + exists [data old]. by rewrite Hlog.
    + intros Hinv _. by apply (Inv_update w _ id data old).
  - destruct Hr as [Hdb Hlog]. split; [exists []; by rewrite Hlog|].
    intros [Hw Hd] _. unfold Inv. rewrite Hlog, Hdb. done.
Qed.

Lemma keepsInv_update_user known id data :
  keeps_prompt data → preserves (keepsInv known) (researchSession_update_user env id data).
Proof.
  intros Hdata w.
  destruct (researchSession_update_user_spec id data w) as (_ & _ & _ & _ & Hr).
  destruct (researchSession_update_user env id data w).1 as [[row u]|e].
  - destruct Hr as (old & Hold & _ & _ & Hdb & Hlog). split.
    + exists [data old]. by rewrite Hlog.
    + intros Hinv _. by apply (Inv_update w _ id data old).
  - destruct Hr as [Hdb Hlog]. split; [exists []; by rewrite Hlog|].
    intros [Hw Hd] _. unfold Inv. rewrite Hlog, Hdb. done.
Qed.

Lemma keepsInv_create known userId title initialPrompt status :
  preserves (keepsInv known)
    (researchSession_create env userId title initialPrompt status).
Proof.
  intros w.
  destruct (researchSession_create_spec userId title initialPrompt status w)
    as (_ & _ & _ & _ & Hr).
  destruct (researchSession_create env userId title initialPrompt status w).1 as [row|e].
  - destruct Hr as (Hrow & _ & Hdb & Hlog). split.
    + exists [row]. by rewrite Hlog.
    + intros Hinv _. apply (Inv_write w _ (ResearchSession.id row) row); try done.
      rewrite Hrow. simpl. by intros [? ?].
  - destruct Hr as [Hdb Hlog]. split; [exists []; by rewrite Hlog|].
    intros [Hw Hd] _. unfold Inv. rewrite Hlog, Hdb. done.
Qed.

(** The write of the refined prompt, for a session known to have
    reached REFINEMENTS_COMPLETE. *)
Lemma keepsInv_set_refinedPrompt sessionId refinedPrompt :
  preserves (keepsInv (Some sessionId))
    (researchSession_update env sessionId (ResearchSession.set_refinedPrompt refinedPrompt)).
Proof.
  intros w.
  destruct (researchSession_update_spec sessionId
              (ResearchSession.set_refinedPrompt refinedPrompt) w) as (_ & _ & _ & _ & Hr).
  destruct (researchSession_update env sessionId _ w).1 as [row|e].
  - destruct Hr as (old & Hold & _ & Hdb & Hlog). split.
    + eexists [_]. by rewrite Hlog.
    + intros Hinv Hknown. destruct (proj2 Hinv sessionId old Hold) as [Hid _].
      apply (Inv_write w _ sessionId
               (ResearchSession.set_refinedPrompt refinedPrompt old)); try done.
      intros _. apply (reachedComplete_mono [_]). by apply Hknown.
  - destruct Hr as [Hdb Hlog]. split; [exists []; by rewrite Hlog|].
    intros [Hw Hd] _. unfold Inv. rewrite Hlog, Hdb. done.
Qed.

Ltac keeps_prompt := intros []; simpl; auto.

Ltac keepsInv_step :=
  first
    [ apply keepsInv_update; keeps_prompt
    | apply keepsInv_update_user; keeps_prompt
    | apply keepsInv_create
    | apply (preserves_weaken quiet); [apply quiet_keepsInv|];
      first [ apply quiet_canMakeRequest | apply quiet_recordRequest
            | apply quiet_new_Date | apply quiet_new_cuid | apply quiet_openaiClient
            | apply quiet_geminiClient | apply quiet_pdfGenerator
            | apply quiet_emailService ]
    | apply keepsInv_prisma_other; intros d; simpl;
      repeat match goal with |- context [match ?x with _ => _ end] => destruct x end;
      done
    | preserves_step ].

Lemma keepsInv_runResearch known sessionId prompt :
  preserves (keepsInv known) (runResearch env sessionId prompt).
Proof.
  unfold runResearch, researchBoth, deliverReport, researchSession_findUnique,
    canMakeOpenAIRequest, canMakeGeminiRequest, recordOpenAIRequest, recordGeminiRequest.
  repeat keepsInv_step.
Qed.

Lemma quiet_new_cuids n : preserves quiet (new_cuids env n).
Proof.
  induction n as [|n IH]; simpl; [apply preserves_ret; apply _|].
  apply preserves_bind; [apply _ | apply quiet_new_cuid | intros id].
  apply preserves_bind; [apply _ | apply IH | intros ids].
  apply preserves_ret; apply _.
Qed.

Lemma keepsInv_startSession userId title initialPrompt :
  preserves (keepsInv None) (startSession env userId title initialPrompt).
Proof.
  unfold startSession, refinement_createMany, canMakeOpenAIRequest, recordOpenAIRequest.
  repeat first
    [ apply keepsInv_runResearch
    | apply (preserves_weaken quiet); [apply quiet_keepsInv|]; apply quiet_new_cuids
    | keepsInv_step ].
Qed.

(** The status is written first, the refined prompt second. *)
Lemma keepsInv_complete sessionId refinedPrompt :
  preserves (keepsInv None)
    (bind (researchSession_update env sessionId
             (ResearchSession.set_status REFINEMENTS_COMPLETE))
          (λ _, bind (researchSession_update env sessionId
                        (ResearchSession.set_refinedPrompt refinedPrompt))
                     (λ _, runResearch env sessionId refinedPrompt))).
Proof.
  intros w. unfold bind at 1.
  pose proof (keepsInv_update None sessionId
                (ResearchSession.set_status REFINEMENTS_COMPLETE)
                ltac:(keeps_prompt) w) as Hk1.
  destruct (researchSession_update_spec sessionId
              (ResearchSession.set_status REFINEMENTS_COMPLETE) w) as (_ & _ & _ & _ & Hr).
  destruct (researchSession_update env sessionId _ w) as [[row|e] w1]; simpl in *;
    [|done].
  destruct Hr as (old & Hold & _ & Hdb & Hlog).
  assert (Hrest : preserves (keepsInv (Some sessionId))
                    (bind (researchSession_update env sessionId
                             (ResearchSession.set_refinedPrompt refinedPrompt))
                          (λ _, runResearch env sessionId refinedPrompt))).
  { apply preserves_bind; [apply _ | apply keepsInv_set_refinedPrompt | intros _].
    apply keepsInv_runResearch. }
  specialize (Hrest w1). destruct Hk1 as [[post1 Hg1] H1]. destruct Hrest as [[post2 Hg2] H2].
  split.
  - exists (post2 ++ post1). by rewrite Hg2, Hg1, app_assoc.
  - intros Hinv _. apply H2; [by apply H1|].
    intros sid [= <-]. rewrite Hlog. simpl.
    exists (ResearchSession.set_status REFINEMENTS_COMPLETE old).
    split; [apply list_elem_of_here|]. split; [|done].
    simpl. by destruct (proj2 Hinv sessionId old Hold).
Qed.

Lemma keepsInv_submitRefinementAnswer sessionId userId questionIndex answer :
  preserves (keepsInv None)
    (submitRefinementAnswer env sessionId userId questionIndex answer).
Proof.
  unfold submitRefinementAnswer, researchSession_findFirst, refinement_update,
    researchSession_findUnique_refinements.
  repeat first
    [ apply keepsInv_complete
    | keepsInv_step ].
Qed.

Lemma reachable_Inv w : reachable env w → Inv w.
Proof.
  induction 1 as [w Hdb Hlog | w userId title initialPrompt _ IH
                 | w sessionId userId questionIndex answer _ IH].
  - unfold Inv. rewrite Hdb, Hlog. simpl. split; [done|].
    intros sid row Hrow. by rewrite lookup_empty in Hrow.
  - by apply (keepsInv_startSession userId title initialPrompt w).
  - by apply (keepsInv_submitRefinementAnswer sessionId userId questionIndex answer w).
Qed.

Lemma promptAfterComplete_split writes post row pre :
  promptAfterComplete writes →
  writes = post ++ row :: pre →
  is_Some (ResearchSession.refinedPrompt row) →
  reachedComplete (row :: pre) (ResearchSession.id row).
Proof.
  revert writes. induction post as [|r post IH]; intros writes Hw ->; simpl in Hw.
  - by destruct Hw.
  - destruct Hw as [_ Hw]. by apply (IH _ Hw).
Qed.

(** *** The order of the two writes in [submitRefinementAnswer] *)

Lemma researchSession_update_healthy id data old w :
  storageFault env (ticks w KStorage) = None →
  researchSession (db w) !! id = Some old →
  researchSession_update env id data w =
    (Ok (data old),
     mkWorld (with_researchSession (db w) (<[id := data old]> (researchSession (db w))))
             (ticks (bump KStorage w)) (EvSession (data old) :: log w)).
Proof.
  intros Hf Hold. unfold researchSession_update, bind, prisma, emit, ret.
  rewrite Hf. simpl. rewrite Hold. done.
Qed.

Lemma find_in_table (P : Refinement.t → bool) sessionId (table : list Refinement.t) r :
  List.find P
    (List.filter (λ r, bool_decide (Refinement.researchSessionId r = sessionId)) table)
  = Some r →
  existsb (λ r', bool_decide (Refinement.id r' = Refinement.id r)) table = true.
Proof.
  intros Hfind. apply find_some in Hfind as [Hin _].
  apply filter_In in Hin as [Hin _].
  apply existsb_exists. exists r. split; [done | by apply bool_decide_eq_true].
Qed.

Lemma submit_last_answer sessionId userId questionIndex answer w old target :
  (∀ k, storageFault env k = None) →
  researchSession (db w) !! sessionId = Some old →
  ResearchSession.userId old = userId →
  List.find (λ r, bool_decide (Refinement.questionIndex r = questionIndex))
            (refinements_of (db w) sessionId) = Some target →
  let updated :=
    refinements_of
      (with_refinement (db w)
         (answerRecorded target answer (now env (ticks w KClock)) (refinement (db w))))
      sessionId in
  forallb (λ r, truthy (Refinement.answer r)) updated = true →
  (0 < length updated)%nat →
  let complete := ResearchSession.set_status REFINEMENTS_COMPLETE old in
  let prompted :=
    ResearchSession.set_refinedPrompt
      (generateRefinedPrompt (ResearchSession.initialPrompt old) updated) complete in
  ∃ post,
    sessionWrites (log (submitRefinementAnswer env sessionId userId questionIndex answer w).2)
    = post ++ [prompted; complete] ++ sessionWrites (log w).
Proof.
  intros Hh Hold Huser Hfind updated Hall Hlen complete prompted.
  unfold submitRefinementAnswer.
  erewrite bind_Ok; last first.
  { unfold researchSession_findFirst, prisma. rewrite Hh. simpl.
    rewrite Hold, bool_decide_eq_true_2 by done. reflexivity. }
  cbv beta iota. rewrite Hfind.
  rewrite (bind_Ok _ _ _ _ _ (eq_refl : new_Date env (bump KStorage w) = _)).
  erewrite bind_Ok; last first.
  { unfold refinement_update, prisma. rewrite Hh. simpl.
    rewrite (find_in_table _ _ _ _ Hfind). reflexivity. }
  erewrite bind_Ok; last first.
  { unfold researchSession_findUnique_refinements, prisma. rewrite Hh. simpl.
    rewrite Hold. reflexivity. }
  cbv beta iota.
  change (refinements_of _ sessionId) with updated.
  rewrite Hall, (bool_decide_eq_true_2 _ Hlen).
  change (true && true) with true. cbv iota.
  erewrite bind_Ok; last first.
  { apply researchSession_update_healthy; [apply Hh | exact Hold]. }
  erewrite bind_Ok; last first.
  { apply researchSession_update_healthy; [apply Hh | apply lookup_insert_eq]. }
  match goal with
  | |- context [runResearch env sessionId ?p ?w0] =>
      destruct (keepsInv_runResearch None sessionId p w0) as [[post Hpost] _]
  end.
  exists post. rewrite Hpost. done.
Qed.

(** C3 (as amended): in every world the orchestrator reaches, a stored
    or written session row whose refined prompt is set is, or comes
    after, a written row of that session with status
    REFINEMENTS_COMPLETE (the converse is not claimed); and in
    [submitRefinementAnswer], with a healthy store, when the answer
    completes the session's refinements the status
    REFINEMENTS_COMPLETE is written first, with the refined prompt as
    it was, and the synthesized refined prompt is written next, before
    the research runs. *)
Theorem refinedPrompt_only_after_complete :
  (∀ w, reachable env w →
     (∀ post row pre,
        sessionWrites (log w) = post ++ row :: pre →
        is_Some (ResearchSession.refinedPrompt row) →
        reachedComplete (row :: pre) (ResearchSession.id row))
     ∧ (∀ sessionId row,
          researchSession (db w) !! sessionId = Some row →
          is_Some (ResearchSession.refinedPrompt row) →
          reachedComplete (sessionWrites (log w)) sessionId))
  ∧ (∀ sessionId userId questionIndex answer w old target,
       (∀ k, storageFault env k = None) →
       researchSession (db w) !! sessionId = Some old →
       ResearchSession.userId old = userId →
       List.find (λ r, bool_decide (Refinement.questionIndex r = questionIndex))
                 (refinements_of (db w) sessionId) = Some target →
       let updated :=
         refinements_of
           (with_refinement (db w)
              (answerRecorded target answer (now env (ticks w KClock))
                 (refinement (db w))))
           sessionId in
       forallb (λ r, truthy (Refinement.answer r)) updated = true →
       (0 < length updated)%nat →
       let complete := ResearchSession.set_status REFINEMENTS_COMPLETE old in
       let prompted :=
         ResearchSession.set_refinedPrompt
           (generateRefinedPrompt (ResearchSession.initialPrompt old) updated)
           complete in
       ∃ post,
         sessionWrites
           (log (submitRefinementAnswer env sessionId userId questionIndex answer w).2)
         = post ++ [prompted; complete] ++ sessionWrites (log w)).
Proof.
  split.
  - intros w Hreach. destruct (reachable_Inv w Hreach) as [Hw Hd]. split.
    + intros post row pre Hsplit Hsome.
      by apply (promptAfterComplete_split _ post row pre Hw).
    + intros sessionId row Hrow Hsome. by apply (Hd sessionId row Hrow).
  - intros. by apply submit_last_answer.
Qed.

End Orchestrator.

(** ** A provider's failure stays in its branch *)

Section GuardAdmits.
Context (env : Env).
Hypothesis healthy : ∀ k, storageFault env k = None.

Lemma sum_column_insert col userId (row : ApiUsage.t) (table : gmap string ApiUsage.t) :
  sum_column col (<[userId := row]> table)
  = (sum_column col table
     - match table !! userId with Some old => col old | None => 0 end
     + col row)%Z.
Proof.
  assert (Hcomm : ∀ (m : gmap string ApiUsage.t) (j1 j2 : string) (z1 z2 : ApiUsage.t)
                    (y : Z),
             j1 ≠ j2 → m !! j1 = Some z1 → m !! j2 = Some z2 →
             (col z1 + (col z2 + y) = col z2 + (col z1 + y))%Z)
    by (intros; lia).
  unfold sum_column. destruct (table !! userId) as [old|] eqn:Hold.
  - rewrite <- insert_delete_eq.
    rewrite map_fold_insert_L; [|apply Hcomm|apply lookup_delete_eq].
    rewrite (map_fold_delete_L _ _ userId old table); [lia|apply Hcomm|done].
  - rewrite map_fold_insert_L; [lia|apply Hcomm|done].
Qed.

Lemma afterRollovers_counts p today lastReset row :
  let usage := afterRollovers today lastReset row in
  (ApiUsage.requestsToday p usage = ApiUsage.requestsToday p row
   ∨ ApiUsage.requestsToday p usage = 0)
  ∧ (ApiUsage.requestsMonth p usage = ApiUsage.requestsMonth p row
     ∨ ApiUsage.requestsMonth p usage = 0).
Proof.
  unfold afterRollovers.
  destruct (getTime_gt today lastReset), (monthDiffers today lastReset), p; simpl; auto.
Qed.

(** The usage table once the guard has run: the user's record is the
    record after the rollovers. *)
Lemma canMakeRequest_table p userId w :
  ∃ usage,
    (canMakeRequest env p userId w).1 =
      Ok (admission env p (ApiUsage.requestsToday p usage) (ApiUsage.requestsMonth p usage)
            (sum_column (ApiUsage.requestsToday p)
               (apiUsage (db (canMakeRequest env p userId w).2))))
    ∧ apiUsage (db (canMakeRequest env p userId w).2)
      = <[userId := usage]> (apiUsage (db w))
    ∧ ∀ q,
        (ApiUsage.requestsToday q usage = 0
         ∨ ∃ row, apiUsage (db w) !! userId = Some row
                  ∧ ApiUsage.requestsToday q usage = ApiUsage.requestsToday q row)
        ∧ (ApiUsage.requestsMonth q usage = 0
           ∨ ∃ row, apiUsage (db w) !! userId = Some row
                    ∧ ApiUsage.requestsMonth q usage = ApiUsage.requestsMonth q row).
Proof.
  destruct (canMakeRequest_healthy env healthy p userId w) as (Hr & Hrow & Hothers & _).
  eexists. split; [exact Hr|]. split.
  - apply map_eq. intros u. destruct (decide (u = userId)) as [->|Hne].
    + by rewrite Hrow, lookup_insert_eq.
    + by rewrite Hothers, lookup_insert_ne.
  - intros q.
    match goal with
    | |- context [afterRollovers ?t ?l ?r] =>
        destruct (afterRollovers_counts q t l r) as [Hday Hmonth]
    end.
    destruct (apiUsage (db w) !! userId) as [row|]; simpl in *.
    + split; [destruct Hday as [->| ->] | destruct Hmonth as [->| ->]]; eauto.
    + split; [destruct Hday as [->| ->] | destruct Hmonth as [->| ->]];
        left; by destruct q.
Qed.

Lemma under_limits_kept p q userId w :
  under_limits env q userId (apiUsage (db w)) →
  under_limits env q userId (apiUsage (db (canMakeRequest env p userId w).2)).
Proof.
  intros (Hd & Hm & Hg & Hrow).
  destruct (canMakeRequest_table p userId w) as (usage & _ & -> & Hcounts).
  destruct (Hcounts q) as [Hday Hmonth].
  split; [done|]. split; [done|]. split.
  - rewrite sum_column_insert.
    destruct (apiUsage (db w) !! userId) as [old|] eqn:Hold.
    + destruct (Hrow old eq_refl) as [[? ?] _].
      destruct Hday as [-> | (row & [= <-] & ->)]; lia.
    + destruct Hday as [-> | (row & [=] & _)]. lia.
  - intros row. rewrite lookup_insert_eq. intros [= <-].
    destruct Hday as [-> | (row & Hr & ->)], Hmonth as [-> | (row' & Hr' & ->)];
      repeat match goal with
             | H : apiUsage (db w) !! userId = Some _ |- _ =>
                 destruct (Hrow _ H) as [[? ?] ?]; clear H
             end; lia.
Qed.

Lemma canMakeRequest_admits p userId w :
  under_limits env p userId (apiUsage (db w)) →
  (canMakeRequest env p userId w).1 = Ok (mkAdmission true None).
Proof.
  intros Hunder.
  pose proof (under_limits_kept p p userId w Hunder) as (Hd & Hm & Hg & Hrow).
  destruct (canMakeRequest_table p userId w) as (usage & -> & Htable & _).
  rewrite Htable in Hrow, Hg |- *.
  destruct (Hrow usage (lookup_insert_eq _ _ _)) as [[? ?] ?].
  unfold admission. rewrite !bool_decide_eq_false_2 by lia. done.
Qed.

End GuardAdmits.

Section Isolation.
Context (env : Env).
Hypothesis healthy : ∀ k, storageFault env k = None.

Lemma researchSession_update_user_healthy id data old w :
  researchSession (db w) !! id = Some old →
  researchSession_update_user env id data w =
    (Ok (data old, user (db w) !! ResearchSession.userId old),
     mkWorld (with_researchSession (db w) (<[id := data old]> (researchSession (db w))))
             (ticks (bump KStorage w)) (EvSession (data old) :: log w)).
Proof.
  intros Hold. unfold researchSession_update_user, bind, prisma, emit, ret.
  rewrite healthy. simpl. rewrite Hold. done.
Qed.

Lemma researchSession_findUnique_healthy id w :
  researchSession_findUnique env id w = (Ok (researchSession (db w) !! id), bump KStorage w).
Proof.
  unfold researchSession_findUnique, prisma. rewrite healthy. by destruct w as [[] ? ?].
Qed.

(** The report is delivered whatever the mail service does. *)
Lemma deliverReport_Ok sessionId email old w :
  (∀ k, ∃ pdfBuffer, generatePDFBuffer env k = Ok pdfBuffer) →
  researchSession (db w) !! sessionId = Some old →
  (deliverReport env sessionId (Some email) w).1 = Ok tt.
Proof.
  intros Hpdf Hold. unfold deliverReport.
  destruct (Hpdf (ticks w KPdf)) as [pdfBuffer Hbuffer].
  erewrite bind_Ok; last first.
  { unfold pdfGenerator. rewrite Hbuffer. reflexivity. }
  rewrite (bind_Ok _ _ _ _ _ (eq_refl : new_Date env (bump KPdf w) = _)).
  erewrite bind_Ok; last first.
  { apply (researchSession_update_healthy env); [apply healthy | exact Hold]. }
  destruct (truthy email); [|done].
  unfold try_catch.
  match goal with |- context [bind ?m ?f ?w0] => destruct (bind m f w0) as [[[]|e] w1] end;
    done.
Qed.

(** C4: with a healthy store and a working report generator, for a
    stored session whose user exists and is below every usage limit,
    [runResearch] returns normally whatever the two provider calls do,
    and the session ends COMPLETED; when exactly one provider call
    fails, the failed provider's stored result is "Research failed",
    the other's is its output (for OpenAI the [result] text of its
    response, empty when the response has none), and [recordRequest] is
    called for the provider that succeeded and for no other. *)
Theorem runResearch_isolates_provider_failure (sessionId prompt : string) (w : World)
    (before : ResearchSession.t) :
  (∀ k, ∃ pdfBuffer, generatePDFBuffer env k = Ok pdfBuffer) →
  researchSession (db w) !! sessionId = Some before →
  is_Some (user (db w) !! ResearchSession.userId before) →
  (∀ p, under_limits env p (ResearchSession.userId before) (apiUsage (db w))) →
  ∃ w' row,
    runResearch env sessionId prompt w = (Ok tt, w')
    ∧ researchSession (db w') !! sessionId = Some row
    ∧ ResearchSession.status row = COMPLETED
    ∧ (∀ e text,
         openaiClient_startDeepResearch env (ticks w KOpenAI) prompt = Throw e →
         geminiClient_research env (ticks w KGemini) prompt = Ok text →
         ResearchSession.openaiResult row = Some "Research failed"
         ∧ ResearchSession.geminiResult row = Some text
         ∧ records (log w') = (Gemini, ResearchSession.userId before) :: records (log w))
    ∧ (∀ r e,
         openaiClient_startDeepResearch env (ticks w KOpenAI) prompt = Ok r →
         geminiClient_research env (ticks w KGemini) prompt = Throw e →
         ResearchSession.openaiResult row = Some (or_else (result r) "")
         ∧ ResearchSession.geminiResult row = Some "Research failed"
         ∧ records (log w') = (OpenAI, ResearchSession.userId before) :: records (log w)).
Proof.
  intros Hpdf Hbefore [email Hemail] Hunder.
  set (userId := ResearchSession.userId before) in *.
  set (running := ResearchSession.set_status RUNNING_RESEARCH before).
  (* the status is set to RUNNING_RESEARCH and the session is read back *)
  pose proof (researchSession_update_healthy env sessionId
                (ResearchSession.set_status RUNNING_RESEARCH) before w
                (healthy _) Hbefore) as Hup1.
  fold running in Hup1.
  set (w1 := mkWorld (with_researchSession (db w)
                        (<[sessionId := running]> (researchSession (db w))))
                     (ticks (bump KStorage w)) (EvSession running :: log w)) in *.
  pose proof (researchSession_findUnique_healthy sessionId w1) as Hfind.
  assert (Hrow1 : researchSession (db w1) !! sessionId = Some running)
    by apply lookup_insert_eq.
  rewrite Hrow1 in Hfind.
  set (w2 := bump KStorage w1) in *.
  (* both guards admit *)
  pose proof (canMakeRequest_admits env healthy OpenAI userId w2 (Hunder OpenAI)) as HcanO.
  pose proof (usage_frame_canMakeRequest env OpenAI userId w2) as Hf3.
  destruct (canMakeRequest env OpenAI userId w2) as [canO w3] eqn:HrunO.
  simpl in HcanO, Hf3. subst canO.
  pose proof (under_limits_kept env healthy OpenAI Gemini userId w2 (Hunder Gemini))
    as Hunder3.
  rewrite HrunO in Hunder3. simpl in Hunder3.
  pose proof (canMakeRequest_admits env healthy Gemini userId w3 Hunder3) as HcanG.
  pose proof (usage_frame_canMakeRequest env Gemini userId w3) as Hf4.
  destruct (canMakeRequest env Gemini userId w3) as [canG w4] eqn:HrunG.
  simpl in HcanG, Hf4. subst canG.
  destruct Hf3 as (Hs3 & _ & Hu3 & Hlog3 & Ht3).
  destruct Hf4 as (Hs4 & _ & Hu4 & Hlog4 & Ht4).
  (* the providers are called *)
  destruct (researchBoth_spec env userId prompt w4) as (w5 & Hboth & Hq5 & Hrec5).
  destruct Hq5 as (Hs5 & _ & Hu5 & _).
  assert (HtO : ticks w4 KOpenAI = ticks w KOpenAI) by (rewrite Ht4, Ht3; done).
  assert (HtG : ticks w4 KGemini = ticks w KGemini) by (rewrite Ht4, Ht3; done).
  assert (Hrec4 : records (log w4) = records (log w)) by (by rewrite Hlog4, Hlog3).
  rewrite HtO, HtG in Hboth. rewrite HtO, HtG, Hrec4 in Hrec5.
  set (o := openaiClient_startDeepResearch env (ticks w KOpenAI) prompt) in *.
  set (g := geminiClient_research env (ticks w KGemini) prompt) in *.
  set (ro := match o with Ok r => Ok (or_else (result r) "") | Throw e => Throw e end) in *.
  (* the results are stored *)
  assert (Hrow5 : researchSession (db w5) !! sessionId = Some running)
    by (by rewrite Hs5, Hs4, Hs3).
  set (completed := ResearchSession.set_status COMPLETED
                      (ResearchSession.set_results (settledText ro) (settledText g)
                         running)).
  pose proof (researchSession_update_user_healthy sessionId
                (λ r, ResearchSession.set_status COMPLETED
                        (ResearchSession.set_results (settledText ro) (settledText g) r))
                running w5 Hrow5) as Hup6.
  fold completed in Hup6.
  assert (Huser5 : user (db w5) !! ResearchSession.userId running = Some email)
    by (by rewrite Hu5, Hu4, Hu3).
  rewrite Huser5 in Hup6.
  set (w6 := mkWorld (with_researchSession (db w5)
                        (<[sessionId := completed]> (researchSession (db w5))))
                     (ticks (bump KStorage w5)) (EvSession completed :: log w5)) in *.
  assert (Hrow6 : researchSession (db w6) !! sessionId = Some completed)
    by apply lookup_insert_eq.
  (* the report is delivered *)
  pose proof (deliverReport_Ok sessionId email completed w6 Hpdf Hrow6) as Hok.
  destruct (deliverReport_keeps env sessionId (Some email)) as [Hkeep Hcalm7].
  specialize (Hkeep w6). specialize (Hcalm7 w6).
  destruct (deliverReport env sessionId (Some email) w6) as [r7 w7] eqn:Hrun7.
  simpl in Hok, Hkeep, Hcalm7. subst r7.
  destruct (Hkeep _ Hrow6) as (row & Hrow & Hst & Ho & Hg).
  destruct Hcalm7 as (_ & _ & Hrec7).
  exists w7, row. split.
  - unfold runResearch. erewrite bind_Ok by exact Hup1.
    unfold try_catch. erewrite bind_Ok by exact Hfind. cbv beta iota zeta.
    fold userId. unfold canMakeOpenAIRequest, canMakeGeminiRequest.
    erewrite bind_Ok by exact HrunO. erewrite bind_Ok by exact HrunG.
    cbn [allowed negb orb]. cbv iota.
    erewrite bind_Ok by exact Hboth. cbv beta iota.
    erewrite bind_Ok by exact Hup6. cbv beta iota.
    fold completed. fold w6. rewrite Hrun7. reflexivity.
  - split; [exact Hrow|]. split; [exact Hst|].
    assert (Hrec : records (log w7) = records (log w5)) by (by rewrite Hrec7).
    rewrite Hrec, Hrec5, Ho, Hg. simpl. subst ro.
    split.
    + intros e text -> ->. done.
    + intros r e -> ->. done.
Qed.

End Isolation.

(** ** The first response of the first provider *)

Section FirstResponse.
Context (env : Env).

(** C10 (as amended): when the session has been created and the guard
    has admitted the call, then: if the first provider's response
    carries no result and either does not require refinement or carries
    no list of refinement questions, [startSession] returns the created
    session, which stays stored in status CREATED; its creation is the
    only write to the session table, no refinement is created, and the
    second provider is never called. If the response requires
    refinement and its list of questions is empty (what the client
    delivers when the provider sends no question), then, with a healthy
    store, [startSession] returns the created session and moves the
    stored session to AWAITING_REFINEMENTS, with no refinement created
    and no research run. *)
Theorem startSession_parks_in_CREATED (userId title initialPrompt : string)
    (w w1 w2 : World) (session : ResearchSession.t) (admission : Admission)
    (response : DeepResearchResponse) :
  researchSession_create env userId title initialPrompt CREATED w = (Ok session, w1) →
  canMakeOpenAIRequest env userId w1 = (Ok admission, w2) →
  allowed admission = true →
  openaiClient_startDeepResearch env (ticks w KOpenAI) initialPrompt = Ok response →
  (truthy (result response) = false →
   requiresRefinement response = false ∨ refinementQuestions response = None →
   ∃ w',
     startSession env userId title initialPrompt w = (Ok session, w')
     ∧ ResearchSession.status session = CREATED
     ∧ researchSession (db w') !! ResearchSession.id session = Some session
     ∧ refinement (db w') = refinement (db w)
     ∧ sessionWrites (log w') = session :: sessionWrites (log w)
     ∧ ticks w' KGemini = ticks w KGemini)
  ∧ ((∀ k, storageFault env k = None) →
     requiresRefinement response = true →
     refinementQuestions response = Some [] →
     ∃ w',
       startSession env userId title initialPrompt w = (Ok session, w')
       ∧ ResearchSession.status session = CREATED
       ∧ researchSession (db w') !! ResearchSession.id session
         = Some (ResearchSession.set_status AWAITING_REFINEMENTS session)
       ∧ refinement (db w') = refinement (db w)
       ∧ sessionWrites (log w')
         = [ResearchSession.set_status AWAITING_REFINEMENTS session; session]
           ++ sessionWrites (log w)
       ∧ ticks w' KGemini = ticks w KGemini).
Proof.
  intros Hcreate Hcan Hallowed Hresp.
  pose proof (researchSession_create_spec env userId title initialPrompt CREATED w) as Hs1.
  rewrite Hcreate in Hs1. simpl in Hs1.
  destruct Hs1 as (Ht1 & Hr1 & _ & _ & Hsession & _ & Hdb1 & Hlog1).
  pose proof (usage_frame_canMakeRequest env OpenAI userId w1) as Hf2.
  unfold canMakeOpenAIRequest in Hcan. rewrite Hcan in Hf2. simpl in Hf2.
  destruct Hf2 as (Hs2 & Hr2 & _ & Hlog2 & Ht2).
  destruct (recordRequest_frame env OpenAI userId (bump KOpenAI w2))
    as (w3 & Hrec & (Hs3 & Hr3 & _ & Hw3) & _ & _ & Hg3).
  simpl in Hs3, Hr3, Hw3, Hg3.
  assert (Htick : ticks w2 KOpenAI = ticks w KOpenAI).
  { rewrite Ht2, Ht1; done. }
  assert (Hstart : ∀ rest : M unit,
             (if requiresRefinement response
              then match refinementQuestions response with
                   | Some questions =>
                       let! _ :=
                         refinement_createMany env
                           (List.map (λ q, (ResearchSession.id session, rq_question q,
                                            rq_index q)) questions) in
                       let! _ :=
                         researchSession_update env (ResearchSession.id session)
                           (ResearchSession.set_status AWAITING_REFINEMENTS) in
                       ret tt
                   | None =>
                       if truthy (result response)
                       then runResearch env (ResearchSession.id session) initialPrompt
                       else ret tt
                   end
              else if truthy (result response)
                   then runResearch env (ResearchSession.id session) initialPrompt
                   else ret tt) = rest →
             startSession env userId title initialPrompt w =
               bind (try_catch rest
                       (λ message,
                          let! _ := researchSession_update env (ResearchSession.id session)
                                      (markFailed message) in
                          throw message))
                    (λ _, ret session) w3).
  { intros rest <-. unfold startSession. rewrite (bind_Ok _ _ _ _ _ Hcreate).
    unfold bind at 1, try_catch.
    unfold bind at 1. unfold canMakeOpenAIRequest. rewrite Hcan. rewrite Hallowed.
    simpl. unfold bind at 1. simpl.
    unfold bind at 1. unfold openaiClient. rewrite Htick, Hresp.
    unfold bind at 1. unfold recordOpenAIRequest. rewrite Hrec.
    unfold bind, try_catch.
    destruct (requiresRefinement response), (refinementQuestions response); reflexivity. }
  split.
  - intros Hresult Hshape. exists w3. split.
    + rewrite (Hstart (ret tt)); [done|].
      destruct Hshape as [-> | ->]; rewrite Hresult; [done|].
      by destruct (requiresRefinement response).
    + split; [by subst session|].
      split; [by rewrite Hs3, Hs2, Hdb1, lookup_insert_eq|].
      split; [by rewrite Hr3, Hr2, Hr1|].
      split; [by rewrite Hw3, Hlog2, Hlog1|].
      rewrite Hg3, Ht2, Ht1; done.
  - intros Hh Hreq Hqs.
    set (sid := ResearchSession.id session) in *.
    assert (Hrow3 : researchSession (db w3) !! sid = Some session)
      by (by rewrite Hs3, Hs2, Hdb1, lookup_insert_eq).
    eexists. split.
    + erewrite Hstart by (rewrite Hreq, Hqs; reflexivity).
      erewrite bind_Ok; [reflexivity|].
      unfold try_catch.
      erewrite bind_Ok; last first.
      { unfold refinement_createMany. cbn [List.map length new_cuids].
        rewrite bind_ret. unfold prisma. rewrite Hh.
        rewrite bool_decide_eq_true_2 by (split; constructor). reflexivity. }
      erewrite bind_Ok; last first.
      { apply researchSession_update_healthy; [apply Hh|]. simpl.
        rewrite Hs3, Hs2, Hdb1. apply lookup_insert_eq. }
      reflexivity.
    + simpl. split; [by rewrite Hsession|].
      split; [apply lookup_insert_eq|].
      split; [by rewrite app_nil_r, Hr3, Hr2, Hr1|].
      split; [by rewrite Hw3, Hlog2, Hlog1|].
      rewrite Hg3, Ht2, Ht1; done.
Qed.

End FirstResponse.

Lemma reachable_world_two_answered : reachable env_refine world_two_answered.
Proof.
  do 2 apply reachable_submitRefinementAnswer. apply reachable_startSession.
  by apply reachable_init.
Qed.

(** C3, counterexample: when the third of three answers arrives, a row
    with status REFINEMENTS_COMPLETE and no refined prompt is written;
    and a session whose first response carries a result runs to
    COMPLETED without a refined prompt ever being set. *)
Lemma refinedPrompt_iff_complete_counterexample :
  (reachable env_refine
     (submitRefinementAnswer env_refine "id0" "u" 2 "a2" world_two_answered).2
   ∧ ∃ row,
       row ∈ sessionWrites
               (log (submitRefinementAnswer env_refine "id0" "u" 2 "a2"
                       world_two_answered).2)
       ∧ ResearchSession.status row = REFINEMENTS_COMPLETE
       ∧ ResearchSession.refinedPrompt row = None)
  ∧ (reachable env_feb1 (startSession env_feb1 "u" "Title" "X" world_one_user).2
     ∧ ∃ row,
         researchSession (db (startSession env_feb1 "u" "Title" "X" world_one_user).2)
           !! "id0" = Some row
         ∧ ResearchSession.status row = COMPLETED
         ∧ ResearchSession.refinedPrompt row = None).
Proof.
  split; split.
  - apply reachable_submitRefinementAnswer, reachable_world_two_answered.
  - exists (ResearchSession.mk "id0" "u" "Title" "X" None REFINEMENTS_COMPLETE
              None None None None None None (mkDate 2025 1 1 36000000)).
    split; [|done]. vm_compute.
    repeat first [apply list_elem_of_here | apply list_elem_of_further].
  - apply reachable_startSession. by apply reachable_init.
  - eexists. split; [vm_compute; reflexivity|]. split; reflexivity.
Qed.

Lemma refinedPrompt_only_after_complete_witness :
  reachedComplete
    (sessionWrites
       (log (submitRefinementAnswer env_refine "id0" "u" 2 "a2" world_two_answered).2))
    "id0"
  ∧ ∃ post prompt,
      sessionWrites
        (log (submitRefinementAnswer env_refine "id0" "u" 2 "a2" world_two_answered).2)
      = post
        ++ [ ResearchSession.set_refinedPrompt prompt
               (ResearchSession.set_status REFINEMENTS_COMPLETE session_in_progress);
             ResearchSession.set_status REFINEMENTS_COMPLETE session_in_progress ]
        ++ sessionWrites (log world_two_answered).
Proof.
  split.
  - eapply (proj2 (proj1 (refinedPrompt_only_after_complete env_refine) _
                     (reachable_submitRefinementAnswer env_refine _ "id0" "u" 2 "a2"
                        reachable_world_two_answered))).
    + vm_compute. reflexivity.
    + simpl. eauto.
  - destruct (proj2 (refinedPrompt_only_after_complete env_refine)
                "id0" "u" 2 "a2" world_two_answered session_in_progress third_question)
      as [post Hpost].
    + intros k. reflexivity.
    + vm_compute. reflexivity.
    + reflexivity.
    + vm_compute. reflexivity.
    + vm_compute. reflexivity.
    + vm_compute. lia.
    + exists post. eexists. exact Hpost.
Defined.

Lemma runResearch_isolates_provider_failure_witness :
  (∃ w' row,
     runResearch env_openai_down "s" "X refined" world_one_session = (Ok tt, w')
     ∧ researchSession (db w') !! "s" = Some row
     ∧ ResearchSession.status row = COMPLETED
     ∧ ResearchSession.openaiResult row = Some "Research failed"
     ∧ ResearchSession.geminiResult row = Some "Gemini findings"
     ∧ records (log w') = [(Gemini, "u")])
  ∧ (∃ w' row,
       runResearch env_gemini_down "s" "X refined" world_one_session = (Ok tt, w')
       ∧ researchSession (db w') !! "s" = Some row
       ∧ ResearchSession.status row = COMPLETED
       ∧ ResearchSession.openaiResult row = Some "OpenAI findings"
       ∧ ResearchSession.geminiResult row = Some "Research failed"
       ∧ records (log w') = [(OpenAI, "u")]).
Proof.
  assert (Hunder : ∀ e, limits e = default_limits →
                        ∀ p, under_limits e p "u" (apiUsage (db world_one_session))).
  { intros e He p. unfold under_limits, DAILY_LIMIT, MONTHLY_LIMIT, GLOBAL_DAILY_LIMIT.
    rewrite He. split; [by destruct p|]. split; [by destruct p|].
    split; [by destruct p|]. intros row Hrow. simpl in Hrow. by rewrite lookup_empty in Hrow. }
  split.
  - destruct (runResearch_isolates_provider_failure env_openai_down (λ _, eq_refl)
                "s" "X refined" world_one_session session_s)
      as (w' & row & Hrun & Hrow & Hstatus & Hopenai & _).
    + intros k. by eexists.
    + reflexivity.
    + by eexists.
    + by apply Hunder.
    + destruct (Hopenai _ _ eq_refl eq_refl) as (Ho & Hg & Hrec).
      exists w', row. repeat split; done.
  - destruct (runResearch_isolates_provider_failure env_gemini_down (λ _, eq_refl)
                "s" "X refined" world_one_session session_s)
      as (w' & row & Hrun & Hrow & Hstatus & _ & Hgemini).
    + intros k. by eexists.
    + reflexivity.
    + by eexists.
    + by apply Hunder.
    + destruct (Hgemini _ _ eq_refl eq_refl) as (Ho & Hg & Hrec).
      exists w', row. repeat split; done.
Defined.

Lemma startSession_parks_in_CREATED_witness :
  (∃ w',
     startSession env_silent "u" "Title" "X" world_one_user = (Ok session_created, w')
     ∧ researchSession (db w') !! "id0" = Some session_created
     ∧ refinement (db w') = []
     ∧ sessionWrites (log w') = [session_created])
  ∧ (∃ w',
       startSession env_no_questions "u" "Title" "X" world_one_user
       = (Ok session_created, w')
       ∧ researchSession (db w') !! "id0"
         = Some (ResearchSession.set_status AWAITING_REFINEMENTS session_created)
       ∧ refinement (db w') = []).
Proof.
  split.
  - destruct (proj1 (startSession_parks_in_CREATED env_silent "u" "Title" "X"
                world_one_user
                (researchSession_create env_silent "u" "Title" "X" CREATED
                   world_one_user).2
                (canMakeOpenAIRequest env_silent "u"
                   (researchSession_create env_silent "u" "Title" "X" CREATED
                      world_one_user).2).2
                session_created (mkAdmission true None)
                (RealOpenAIClient_parsed (Some false) None None)
                ltac:(apply run_eta; vm_compute; reflexivity)
                ltac:(apply run_eta; vm_compute; reflexivity)
                eq_refl eq_refl))
      as (w' & Hrun & _ & Hrow & Hrefs & Hwrites & _).
    + reflexivity.
    + by left.
    + exists w'. repeat split; done.
  - destruct (proj2 (startSession_parks_in_CREATED env_no_questions "u" "Title" "X"
                world_one_user
                (researchSession_create env_no_questions "u" "Title" "X" CREATED
                   world_one_user).2
                (canMakeOpenAIRequest env_no_questions "u"
                   (researchSession_create env_no_questions "u" "Title" "X" CREATED
                      world_one_user).2).2
                session_created (mkAdmission true None)
                (RealOpenAIClient_parsed (Some true) None None)
                ltac:(apply run_eta; vm_compute; reflexivity)
                ltac:(apply run_eta; vm_compute; reflexivity)
                eq_refl eq_refl))
      as (w' & Hrun & _ & Hrow & Hrefs & _).
    + intros k. reflexivity.
    + reflexivity.
    + reflexivity.
    + exists w'. repeat split; done.
Defined.

(** C10, counterexample: the response the client builds from the JSON
    text [{"requiresRefinement": true}] requires refinement and carries
    an empty list of questions and no result; [startSession] returns
    the created session, and the stored session has been moved to
    AWAITING_REFINEMENTS, with no refinement to answer. *)
Lemma startSession_parks_counterexample :
  let response := RealOpenAIClient_parsed (Some true) None None in
  let w' := (startSession env_no_questions "u" "Title" "X" world_one_user).2 in
  openaiClient_startDeepResearch env_no_questions O "X" = Ok response
  ∧ requiresRefinement response = true
  ∧ refinementQuestions response = Some []
  ∧ result response = None
  ∧ (startSession env_no_questions "u" "Title" "X" world_one_user).1
    = Ok session_created
  ∧ (ResearchSession.status <$> researchSession (db w') !! "id0")
    = Some AWAITING_REFINEMENTS
  ∧ refinement (db w') = []
  ∧ ResearchSession.status <$> sessionWrites (log w') = [AWAITING_REFINEMENTS; CREATED]
  ∧ ticks w' KGemini = O.
Proof. vm_compute. repeat split. Qed.

(** ** The state machine, the guard and the orchestrator: further properties *)

Section StateMachineMore.
Import ResearchSessionStateMachine.

Lemma elem_of_fold_Set_add {A} `{EqDecision A} (xs seen : list A) (x : A) :
  x ∈ fold_left Set_add xs seen ↔ x ∈ seen ∨ x ∈ xs.
Proof.
  revert seen. induction xs as [|y xs IH]; intros seen; simpl.
  - rewrite elem_of_nil. tauto.
  - rewrite IH. unfold Set_add. rewrite elem_of_cons.
    case_bool_decide as Hin; [|rewrite elem_of_app, list_elem_of_singleton; tauto].
    split; [tauto|]. intros [?|[->|?]]; tauto.
Qed.

Lemma elem_of_spread_Set {A} `{EqDecision A} (xs : list A) (x : A) :
  x ∈ spread_Set xs ↔ x ∈ xs.
Proof. unfold spread_Set. rewrite elem_of_fold_Set_add, elem_of_nil. tauto. Qed.

Ltac guards :=
  repeat match goal with
         | |- context [if ?b then _ else _] => destruct b eqn:?
         | H : context [if ?b then _ else _] |- _ => destruct b eqn:?
         end.

(** X1: the states listed by [getNextStates] are exactly those
    [canTransition] accepts. *)
Theorem getNextStates_iff_canTransition (from0 to0 : ResearchSessionStatus)
    (session : ResearchSessionData) :
  to0 ∈ getNextStates from0 session ↔ canTransition from0 to0 session = true.
Proof.
  destruct from0, to0; unfold getNextStates, canTransition; simpl;
    guards; simpl; rewrite elem_of_spread_Set, ?elem_of_cons, ?elem_of_nil;
    split; intros; try done; try (intuition congruence); auto 10.
Qed.

(** X2: a legal transition stays, fails, or moves one step forward; and
    [getNextState] proposes a state exactly when it is the next state of
    the progression and the transition to it is legal. *)
Theorem transitions_move_one_step_forward (session : ResearchSessionData) :
  (∀ from0 to0,
     canTransition from0 to0 session = true →
     to0 = from0 ∨ to0 = FAILED ∨ successor from0 = Some to0)
  ∧ (∀ to0,
       getNextState session = Some to0
       ↔ successor (sd_status session) = Some to0
         ∧ canTransition (sd_status session) to0 session = true).
Proof.
  split.
  - intros from0 to0. destruct from0, to0; unfold canTransition; simpl; auto; done.
  - intros to0. unfold getNextState.
    destruct (sd_status session); unfold getNextStates, canTransition; simpl;
      guards; simpl; destruct to0; split; intros; try done;
      try (intuition congruence); auto.
Qed.

Lemma transitions_move_one_step_forward_witness :
  getNextState (session3 (Some "a2")) = Some REFINEMENTS_COMPLETE
  ∧ (canTransition CREATED AWAITING_REFINEMENTS (session3 None) = true →
     AWAITING_REFINEMENTS = CREATED ∨ AWAITING_REFINEMENTS = FAILED
     ∨ successor CREATED = Some AWAITING_REFINEMENTS).
Proof.
  split.
  - apply (proj2 (transitions_move_one_step_forward (session3 (Some "a2")))).
    split; reflexivity.
  - apply (proj1 (transitions_move_one_step_forward (session3 None))).
Defined.
End StateMachineMore.

(** ** More on the usage guard *)

Section UsageGuardMore.
Context (env : Env).

Lemma getUserUsage_run userId w :
  storageFault env (ticks w KStorage) = None →
  (getUserUsage env userId w).1 =
    Ok (match apiUsage (db w) !! userId with
        | None =>
            mkUserUsage
              (mkUsageStats 0 0 (OPENAI_DAILY_LIMIT (limits env))
                 (OPENAI_MONTHLY_LIMIT (limits env)))
              (mkUsageStats 0 0 (GEMINI_DAILY_LIMIT (limits env))
                 (GEMINI_MONTHLY_LIMIT (limits env)))
        | Some usage =>
            mkUserUsage
              (mkUsageStats (ApiUsage.openaiRequestsToday usage)
                 (ApiUsage.openaiRequestsMonth usage)
                 (OPENAI_DAILY_LIMIT (limits env)) (OPENAI_MONTHLY_LIMIT (limits env)))
              (mkUsageStats (ApiUsage.geminiRequestsToday usage)
                 (ApiUsage.geminiRequestsMonth usage)
                 (GEMINI_DAILY_LIMIT (limits env)) (GEMINI_MONTHLY_LIMIT (limits env)))
        end).
Proof.
  intros Hf. unfold getUserUsage, bind, apiUsage_findUnique, prisma.
  rewrite Hf. simpl. by destruct (apiUsage (db w) !! userId).
Qed.

(** X3: with a healthy store, a recorded request shows in [getUserUsage]
    as one more request of that provider today and this month, the other
    provider's counts and all limits unchanged; a user without record
    reads as zero. *)
Theorem getUserUsage_after_recordRequest (p : Provider) (userId : string) (w : World) :
  (∀ k, storageFault env k = None) →
  ∃ before after,
    (getUserUsage env userId w).1 = Ok before
    ∧ (getUserUsage env userId (recordRequest env p userId w).2).1 = Ok after
    ∧ today (statsOf p after) = today (statsOf p before) + 1
    ∧ month (statsOf p after) = month (statsOf p before) + 1
    ∧ (∀ q, q ≠ p → statsOf q after = statsOf q before)
    ∧ dailyLimit (statsOf p after) = dailyLimit (statsOf p before)
    ∧ monthlyLimit (statsOf p after) = monthlyLimit (statsOf p before)
    ∧ (apiUsage (db w) !! userId = None →
       today (statsOf p before) = 0 ∧ month (statsOf p before) = 0).
Proof.
  intros Hh. rewrite !getUserUsage_run by apply Hh.
  destruct (recordRequest_run env p userId w (Hh _)) as [Hm _]. rewrite Hm, lookup_insert_eq.
  eexists _, _. split; [reflexivity|]. split; [reflexivity|].
  destruct (apiUsage (db w) !! userId) as [row|]; destruct p; simpl;
    repeat split; try done; by intros [].
Qed.

(** X4: [getUserUsage] writes nothing, and it does not fail open: a
    failure of its storage call is thrown to the caller. *)
Theorem getUserUsage_reads_only (userId : string) (w : World) :
  db (getUserUsage env userId w).2 = db w
  ∧ log (getUserUsage env userId w).2 = log w
  ∧ ∀ message,
      storageFault env (ticks w KStorage) = Some message →
      (getUserUsage env userId w).1 = Throw message.
Proof.
  unfold getUserUsage, bind, apiUsage_findUnique, prisma.
  destruct (storageFault env _); simpl.
  - repeat split. by intros ? [= ->].
  - destruct (apiUsage (db w) !! userId); simpl; repeat split; done.
Qed.

End UsageGuardMore.

Lemma getUserUsage_after_recordRequest_witness :
  ∃ before after,
    (getUserUsage env_feb1 "u" world_one_user).1 = Ok before
    ∧ (getUserUsage env_feb1 "u" (recordRequest env_feb1 Gemini "u" world_one_user).2).1
      = Ok after
    ∧ today (statsOf Gemini after) = today (statsOf Gemini before) + 1.
Proof.
  destruct (getUserUsage_after_recordRequest env_feb1 Gemini "u" world_one_user
              (λ _, eq_refl)) as (b & a & Hb & Ha & Ht & _).
  by exists b, a.
Defined.

Lemma getUserUsage_reads_only_witness :
  (getUserUsage
     (mkEnv (λ _, Some "database is locked")
            (openaiClient_startDeepResearch env_feb1) (geminiClient_research env_feb1)
            (generatePDFBuffer env_feb1) (emailService_sendPDF env_feb1)
            (now env_feb1) (cuid env_feb1) default_limits)
     "u" world_one_user).1 = Throw "database is locked".
Proof. by apply getUserUsage_reads_only. Defined.

#[global] Instance others_kept_preorder userId : PreOrder (others_kept userId).
Proof.
  split.
  - intros w. by repeat split.
  - intros w1 w2 w3 (H12 & ? & ? & ? & ?) (H23 & ? & ? & ? & ?).
    repeat split; try congruence. intros u Hu. rewrite H23, H12; done.
Qed.

Lemma getTime_gt_irrefl d : getTime_gt d d = false.
Proof.
  unfold getTime_gt. rewrite !bool_decide_eq_true_2 by done.
  apply bool_decide_eq_false_2. lia.
Qed.

Lemma monthDiffers_refl d : monthDiffers d d = false.
Proof. unfold monthDiffers. by rewrite !bool_decide_eq_false_2 by (intros H; by apply H). Qed.

Lemma setHours0_idem d : setHours0 (setHours0 d) = setHours0 d.
Proof. done. Qed.

Section UsageGuardMore2.
Context (env : Env).

Lemma others_kept_prisma {A} userId (op : Db → Result A * Db) :
  (∀ d, (∀ u, u ≠ userId → apiUsage (op d).2 !! u = apiUsage d !! u)
        ∧ researchSession (op d).2 = researchSession d
        ∧ refinement (op d).2 = refinement d
        ∧ user (op d).2 = user d) →
  preserves (others_kept userId) (prisma env op).
Proof.
  intros Hop w. destruct (prisma_spec env op w) as (_ & _ & Hlog & Hdb).
  unfold others_kept. rewrite Hlog.
  destruct (storageFault env _); destruct Hdb as [_ ->]; [done|].
  destruct (Hop (db w)) as (? & ? & ? & ?). done.
Qed.

Ltac others_kept_step userId :=
  first
    [ apply (others_kept_prisma userId); intros d; simpl;
      repeat match goal with |- context [match ?x with _ => _ end] => destruct x end;
      simpl; repeat split; try done; intros u Hu; by rewrite lookup_insert_ne
    | by intros w
    | preserves_step ].

Lemma others_kept_canMakeRequest p userId :
  preserves (others_kept userId) (canMakeRequest env p userId).
Proof.
  unfold canMakeRequest, canMakeRequest_try, applyRollovers, enforceLimits,
    apiUsage_findUnique, apiUsage_create, apiUsage_insert, apiUsage_update,
    apiUsage_aggregate_sum.
  repeat others_kept_step userId.
Qed.

Lemma others_kept_recordRequest p userId :
  preserves (others_kept userId) (recordRequest env p userId).
Proof.
  unfold recordRequest, apiUsage_upsert. repeat others_kept_step userId.
Qed.

(** X5: whatever the store does, a check or a recording for one user
    leaves the usage records of all other users, the sessions, the
    refinements and the users as they were. *)
Theorem usage_guard_touches_one_user (p : Provider) (userId : string) (w : World) :
  others_kept userId w (canMakeRequest env p userId w).2
  ∧ others_kept userId w (recordRequest env p userId w).2.
Proof. split; [apply others_kept_canMakeRequest | apply others_kept_recordRequest]. Qed.

Lemma afterRollovers_settled today row :
  let usage := afterRollovers (setHours0 today)
                 (setHours0 (ApiUsage.lastResetDate row)) row in
  afterRollovers (setHours0 today) (setHours0 (ApiUsage.lastResetDate usage)) usage = usage.
Proof.
  unfold afterRollovers.
  destruct (getTime_gt (setHours0 today) (setHours0 (ApiUsage.lastResetDate row)))
    eqn:Hd;
    destruct (monthDiffers (setHours0 today) (setHours0 (ApiUsage.lastResetDate row)))
      eqn:Hm;
    cbn [ApiUsage.lastResetDate resetMonthly resetDaily];
    rewrite ?setHours0_idem, ?getTime_gt_irrefl, ?monthDiffers_refl, ?Hd, ?Hm; done.
Qed.

(** X6: with a healthy store, on one calendar day, a second check
    (for either provider) finds nothing to roll over: the usage table is
    as the first check left it. *)
Theorem rollover_is_idempotent (p q : Provider) (userId : string) (w : World)
    (today : Date) :
  (∀ k, storageFault env k = None) →
  (∀ k, setHours0 (now env k) = setHours0 today) →
  let w1 := (canMakeRequest env p userId w).2 in
  apiUsage (db (canMakeRequest env q userId w1).2) = apiUsage (db w1).
Proof.
  intros Hh Hday w1.
  destruct (canMakeRequest_healthy env Hh p userId w) as (_ & Hrow1 & _ & _).
  fold w1 in Hrow1. rewrite Hday in Hrow1.
  destruct (canMakeRequest_healthy env Hh q userId w1) as (_ & Hrow2 & Hothers & _).
  rewrite Hrow1 in Hrow2. simpl in Hrow2. rewrite Hday in Hrow2.
  rewrite afterRollovers_settled in Hrow2.
  apply map_eq. intros u. destruct (decide (u = userId)) as [->|Hne].
  - by rewrite Hrow2, Hrow1.
  - by apply Hothers.
Qed.

Lemma increment_commute u :
  increment Gemini (increment OpenAI u) = increment OpenAI (increment Gemini u).
Proof. done. Qed.

(** X7: with a healthy store, recording a request to each provider gives
    the same usage table in either order. *)
Theorem recordRequest_commutes (userId : string) (w : World) :
  (∀ k, storageFault env k = None) →
  apiUsage (db (recordRequest env Gemini userId (recordRequest env OpenAI userId w).2).2)
  = apiUsage (db (recordRequest env OpenAI userId (recordRequest env Gemini userId w).2).2).
Proof.
  intros Hh.
  destruct (recordRequest_run env OpenAI userId w (Hh _)) as [Ho _].
  destruct (recordRequest_run env Gemini userId w (Hh _)) as [Hg _].
  destruct (recordRequest_run env Gemini userId (recordRequest env OpenAI userId w).2
              (Hh _)) as [Hog _].
  destruct (recordRequest_run env OpenAI userId (recordRequest env Gemini userId w).2
              (Hh _)) as [Hgo _].
  rewrite Hog, Hgo, Ho, Hg, !lookup_insert_eq, !insert_insert_eq.
  by destruct (apiUsage (db w) !! userId).
Qed.

End UsageGuardMore2.

Section Quota.
Context (env : Env).
Hypothesis healthy : ∀ k, storageFault env k = None.

Lemma recorded_table p userId today w k :
  (∀ k, setHours0 (now env k) = setHours0 today) →
  apiUsage (db w) = ∅ →
  match k with
  | O => apiUsage (db (recorded env p userId k w)) = ∅
  | S _ =>
      ∃ row, apiUsage (db (recorded env p userId k w)) = {[ userId := row ]}
             ∧ ApiUsage.requestsToday p row = Z.of_nat k
             ∧ ApiUsage.requestsMonth p row = Z.of_nat k
             ∧ setHours0 (ApiUsage.lastResetDate row) = setHours0 today
  end.
Proof.
  intros Hday Hempty. induction k as [|k IH]; [done|].
  change (recorded env p userId (S k) w)
    with (recordRequest env p userId (recorded env p userId k w)).2.
  destruct (recordRequest_run env p userId (recorded env p userId k w) (healthy _))
    as [Hm _].
  rewrite Hm. destruct k as [|k].
  - rewrite IH, lookup_empty, insert_empty. eexists. split; [done|].
    destruct p; simpl; rewrite Hday; done.
  - destruct IH as (row & -> & Ht & Hmo & Hd).
    rewrite lookup_singleton_eq, insert_singleton_eq. eexists. split; [done|].
    destruct p; simpl in *; rewrite ?Ht, ?Hmo; repeat split; try done; lia.
Qed.

(** X8: with a healthy store, on one calendar day, a usage table that
    holds no other user, and a daily limit not above the monthly and the
    global limit: after [k] recorded requests the guard admits the next
    one exactly when [k] is below the daily limit. *)
Theorem daily_limit_counts_requests (p : Provider) (userId : string) (today : Date)
    (w : World) (k : nat) :
  (∀ k, setHours0 (now env k) = setHours0 today) →
  apiUsage (db w) = ∅ →
  (DAILY_LIMIT env p ≤ MONTHLY_LIMIT env p)%Z →
  (DAILY_LIMIT env p ≤ GLOBAL_DAILY_LIMIT env p)%Z →
  ∃ a, (canMakeRequest env p userId (recorded env p userId k w)).1 = Ok a
       ∧ allowed a = bool_decide (Z.of_nat k < DAILY_LIMIT env p)%Z.
Proof.
  intros Hday Hempty Hmonthly Hglobal.
  pose proof (recorded_table p userId today w k Hday Hempty) as Htable.
  set (wk := recorded env p userId k w) in *.
  destruct (canMakeRequest_healthy env healthy p userId wk) as (Hr & Hrow & Hothers & _).
  set (w' := (canMakeRequest env p userId wk).2) in *.
  assert (Husage : ∃ usage,
             apiUsage (db w') = {[ userId := usage ]}
             ∧ ApiUsage.requestsToday p usage = Z.of_nat k
             ∧ ApiUsage.requestsMonth p usage = Z.of_nat k
             ∧ afterRollovers
                 (setHours0
                    (now env (if apiUsage (db wk) !! userId is Some _
                              then ticks wk KClock else S (ticks wk KClock))))
                 (setHours0
                    (ApiUsage.lastResetDate
                       (default (ApiUsage.mk userId 0 0 0 0 (now env (ticks wk KClock)))
                                (apiUsage (db wk) !! userId))))
                 (default (ApiUsage.mk userId 0 0 0 0 (now env (ticks wk KClock)))
                          (apiUsage (db wk) !! userId)) = usage).
  { destruct k as [|k].
    - rewrite Htable, lookup_empty in *. simpl in *. rewrite !Hday in *.
      unfold afterRollovers in *. rewrite getTime_gt_irrefl, monthDiffers_refl in *.
      exists (ApiUsage.mk userId 0 0 0 0 (now env (ticks wk KClock))). split; [|by destruct p].
      apply map_eq. intros u. destruct (decide (u = userId)) as [->|Hne].
      + by rewrite Hrow, lookup_singleton_eq.
      + rewrite Hothers, lookup_empty, lookup_singleton_ne; done.
    - destruct Htable as (row & Htable & Ht & Hmo & Hd).
      rewrite Htable, lookup_singleton_eq in *. simpl in *. rewrite Hday, Hd in *.
      unfold afterRollovers in *. rewrite getTime_gt_irrefl, monthDiffers_refl in *.
      exists row. split; [|done].
      apply map_eq. intros u. destruct (decide (u = userId)) as [->|Hne].
      + by rewrite Hrow, lookup_singleton_eq.
      + rewrite Hothers, !lookup_singleton_ne; done. }
  destruct Husage as (usage & Hw' & Ht & Hmo & Heq).
  rewrite Heq in Hr. rewrite Hr. eexists. split; [reflexivity|].
  rewrite Hw'. unfold sum_column. rewrite map_fold_singleton, Ht, Hmo, Z.add_0_r.
  unfold admission. repeat case_bool_decide; simpl; try done; lia.
Qed.

End Quota.

Lemma daily_limit_counts_requests_witness :
  ∃ a, (canMakeRequest env_feb1 OpenAI "u"
          (recorded env_feb1 OpenAI "u" 10 world_one_user)).1 = Ok a
       ∧ allowed a = false.
Proof.
  destruct (daily_limit_counts_requests env_feb1 (λ _, eq_refl) OpenAI "u"
              (mkDate 2025 1 1 0) world_one_user 10) as (a & Ha & Hallowed);
    [done | done | vm_compute; discriminate | vm_compute; discriminate |].
  exists a. split; [exact Ha|]. rewrite Hallowed. reflexivity.
Defined.

Lemma rollover_is_idempotent_witness :
  apiUsage (db (canMakeRequest env_feb1 Gemini "u"
                  (canMakeRequest env_feb1 OpenAI "u"
                     (world_of (db_usage row_jan31))).2).2)
  = apiUsage (db (canMakeRequest env_feb1 OpenAI "u" (world_of (db_usage row_jan31))).2).
Proof.
  apply (rollover_is_idempotent env_feb1 OpenAI Gemini "u" _ (mkDate 2025 1 1 0));
    [intros k; reflexivity | intros k; reflexivity].
Defined.

Lemma recordRequest_commutes_witness :
  apiUsage (db (recordRequest env_feb1 Gemini "u"
                  (recordRequest env_feb1 OpenAI "u" world_one_user).2).2)
  = apiUsage (db (recordRequest env_feb1 OpenAI "u"
                    (recordRequest env_feb1 Gemini "u" world_one_user).2).2).
Proof. apply recordRequest_commutes. intros k. reflexivity. Defined.

Section SanitizeFilename.

Ltac each_unit c := destruct c as [[] [] [] [] [] [] [] []].

Lemma filenameChar_unit c :
  filenameChar (toLowerCase_unit (if alphanumeric c then c else hyphen)) = true.
Proof. each_unit c; reflexivity. Qed.

Lemma replace_hyphenRuns_cons c rest :
  replace_hyphenRuns (c :: rest) =
    if bool_decide (c = hyphen) && bool_decide (head rest = Some hyphen)
    then replace_hyphenRuns rest else c :: replace_hyphenRuns rest.
Proof.
  destruct rest as [|c' rest]; simpl.
  - by case_bool_decide.
  - case_bool_decide; [|done]. simpl.
    destruct (decide (c' = hyphen)) as [->|Hne].
    + by rewrite !bool_decide_eq_true_2.
    + rewrite !bool_decide_eq_false_2; [done| |done]. by intros [= ?].
Qed.

Lemma remove_lastHyphen_cons c rest :
  remove_lastHyphen (c :: rest) =
    match rest with
    | [] => if bool_decide (c = hyphen) then [] else [c]
    | _ => c :: remove_lastHyphen rest
    end.
Proof. by destruct rest. Qed.

Section Keeps.
Context (P : Ascii.ascii → Prop).

Lemma Forall_replace_hyphenRuns s : Forall P s → Forall P (replace_hyphenRuns s).
Proof.
  induction 1 as [|c rest Hc Hrest IH]; [done|].
  rewrite replace_hyphenRuns_cons. destruct (_ && _); [done|]. by constructor.
Qed.

Lemma Forall_remove_lastHyphen s : Forall P s → Forall P (remove_lastHyphen s).
Proof.
  induction 1 as [|c rest Hc Hrest IH]; [done|].
  rewrite remove_lastHyphen_cons. destruct rest.
  - case_bool_decide; by constructor.
  - by constructor.
Qed.

Lemma Forall_replace_edgeHyphens s : Forall P s → Forall P (replace_edgeHyphens s).
Proof.
  intros Hs. unfold replace_edgeHyphens. destruct s as [|c rest]; [done|].
  case_bool_decide; apply Forall_remove_lastHyphen; [|done]. by inversion Hs.
Qed.

End Keeps.

Lemma slug_chars title : Forall (λ c, filenameChar c = true) (slug title).
Proof.
  unfold slug. apply Forall_replace_edgeHyphens, Forall_replace_hyphenRuns.
  unfold toLowerCase, replace_nonAlphanumeric. rewrite List.map_map.
  apply Forall_forall. intros c [c0 [-> _]]%list_elem_of_fmap.
  apply filenameChar_unit.
Qed.

Lemma sanitizeFilename_eq title maxLength :
  sanitizeFilename title maxLength =
    match substring0 maxLength (slug title) with
    | [] => "research-report"
    | s => String.string_of_list_ascii s
    end.
Proof. unfold sanitizeFilename. fold (slug title). by destruct (substring0 _ _). Qed.

(** X9: a sanitized file name is never empty, and it is made of the
    characters [a-z], [0-9] and [-] only, whatever the title and the
    length bound. *)
Theorem sanitizeFilename_is_safe (title : string) (maxLength : Z) :
  let name := String.list_ascii_of_string (sanitizeFilename title maxLength) in
  name ≠ [] ∧ Forall (λ c, filenameChar c = true) name.
Proof.
  intros name. subst name. rewrite sanitizeFilename_eq.
  destruct (substring0 maxLength (slug title)) as [|c s] eqn:Hs.
  - split; [done|]. vm_compute. repeat constructor.
  - rewrite String.list_ascii_of_string_of_list_ascii. split; [done|].
    rewrite <- Hs. unfold substring0. apply Forall_take, slug_chars.
Qed.

Lemma length_list_ascii_of_string s :
  length (String.list_ascii_of_string s) = String.length s.
Proof. induction s; simpl; congruence. Qed.

(** X10: a sanitized file name is the fallback name or it is not empty
    and no longer than [maxLength]; with a bound of zero or less it is
    the fallback name, which is then longer than the bound. *)
Theorem sanitizeFilename_length (title : string) (maxLength : Z) :
  let name := sanitizeFilename title maxLength in
  (name = "research-report" ∨ (0 < Z.of_nat (String.length name) ≤ maxLength)%Z)
  ∧ ((maxLength ≤ 0)%Z → name = "research-report").
Proof.
  intros name. subst name. rewrite sanitizeFilename_eq. unfold substring0. split.
  - destruct (take _ _) as [|c s] eqn:Hs; [by left|right].
    rewrite <- length_list_ascii_of_string, String.list_ascii_of_string_of_list_ascii, <- Hs.
    split; [rewrite Hs; simpl; lia|].
    rewrite length_take. assert (Z.to_nat maxLength ≠ 0%nat); [|lia].
    intros H0. by rewrite H0 in Hs.
  - intros Hle. replace (Z.to_nat maxLength) with 0%nat by lia. done.
Qed.

Lemma replace_hyphenRuns_hyphens s :
  Forall (λ c, c = hyphen) s → replace_hyphenRuns s = match s with [] => [] | _ => [hyphen] end.
Proof.
  induction 1 as [|c rest -> Hrest IH]; [done|].
  rewrite replace_hyphenRuns_cons, IH. destruct Hrest as [|c' rest' -> _]; [done|].
  reflexivity.
Qed.

(** X11: a title without a letter or digit, the empty title among
    them, gives the fallback name. *)
Theorem sanitizeFilename_fallback (title : string) (maxLength : Z) :
  Forall (λ c, alphanumeric c = false) (String.list_ascii_of_string title) →
  sanitizeFilename title maxLength = "research-report".
Proof.
  intros Hnone. rewrite sanitizeFilename_eq. unfold slug.
  rewrite replace_hyphenRuns_hyphens.
  - unfold substring0. by destruct (String.list_ascii_of_string title), (Z.to_nat maxLength).
  - unfold toLowerCase, replace_nonAlphanumeric. rewrite List.map_map.
    apply Forall_forall. intros c [c0 [-> Hc0]]%list_elem_of_fmap.
    rewrite Forall_forall in Hnone. by rewrite (Hnone _ Hc0).
Qed.

Lemma hyphenPairFree_cons c s :
  hyphenPairFree (c :: s) =
    negb (bool_decide (c = hyphen) && bool_decide (head s = Some hyphen)) && hyphenPairFree s.
Proof.
  destruct s as [|c' s]; cbn [hyphenPairFree head].
  - rewrite (bool_decide_eq_false_2 (None = Some hyphen)) by done.
    by rewrite andb_false_r.
  - do 3 f_equal. apply bool_decide_ext. split; [congruence | by intros [= ?]].
Qed.

Lemma head_replace_hyphenRuns s : head (replace_hyphenRuns s) = head s.
Proof.
  induction s as [|c rest IH]; [done|]. rewrite replace_hyphenRuns_cons.
  destruct (bool_decide (c = hyphen)) eqn:Hc; simpl; [|done].
  destruct (bool_decide (head rest = Some hyphen)) eqn:Hr; simpl; [|done].
  apply bool_decide_eq_true in Hc as ->. apply bool_decide_eq_true in Hr.
  by rewrite IH.
Qed.

Lemma hyphenPairFree_replace_hyphenRuns s : hyphenPairFree (replace_hyphenRuns s) = true.
Proof.
  induction s as [|c rest IH]; [done|]. rewrite replace_hyphenRuns_cons.
  destruct (bool_decide (c = hyphen) && bool_decide (head rest = Some hyphen)) eqn:Hb;
    [done|].
  rewrite hyphenPairFree_cons, head_replace_hyphenRuns, Hb, IH. done.
Qed.

Lemma hyphenPairFree_tail c s : hyphenPairFree (c :: s) = true → hyphenPairFree s = true.
Proof. rewrite hyphenPairFree_cons. by intros [_ ?]%andb_true_iff. Qed.

Lemma head_remove_lastHyphen s :
  hyphenPairFree s = true → head s ≠ Some hyphen → head (remove_lastHyphen s) ≠ Some hyphen.
Proof.
  destruct s as [|c rest]; [done|]. rewrite remove_lastHyphen_cons. simpl.
  destruct rest; [|done]. intros _ Hc. rewrite bool_decide_eq_false_2; [done|].
  intros ->. done.
Qed.

Lemma head_remove_lastHyphen_inv s :
  head (remove_lastHyphen s) = Some hyphen → head s = Some hyphen.
Proof.
  destruct s as [|c rest]; [done|]. rewrite remove_lastHyphen_cons.
  destruct rest; [by case_bool_decide | done].
Qed.

Lemma hyphenPairFree_remove_lastHyphen s :
  hyphenPairFree s = true → hyphenPairFree (remove_lastHyphen s) = true.
Proof.
  induction s as [|c rest IH]; [done|]. intros Hs.
  rewrite remove_lastHyphen_cons. destruct rest as [|c' rest'].
  - by case_bool_decide.
  - rewrite hyphenPairFree_cons in Hs |- *. apply andb_true_iff in Hs as [Hc Hrest].
    rewrite IH by done. rewrite andb_true_r.
    destruct (bool_decide (c = hyphen)) eqn:Hch; [|done]. cbn [andb] in *.
    apply negb_true_iff, bool_decide_eq_false.
    apply negb_true_iff, bool_decide_eq_false in Hc.
    intros Hh. apply Hc. by apply head_remove_lastHyphen_inv.
Qed.

Lemma last_remove_lastHyphen s :
  hyphenPairFree s = true → last (remove_lastHyphen s) ≠ Some hyphen.
Proof.
  induction s as [|c rest IH]; [done|]. intros Hs.
  rewrite remove_lastHyphen_cons. destruct rest as [|c' rest'].
  - case_bool_decide; [done|]. simpl. by intros [= ?].
  - pose proof (hyphenPairFree_tail _ _ Hs) as Hrest. specialize (IH Hrest).
    destruct (remove_lastHyphen (c' :: rest')) as [|d ds] eqn:Hd; [|done].
    (* the rest was a single hyphen *)
    simpl. intros [= ->].
    rewrite remove_lastHyphen_cons in Hd. destruct rest'; [|done].
    case_bool_decide as Hc'; [|done]. subst c'.
    by vm_compute in Hs.
Qed.

Lemma slug_shape title :
  head (slug title) ≠ Some hyphen
  ∧ last (slug title) ≠ Some hyphen
  ∧ hyphenPairFree (slug title) = true.
Proof.
  unfold slug.
  set (s := replace_hyphenRuns _).
  assert (Hs : hyphenPairFree s = true) by apply hyphenPairFree_replace_hyphenRuns.
  clearbody s. unfold replace_edgeHyphens. destruct s as [|c rest]; [done|].
  pose proof (hyphenPairFree_tail _ _ Hs) as Hrest.
  case_bool_decide as Hc.
  - subst c. split; [|split].
    + apply head_remove_lastHyphen; [done|]. intros Hh.
      rewrite hyphenPairFree_cons, Hh in Hs.
      rewrite !bool_decide_eq_true_2 in Hs by done. done.
    + by apply last_remove_lastHyphen.
    + by apply hyphenPairFree_remove_lastHyphen.
  - split; [|split].
    + apply head_remove_lastHyphen; [done|]. simpl. by intros [= ?].
    + by apply last_remove_lastHyphen.
    + by apply hyphenPairFree_remove_lastHyphen.
Qed.

Lemma hyphenPairFree_take n s : hyphenPairFree s = true → hyphenPairFree (take n s) = true.
Proof.
  revert n. induction s as [|c rest IH]; intros n Hs; [by destruct n|].
  destruct n as [|n]; [done|]. simpl take.
  rewrite hyphenPairFree_cons in Hs |- *. apply andb_true_iff in Hs as [Hc Hrest].
  rewrite IH by done. rewrite andb_true_r.
  destruct (bool_decide (c = hyphen)); [|done]. simpl in *.
  apply negb_true_iff, bool_decide_eq_false. apply negb_true_iff in Hc.
  apply bool_decide_eq_false in Hc. intros Hh. apply Hc.
  destruct rest, n; done.
Qed.

(** X12: a sanitized file name does not start with a hyphen and has no
    two hyphens in a row; it ends with a hyphen only when the cut at
    [maxLength] fell right after one. *)
Theorem sanitizeFilename_hyphens (title : string) (maxLength : Z) :
  let name := String.list_ascii_of_string (sanitizeFilename title maxLength) in
  head name ≠ Some hyphen
  ∧ hyphenPairFree name = true
  ∧ (last name = Some hyphen → Z.of_nat (length name) = maxLength).
Proof.
  intros name. subst name. rewrite sanitizeFilename_eq.
  destruct (slug_shape title) as (Hhead & Hlast & Hfree).
  unfold substring0.
  destruct (take (Z.to_nat maxLength) (slug title)) as [|c s] eqn:Hs.
  - vm_compute. split; [by intros [= ?]|]. split; [done|]. by intros [= ?].
  - rewrite String.list_ascii_of_string_of_list_ascii, <- Hs.
    split; [|split].
    + destruct (slug title), (Z.to_nat maxLength); done.
    + by apply hyphenPairFree_take.
    + intros Hl. destruct (decide (length (slug title) ≤ Z.to_nat maxLength)%nat) as [Hle|Hgt].
      * rewrite take_ge in Hl by done. done.
      * rewrite length_take. assert (Z.to_nat maxLength ≠ 0%nat); [|lia].
        intros H0. by rewrite H0 in Hs.
Qed.

End SanitizeFilename.

Section SanitizeFilenameMore.

Ltac each_unit c := destruct c as [[] [] [] [] [] [] [] []].

Lemma filenameChar_fixed c :
  filenameChar c = true → toLowerCase_unit (if alphanumeric c then c else hyphen) = c.
Proof. each_unit c; (reflexivity || discriminate). Qed.

Lemma replace_hyphenRuns_fixed s : hyphenPairFree s = true → replace_hyphenRuns s = s.
Proof.
  induction s as [|c rest IH]; [done|].
  rewrite hyphenPairFree_cons, replace_hyphenRuns_cons.
  intros [Hc Hrest]%andb_true_iff. apply negb_true_iff in Hc. rewrite Hc, IH; done.
Qed.

Lemma remove_lastHyphen_fixed s : last s ≠ Some hyphen → remove_lastHyphen s = s.
Proof.
  induction s as [|c rest IH]; [done|]. rewrite remove_lastHyphen_cons.
  destruct rest as [|c' rest'].
  - intros Hc. rewrite bool_decide_eq_false_2; [done|]. by intros ->.
  - intros Hl. by rewrite IH.
Qed.

(** X13: a name that is already clean (not empty, of the characters
    [a-z], [0-9] and [-], without a hyphen at either end or two in a
    row, no longer than [maxLength]) is returned as it is. *)
Theorem sanitizeFilename_keeps_clean_names (name : string) (maxLength : Z) :
  let s := String.list_ascii_of_string name in
  s ≠ [] →
  Forall (λ c, filenameChar c = true) s →
  head s ≠ Some hyphen → last s ≠ Some hyphen → hyphenPairFree s = true →
  (Z.of_nat (String.length name) ≤ maxLength)%Z →
  sanitizeFilename name maxLength = name.
Proof.
  intros s Hne Hchars Hhead Hlast Hfree Hlen.
  rewrite sanitizeFilename_eq. unfold slug. fold s.
  assert (Hs1 : toLowerCase (replace_nonAlphanumeric s) = s).
  { unfold toLowerCase, replace_nonAlphanumeric. rewrite List.map_map.
    clear -Hchars. induction Hchars as [|c rest Hc _ IH]; [done|].
    simpl. by rewrite IH, filenameChar_fixed. }
  rewrite Hs1, replace_hyphenRuns_fixed by done.
  assert (Hs2 : replace_edgeHyphens s = s).
  { unfold replace_edgeHyphens. destruct s as [|c rest] eqn:Hs; [done|].
    rewrite bool_decide_eq_false_2; [by apply remove_lastHyphen_fixed|].
    intros ->. done. }
  rewrite Hs2. unfold substring0. rewrite take_ge.
  - destruct s eqn:Hs; [done|]. rewrite <- Hs. apply String.string_of_list_ascii_of_string.
  - subst s. rewrite length_list_ascii_of_string. lia.
Qed.

Lemma alphanumeric_toLowerCase_unit c :
  alphanumeric (toLowerCase_unit c) = alphanumeric c.
Proof. each_unit c; reflexivity. Qed.

Lemma filter_alphanumeric_replace s :
  List.filter alphanumeric (replace_nonAlphanumeric s) = List.filter alphanumeric s.
Proof.
  induction s as [|c rest IH]; [done|]. simpl.
  destruct (alphanumeric c) eqn:Hc; rewrite ?Hc; simpl; by rewrite IH.
Qed.

Lemma filter_alphanumeric_toLowerCase s :
  List.filter alphanumeric (toLowerCase s) = toLowerCase (List.filter alphanumeric s).
Proof.
  induction s as [|c rest IH]; [done|]. simpl.
  rewrite alphanumeric_toLowerCase_unit.
  destruct (alphanumeric c); simpl; by rewrite IH.
Qed.

Lemma filter_alphanumeric_hyphen c rest :
  c = hyphen → List.filter alphanumeric (c :: rest) = List.filter alphanumeric rest.
Proof. by intros ->. Qed.

Lemma filter_alphanumeric_hyphenRuns s :
  List.filter alphanumeric (replace_hyphenRuns s) = List.filter alphanumeric s.
Proof.
  induction s as [|c rest IH]; [done|]. rewrite replace_hyphenRuns_cons.
  destruct (bool_decide (c = hyphen)) eqn:Hc; simpl.
  - apply bool_decide_eq_true in Hc as ->.
    destruct (bool_decide _); simpl; by rewrite IH.
  - by rewrite IH.
Qed.

Lemma filter_alphanumeric_lastHyphen s :
  List.filter alphanumeric (remove_lastHyphen s) = List.filter alphanumeric s.
Proof.
  induction s as [|c rest IH]; [done|]. rewrite remove_lastHyphen_cons.
  destruct rest as [|c' rest'].
  - case_bool_decide as Hc; [by subst c | done].
  - cbn [List.filter] in *. by rewrite IH.
Qed.

Lemma filter_alphanumeric_edgeHyphens s :
  List.filter alphanumeric (replace_edgeHyphens s) = List.filter alphanumeric s.
Proof.
  unfold replace_edgeHyphens. destruct s as [|c rest]; [done|].
  case_bool_decide as Hc; rewrite filter_alphanumeric_lastHyphen; [by subst c | done].
Qed.

Lemma filter_alphanumeric_slug title :
  List.filter alphanumeric (slug title)
  = toLowerCase (List.filter alphanumeric (String.list_ascii_of_string title)).
Proof.
  unfold slug.
  by rewrite filter_alphanumeric_edgeHyphens, filter_alphanumeric_hyphenRuns,
    filter_alphanumeric_toLowerCase, filter_alphanumeric_replace.
Qed.

Lemma length_replace_hyphenRuns s : (length (replace_hyphenRuns s) ≤ length s)%nat.
Proof.
  induction s as [|c rest IH]; [done|]. rewrite replace_hyphenRuns_cons.
  destruct (_ && _); simpl; lia.
Qed.

Lemma length_remove_lastHyphen s : (length (remove_lastHyphen s) ≤ length s)%nat.
Proof.
  induction s as [|c rest IH]; [done|]. rewrite remove_lastHyphen_cons.
  destruct rest; [case_bool_decide; simpl; lia|]. simpl in *. lia.
Qed.

Lemma length_slug title : (length (slug title) ≤ String.length title)%nat.
Proof.
  unfold slug. rewrite <- length_list_ascii_of_string.
  set (s := String.list_ascii_of_string title).
  transitivity (length (replace_hyphenRuns (toLowerCase (replace_nonAlphanumeric s)))).
  - unfold replace_edgeHyphens. destruct (replace_hyphenRuns _) as [|c rest]; [done|].
    case_bool_decide.
    + etransitivity; [apply length_remove_lastHyphen|]. simpl. lia.
    + apply length_remove_lastHyphen.
  - etransitivity; [apply length_replace_hyphenRuns|].
    unfold toLowerCase, replace_nonAlphanumeric. by rewrite !length_map.
Qed.

(** X14: for a title with at least one letter or digit and no longer
    than [maxLength], the letters and digits of the sanitized name are
    those of the title, in order and in lower case: only other
    characters are lost. *)
Theorem sanitizeFilename_keeps_alphanumerics (title : string) (maxLength : Z) :
  Exists (λ c, alphanumeric c = true) (String.list_ascii_of_string title) →
  (Z.of_nat (String.length title) ≤ maxLength)%Z →
  List.filter alphanumeric (String.list_ascii_of_string (sanitizeFilename title maxLength))
  = toLowerCase (List.filter alphanumeric (String.list_ascii_of_string title)).
Proof.
  intros Hsome Hlen. rewrite sanitizeFilename_eq. unfold substring0.
  rewrite take_ge by (pose proof (length_slug title); lia).
  pose proof (filter_alphanumeric_slug title) as Hslug.
  destruct (slug title) as [|c s] eqn:Hs.
  - exfalso. apply Exists_exists in Hsome as (c & Hin & Hc).
    assert (Hin' : c ∈ List.filter alphanumeric (String.list_ascii_of_string title)).
    { apply list_elem_of_In, filter_In. split; [by apply list_elem_of_In|done]. }
    destruct (List.filter alphanumeric (String.list_ascii_of_string title)); [|done].
    by apply elem_of_nil in Hin'.
  - by rewrite String.list_ascii_of_string_of_list_ascii.
Qed.

End SanitizeFilenameMore.

Lemma sanitizeFilename_fallback_witness :
  sanitizeFilename "?! ..." 50 = "research-report".
Proof. apply sanitizeFilename_fallback. vm_compute. repeat constructor. Defined.

Lemma sanitizeFilename_keeps_clean_names_witness :
  sanitizeFilename "ai-safety-2024" 50 = "ai-safety-2024".
Proof.
  apply sanitizeFilename_keeps_clean_names;
    [done | vm_compute; repeat constructor | by intros [= ?] | by intros [= ?]
    | reflexivity | vm_compute; discriminate ].
Defined.

Lemma sanitizeFilename_keeps_alphanumerics_witness :
  List.filter alphanumeric (String.list_ascii_of_string (sanitizeFilename "Q3: AI & Law" 50))
  = toLowerCase (List.filter alphanumeric (String.list_ascii_of_string "Q3: AI & Law")).
Proof.
  apply sanitizeFilename_keeps_alphanumerics;
    [apply Exists_cons_hd; reflexivity | vm_compute; discriminate].
Defined.

Section OrchestratorMore.
Context (env : Env).

Lemma bind_Throw {A B} (m : M A) (f : A → M B) w e w1 :
  m w = (Throw e, w1) → bind m f w = (Throw e, w1).
Proof. intros H. unfold bind. by rewrite H. Qed.

Lemma find_none_intro {A} (P : A → bool) (l : list A) :
  (∀ x, x ∈ l → P x = false) → List.find P l = None.
Proof.
  induction l as [|x l IH]; [done|]. intros Hl. simpl.
  rewrite (Hl x) by apply list_elem_of_here.
  apply IH. intros y Hy. by apply Hl, list_elem_of_further.
Qed.

Lemma researchSession_findFirst_run id userId w :
  researchSession_findFirst env id userId w =
    match storageFault env (ticks w KStorage) with
    | Some message => (Throw message, bump KStorage w)
    | None =>
        (Ok (match researchSession (db w) !! id with
             | Some row =>
                 if bool_decide (ResearchSession.userId row = userId)
                 then Some (row, refinements_of (db w) id) else None
             | None => None
             end), bump KStorage w)
    end.
Proof.
  unfold researchSession_findFirst, prisma. destruct (storageFault env _); [done|].
  by destruct w as [[] ? ?].
Qed.

(** X15: [submitRefinementAnswer] for a session that does not exist or
    belongs to another user throws and leaves the store and the log as
    they were; when the storage call itself went through, the message
    is the access-denied one. *)
Theorem submitRefinementAnswer_rejects_strangers (sessionId userId : string)
    (questionIndex : Z) (answer : string) (w : World) :
  (∀ row, researchSession (db w) !! sessionId = Some row →
          ResearchSession.userId row ≠ userId) →
  let run := submitRefinementAnswer env sessionId userId questionIndex answer w in
  ∃ message,
    run.1 = Throw message
    ∧ db run.2 = db w
    ∧ log run.2 = log w
    ∧ (storageFault env (ticks w KStorage) = None →
       message = "Session not found or access denied").
Proof.
  intros Hnot run.
  assert (Hrun : ∃ message,
             run = (Throw message, bump KStorage w)
             ∧ (storageFault env (ticks w KStorage) = None →
                message = "Session not found or access denied")).
  { subst run. unfold submitRefinementAnswer.
    pose proof (researchSession_findFirst_run sessionId userId w) as Hfind.
    destruct (storageFault env (ticks w KStorage)) as [fault|].
    - exists fault. split; [|done]. by apply bind_Throw.
    - eexists. split; [|done]. erewrite bind_Ok by exact Hfind.
      destruct (researchSession (db w) !! sessionId) as [row|] eqn:Hrow; [|done].
      by rewrite bool_decide_eq_false_2 by (by apply Hnot). }
  destruct Hrun as (message & -> & Hmessage). exists message. done.
Qed.

(** X16: [submitRefinementAnswer] for a question index the session
    does not have throws and leaves the store and the log as they were;
    no answer is recorded. *)
Theorem submitRefinementAnswer_unknown_question (sessionId userId : string)
    (questionIndex : Z) (answer : string) (w : World) :
  (∀ r, r ∈ refinements_of (db w) sessionId →
        Refinement.questionIndex r ≠ questionIndex) →
  let run := submitRefinementAnswer env sessionId userId questionIndex answer w in
  ∃ message,
    run.1 = Throw message
    ∧ db run.2 = db w
    ∧ log run.2 = log w
    ∧ (storageFault env (ticks w KStorage) = None →
       message = "Session not found or access denied"
       ∨ message = "Refinement question not found").
Proof.
  intros Hnone run.
  assert (Hrun : ∃ message,
             run = (Throw message, bump KStorage w)
             ∧ (storageFault env (ticks w KStorage) = None →
                message = "Session not found or access denied"
                ∨ message = "Refinement question not found")).
  { subst run. unfold submitRefinementAnswer.
    pose proof (researchSession_findFirst_run sessionId userId w) as Hfind.
    assert (Hq : List.find (λ r, bool_decide (Refinement.questionIndex r = questionIndex))
                   (refinements_of (db w) sessionId) = None).
    { apply find_none_intro. intros r Hin. apply bool_decide_eq_false.
      by apply Hnone. }
    destruct (storageFault env (ticks w KStorage)) as [fault|].
    - exists fault. split; [|done]. by apply bind_Throw.
    - erewrite bind_Ok by exact Hfind.
      destruct (researchSession (db w) !! sessionId) as [row|] eqn:Hrow;
        [|eexists; split; [done | by left]].
      case_bool_decide; [|eexists; split; [done | by left]].
      rewrite Hq. eexists; split; [done | by right]. }
  destruct Hrun as (message & -> & Hmessage). exists message. done.
Qed.

(** The run of [submitRefinementAnswer] up to the reading back of the
    session, in a healthy store. *)
Lemma submit_not_last_answer sessionId userId questionIndex answer w old target :
  (∀ k, storageFault env k = None) →
  researchSession (db w) !! sessionId = Some old →
  ResearchSession.userId old = userId →
  List.find (λ r, bool_decide (Refinement.questionIndex r = questionIndex))
            (refinements_of (db w) sessionId) = Some target →
  let updated :=
    refinements_of
      (with_refinement (db w)
         (answerRecorded target answer (now env (ticks w KClock)) (refinement (db w))))
      sessionId in
  forallb (λ r, truthy (Refinement.answer r)) updated = false →
  let run := submitRefinementAnswer env sessionId userId questionIndex answer w in
  let row := ResearchSession.set_status REFINEMENTS_IN_PROGRESS old in
  run.1 = Ok tt
  ∧ researchSession (db run.2) = <[sessionId := row]> (researchSession (db w))
  ∧ refinement (db run.2)
    = answerRecorded target answer (now env (ticks w KClock)) (refinement (db w))
  ∧ sessionWrites (log run.2) = row :: sessionWrites (log w)
  ∧ ticks run.2 KOpenAI = ticks w KOpenAI
  ∧ ticks run.2 KGemini = ticks w KGemini.
Proof.
  intros Hh Hold Huser Hfind updated Hall run row. subst run.
  unfold submitRefinementAnswer.
  erewrite bind_Ok; last first.
  { unfold researchSession_findFirst, prisma. rewrite Hh. simpl.
    rewrite Hold, bool_decide_eq_true_2 by done. reflexivity. }
  cbv beta iota. rewrite Hfind.
  rewrite (bind_Ok _ _ _ _ _ (eq_refl : new_Date env (bump KStorage w) = _)).
  erewrite bind_Ok; last first.
  { unfold refinement_update, prisma. rewrite Hh. simpl.
    rewrite (find_in_table _ _ _ _ Hfind). reflexivity. }
  erewrite bind_Ok; last first.
  { unfold researchSession_findUnique_refinements, prisma. rewrite Hh. simpl.
    rewrite Hold. reflexivity. }
  cbv beta iota.
  change (refinements_of _ sessionId) with updated.
  rewrite Hall. cbn [andb]. cbv iota.
  erewrite bind_Ok; last first.
  { apply researchSession_update_healthy; [apply Hh | exact Hold]. }
  done.
Qed.

(** X17: with a healthy store, an answer to a question of one's own
    session, while another question of the session is unanswered, is
    recorded; the session is written with status
    REFINEMENTS_IN_PROGRESS, whatever its status was; this is the only
    session write, and no provider is called. *)
Theorem submitRefinementAnswer_awaits_the_rest (sessionId userId : string)
    (questionIndex : Z) (answer : string) (w : World)
    (old : ResearchSession.t) (target other : Refinement.t) :
  (∀ k, storageFault env k = None) →
  researchSession (db w) !! sessionId = Some old →
  ResearchSession.userId old = userId →
  List.find (λ r, bool_decide (Refinement.questionIndex r = questionIndex))
            (refinements_of (db w) sessionId) = Some target →
  other ∈ refinements_of (db w) sessionId →
  Refinement.id other ≠ Refinement.id target →
  truthy (Refinement.answer other) = false →
  let run := submitRefinementAnswer env sessionId userId questionIndex answer w in
  let row := ResearchSession.set_status REFINEMENTS_IN_PROGRESS old in
  run.1 = Ok tt
  ∧ researchSession (db run.2) = <[sessionId := row]> (researchSession (db w))
  ∧ refinement (db run.2)
    = answerRecorded target answer (now env (ticks w KClock)) (refinement (db w))
  ∧ sessionWrites (log run.2) = row :: sessionWrites (log w)
  ∧ ticks run.2 KOpenAI = ticks w KOpenAI
  ∧ ticks run.2 KGemini = ticks w KGemini.
Proof.
  intros Hh Hold Huser Hfind Hother Hne Hno.
  apply submit_not_last_answer; try done.
  apply not_true_iff_false. intros Hall. rewrite forallb_forall in Hall.
  assert (Hin : In other
                  (refinements_of
                     (with_refinement (db w)
                        (answerRecorded target answer (now env (ticks w KClock))
                           (refinement (db w)))) sessionId)).
  { unfold refinements_of in *. simpl.
    apply list_elem_of_In in Hother. apply filter_In in Hother as [Hin Hs].
    apply filter_In. split; [|done]. unfold answerRecorded.
    apply in_map_iff. exists other.
    by rewrite bool_decide_eq_false_2. }
  specialize (Hall _ Hin). congruence.
Qed.

(** X18: with a healthy store, the empty answer never completes the
    refinements: the session is written with status
    REFINEMENTS_IN_PROGRESS and no provider is called, even when every
    other question is answered. *)
Theorem submitRefinementAnswer_empty_answer (sessionId userId : string)
    (questionIndex : Z) (w : World) (old : ResearchSession.t) (target : Refinement.t) :
  (∀ k, storageFault env k = None) →
  researchSession (db w) !! sessionId = Some old →
  ResearchSession.userId old = userId →
  List.find (λ r, bool_decide (Refinement.questionIndex r = questionIndex))
            (refinements_of (db w) sessionId) = Some target →
  let run := submitRefinementAnswer env sessionId userId questionIndex "" w in
  let row := ResearchSession.set_status REFINEMENTS_IN_PROGRESS old in
  run.1 = Ok tt
  ∧ researchSession (db run.2) = <[sessionId := row]> (researchSession (db w))
  ∧ sessionWrites (log run.2) = row :: sessionWrites (log w)
  ∧ ticks run.2 KOpenAI = ticks w KOpenAI
  ∧ ticks run.2 KGemini = ticks w KGemini.
Proof.
  intros Hh Hold Huser Hfind.
  destruct (submit_not_last_answer sessionId userId questionIndex "" w old target)
    as (H1 & H2 & _ & H3 & H4 & H5); try done.
  apply not_true_iff_false. intros Hall. rewrite forallb_forall in Hall.
  apply find_some in Hfind as [Hin _].
  unfold refinements_of in *. apply filter_In in Hin as [Hin Hs].
  specialize (Hall (Refinement.set_answer "" (now env (ticks w KClock)) target)).
  simpl in Hall. discriminate Hall.
  apply filter_In. split; [|done]. unfold answerRecorded. simpl.
  apply in_map_iff. exists target. by rewrite bool_decide_eq_true_2.
Qed.

End OrchestratorMore.

#[global] Instance identity_kept_preorder : PreOrder identity_kept.
Proof.
  split.
  - intros w sessionId row Hrow. eauto 10.
  - intros w1 w2 w3 H12 H23 sessionId row Hrow.
    destruct (H12 _ _ Hrow) as (row2 & Hrow2 & ? & ? & ? & ? & ?).
    destruct (H23 _ _ Hrow2) as (row3 & Hrow3 & ? & ? & ? & ? & ?).
    exists row3. repeat split; congruence.
Qed.

Lemma quiet_identity_kept w w' : quiet w w' → identity_kept w w'.
Proof. intros (Hs & _) sessionId row Hrow. rewrite Hs. eauto 10. Qed.

Section Identity.
Context (env : Env).

Lemma identity_kept_write w w' id (old new : ResearchSession.t) :
  researchSession (db w) !! id = Some old →
  researchSession (db w') = <[id := new]> (researchSession (db w)) →
  ResearchSession.id new = ResearchSession.id old
  ∧ ResearchSession.userId new = ResearchSession.userId old
  ∧ ResearchSession.title new = ResearchSession.title old
  ∧ ResearchSession.initialPrompt new = ResearchSession.initialPrompt old
  ∧ ResearchSession.createdAt new = ResearchSession.createdAt old →
  identity_kept w w'.
Proof.
  intros Hold Hdb Hnew sessionId row Hrow. rewrite Hdb.
  destruct (decide (sessionId = id)) as [->|Hne].
  - rewrite lookup_insert_eq. rewrite Hold in Hrow. injection Hrow as <-. eauto.
  - rewrite lookup_insert_ne by done. eauto 10.
Qed.

Lemma identity_kept_same w w' :
  researchSession (db w') = researchSession (db w) → identity_kept w w'.
Proof. intros Hs sessionId row Hrow. rewrite Hs. eauto 10. Qed.

Lemma identity_kept_update id data :
  keeps_identity data → preserves identity_kept (researchSession_update env id data).
Proof.
  intros Hdata w.
  destruct (researchSession_update_spec env id data w) as (_ & _ & _ & _ & Hr).
  destruct (researchSession_update env id data w).1 as [row|e].
  - destruct Hr as (old & Hold & _ & Hdb & _).
    by apply (identity_kept_write w _ id old (data old)).
  - destruct Hr as [Hdb _]. by apply identity_kept_same.
Qed.

Lemma identity_kept_update_user id data :
  keeps_identity data → preserves identity_kept (researchSession_update_user env id data).
Proof.
  intros Hdata w.
  destruct (researchSession_update_user_spec env id data w) as (_ & _ & _ & _ & Hr).
  destruct (researchSession_update_user env id data w).1 as [[row u]|e].
  - destruct Hr as (old & Hold & _ & _ & Hdb & _).
    by apply (identity_kept_write w _ id old (data old)).
  - destruct Hr as [Hdb _]. by apply identity_kept_same.
Qed.

Lemma identity_kept_create userId title initialPrompt status :
  preserves identity_kept (researchSession_create env userId title initialPrompt status).
Proof.
  intros w.
  destruct (researchSession_create_spec env userId title initialPrompt status w)
    as (_ & _ & _ & _ & Hr).
  destruct (researchSession_create env userId title initialPrompt status w).1 as [row|e].
  - destruct Hr as (_ & Hfresh & Hdb & _). intros sessionId old Hold. rewrite Hdb.
    rewrite lookup_insert_ne by congruence. eauto 10.
  - destruct Hr as [Hdb _]. by apply identity_kept_same.
Qed.

Lemma identity_kept_prisma_other {A} (op : Db → Result A * Db) :
  (∀ d, researchSession (op d).2 = researchSession d) →
  preserves identity_kept (prisma env op).
Proof.
  intros Hop w. destruct (prisma_spec env op w) as (_ & _ & _ & Hdb).
  apply identity_kept_same.
  destruct (storageFault env _); destruct Hdb as [_ ->]; [done | apply Hop].
Qed.

Ltac keeps_identity := intros []; simpl; auto 10.

Ltac identity_kept_step :=
  first
    [ apply identity_kept_update; keeps_identity
    | apply identity_kept_update_user; keeps_identity
    | apply identity_kept_create
    | apply (preserves_weaken quiet); [apply quiet_identity_kept|];
      first [ apply quiet_canMakeRequest | apply quiet_recordRequest
            | apply quiet_new_Date | apply quiet_new_cuid | apply quiet_new_cuids
            | apply quiet_openaiClient
            | apply quiet_geminiClient | apply quiet_pdfGenerator
            | apply quiet_emailService ]
    | apply identity_kept_prisma_other; intros d; simpl;
      repeat match goal with |- context [match ?x with _ => _ end] => destruct x end;
      done
    | preserves_step ].

Lemma identity_kept_runResearch sessionId prompt :
  preserves identity_kept (runResearch env sessionId prompt).
Proof.
  unfold runResearch, researchBoth, deliverReport, researchSession_findUnique,
    canMakeOpenAIRequest, canMakeGeminiRequest, recordOpenAIRequest, recordGeminiRequest.
  repeat identity_kept_step.
Qed.

(** X19: [startSession], [submitRefinementAnswer] and [runResearch]
    never delete a stored session and never change its id, its owner,
    its title, its initial prompt or its creation date, whatever the
    store and the providers do. *)
Theorem orchestrator_keeps_identity :
  (∀ userId title initialPrompt,
     preserves identity_kept (startSession env userId title initialPrompt))
  ∧ (∀ sessionId userId questionIndex answer,
       preserves identity_kept
         (submitRefinementAnswer env sessionId userId questionIndex answer))
  ∧ (∀ sessionId prompt, preserves identity_kept (runResearch env sessionId prompt)).
Proof.
  split; [|split].
  - intros. unfold startSession, refinement_createMany, canMakeOpenAIRequest,
      recordOpenAIRequest.
    repeat first [ apply identity_kept_runResearch | identity_kept_step ].
  - intros. unfold submitRefinementAnswer, researchSession_findFirst, refinement_update,
      researchSession_findUnique_refinements.
    repeat first [ apply identity_kept_runResearch | identity_kept_step ].
  - intros. apply identity_kept_runResearch.
Qed.

(** The handler of [runResearch] and [startSession]: the failure is
    stored, then thrown again. *)
Lemma try_catch_markFailed {A} (body : M A) (h : string → M A) id row1 w1 e :
  (∀ k, storageFault env k = None) →
  (∀ e w, h e w = bind (researchSession_update env id (markFailed e)) (λ _, throw e) w) →
  preserves identity_kept body →
  researchSession (db w1) !! id = Some row1 →
  (try_catch body h w1).1 = Throw e →
  ∃ old,
    researchSession (db (try_catch body h w1).2) !! id = Some (markFailed e old)
    ∧ ResearchSession.userId old = ResearchSession.userId row1.
Proof.
  intros Hh Hhandler Hbody Hrow1. specialize (Hbody w1). unfold try_catch.
  destruct (body w1) as [[a|e'] w2]; [done|]. simpl in Hbody.
  destruct (Hbody _ _ Hrow1) as (old & Hold & _ & Huser & _).
  rewrite Hhandler.
  erewrite bind_Ok by (by apply researchSession_update_healthy).
  simpl. intros [= <-]. exists old. split; [apply lookup_insert_eq | done].
Qed.

(** X20: with a healthy store, when [runResearch] throws for a stored
    session, the session is stored FAILED with the thrown message as
    its error message; a failure after COMPLETED was written is no
    exception. *)
Theorem runResearch_failure_is_stored (sessionId prompt : string) (w : World)
    (e : string) :
  (∀ k, storageFault env k = None) →
  is_Some (researchSession (db w) !! sessionId) →
  (runResearch env sessionId prompt w).1 = Throw e →
  ∃ row,
    researchSession (db (runResearch env sessionId prompt w).2) !! sessionId = Some row
    ∧ ResearchSession.status row = FAILED
    ∧ ResearchSession.errorMessage row = Some e.
Proof.
  intros Hh [old Hold]. unfold runResearch.
  erewrite bind_Ok by (by apply researchSession_update_healthy).
  match goal with
  | |- context [try_catch ?body ?h ?w1] =>
      intros Hthrow;
      destruct (try_catch_markFailed body h sessionId
                  (ResearchSession.set_status RUNNING_RESEARCH old) w1 e Hh
                  (λ _ _, eq_refl)) as (old2 & Hrow & _);
      [ | simpl; apply lookup_insert_eq | exact Hthrow | by eauto ]
  end.
  unfold researchBoth, deliverReport, researchSession_findUnique,
    canMakeOpenAIRequest, canMakeGeminiRequest, recordOpenAIRequest,
    recordGeminiRequest.
  repeat identity_kept_step.
Qed.

Lemma researchSession_create_healthy userId title initialPrompt status w :
  storageFault env (ticks w KStorage) = None →
  researchSession (db w) !! cuid env (ticks w KId) = None →
  let row := ResearchSession.mk (cuid env (ticks w KId)) userId title initialPrompt
               None status None None None None None None (now env (ticks w KClock)) in
  ∃ w', researchSession_create env userId title initialPrompt status w = (Ok row, w')
        ∧ researchSession (db w') !! cuid env (ticks w KId) = Some row.
Proof.
  intros Hf Hfresh row. unfold researchSession_create, bind, prisma, emit, ret,
    new_cuid, new_Date. simpl. rewrite Hf. simpl. rewrite Hfresh.
  eexists. split; [done|]. simpl. apply lookup_insert_eq.
Qed.

Lemma bind_const_run {A B} (m : M A) (b : B) w e :
  (bind m (λ _, ret b) w).1 = Throw e →
  (m w).1 = Throw e ∧ (bind m (λ _, ret b) w).2 = (m w).2.
Proof. unfold bind, ret. destruct (m w) as [[a|e'] w1]; simpl; [done|]. intros [= ->]. done. Qed.

(** X21: with a healthy store and a fresh identifier, when
    [startSession] throws, the session it created is stored FAILED
    with the thrown message as its error message. *)
Theorem startSession_failure_is_stored (userId title initialPrompt : string)
    (w : World) (e : string) :
  (∀ k, storageFault env k = None) →
  researchSession (db w) !! cuid env (ticks w KId) = None →
  (startSession env userId title initialPrompt w).1 = Throw e →
  ∃ row,
    researchSession (db (startSession env userId title initialPrompt w).2)
      !! cuid env (ticks w KId) = Some row
    ∧ ResearchSession.userId row = userId
    ∧ ResearchSession.status row = FAILED
    ∧ ResearchSession.errorMessage row = Some e.
Proof.
  intros Hh Hfresh. unfold startSession.
  destruct (researchSession_create_healthy userId title initialPrompt CREATED w
              (Hh _) Hfresh) as (w1 & Hcreate & Hrow1).
  erewrite bind_Ok by exact Hcreate. cbv zeta.
  intros [Hthrow ->]%bind_const_run. revert Hthrow.
  match goal with
  | |- context [try_catch ?body ?h ?w1] =>
      intros Hthrow;
      assert (Hbody : preserves identity_kept body);
      [| destruct (try_catch_markFailed body h (cuid env (ticks w KId)) _ w1 e Hh
                     (λ _ _, eq_refl) Hbody Hrow1 Hthrow) as (old2 & Hrow & Huser);
         by eauto ]
  end.
  unfold refinement_createMany, canMakeOpenAIRequest, recordOpenAIRequest.
  repeat first [ apply identity_kept_runResearch | identity_kept_step ].
Qed.

End Identity.

Section StartSession.
Context (env : Env).
Hypothesis healthy : ∀ k, storageFault env k = None.

Lemma markFailed_idem message row :
  markFailed message (markFailed message row) = markFailed message row.
Proof. by destruct row. Qed.

Lemma researchSession_create_ticks userId title initialPrompt status w :
  ticks (researchSession_create env userId title initialPrompt status w).2 KId
  = S (ticks w KId).
Proof.
  unfold researchSession_create, bind, prisma, emit, ret, new_cuid, new_Date. simpl.
  destruct (storageFault env _); simpl; [done|].
  by destruct (researchSession (db w) !! cuid env (ticks w KId)).
Qed.

Lemma recordRequest_ticks p userId w k :
  k ≠ KStorage → k ≠ KClock → ticks (recordRequest env p userId w).2 k = ticks w k.
Proof.
  intros Hs Hc.
  unfold recordRequest, try_catch, bind, emit, apiUsage_upsert, bind, new_Date, prisma, ret.
  simpl. destruct (storageFault env _); simpl; by rewrite !bool_decide_eq_false_2.
Qed.

Lemma new_cuids_run n w :
  ∃ w', new_cuids env n w
        = (Ok ((λ i, cuid env (ticks w KId + i)) <$> seq 0 n), w')
        ∧ db w' = db w
        ∧ log w' = log w
        ∧ ∀ k, k ≠ KId → ticks w' k = ticks w k.
Proof.
  revert w. induction n as [|n IH]; intros w.
  - exists w. done.
  - destruct (IH (bump KId w)) as (w' & Hrun & Hdb & Hlog & Ht).
    exists w'. simpl new_cuids.
    rewrite (bind_Ok _ _ _ _ _ (eq_refl : new_cuid env w = _)).
    erewrite bind_Ok by exact Hrun. split; [|split; [done|split; [done|]]].
    + unfold ret. do 2 f_equal. simpl. rewrite Nat.add_0_r. f_equal.
      rewrite <- fmap_S_seq, <- list_fmap_compose. apply list_fmap_ext.
      intros _ i _. simpl. f_equal. lia.
    + intros k Hk. rewrite Ht by done. simpl. by rewrite bool_decide_eq_false_2.
Qed.

(** X22: with a healthy store and fresh identifiers, when the guard
    admits the call and the first provider answers with questions,
    [startSession] returns the session as created (status CREATED),
    while the stored session is AWAITING_REFINEMENTS with one
    unanswered refinement per question, in order; the second provider
    is not called and one request to the first is recorded. *)
Theorem startSession_asks_questions (userId title initialPrompt : string)
    (w w1 w2 : World) (session : ResearchSession.t) (admission : Admission)
    (response : DeepResearchResponse) (questions : list RefinementQuestion) :
  researchSession_create env userId title initialPrompt CREATED w = (Ok session, w1) →
  canMakeOpenAIRequest env userId w1 = (Ok admission, w2) →
  allowed admission = true →
  openaiClient_startDeepResearch env (ticks w KOpenAI) initialPrompt = Ok response →
  requiresRefinement response = true →
  refinementQuestions response = Some questions →
  let ids := (λ i, cuid env (S (ticks w KId) + i)) <$> seq 0 (length questions) in
  NoDup ids →
  Forall (λ id, id ∉ List.map Refinement.id (refinement (db w))) ids →
  ∃ w',
    startSession env userId title initialPrompt w = (Ok session, w')
    ∧ ResearchSession.status session = CREATED
    ∧ researchSession (db w') !! ResearchSession.id session
      = Some (ResearchSession.set_status AWAITING_REFINEMENTS session)
    ∧ refinement (db w')
      = refinement (db w)
        ++ zip_with (λ id q, Refinement.mk id (ResearchSession.id session)
                               (rq_question q) (rq_index q) None None)
                    ids questions
    ∧ ticks w' KGemini = ticks w KGemini
    ∧ records (log w') = (OpenAI, userId) :: records (log w).
Proof.
  intros Hcreate Hcan Hallowed Hresp Hreq Hqs ids Hnodup Hfresh.
  pose proof (researchSession_create_spec env userId title initialPrompt CREATED w) as Hs1.
  pose proof (researchSession_create_ticks userId title initialPrompt CREATED w) as Hid1.
  rewrite Hcreate in Hs1, Hid1. simpl in Hs1, Hid1.
  destruct Hs1 as (Ht1 & Hr1 & _ & _ & Hsession & _ & Hdb1 & Hlog1).
  pose proof (usage_frame_canMakeRequest env OpenAI userId w1) as Hf2.
  unfold canMakeOpenAIRequest in Hcan. rewrite Hcan in Hf2. simpl in Hf2.
  destruct Hf2 as (Hs2 & Hr2 & _ & Hlog2 & Ht2).
  destruct (recordRequest_frame env OpenAI userId (bump KOpenAI w2))
    as (w3 & Hrec & (Hs3 & Hr3 & _ & Hw3) & Hrec3 & _ & Hg3).
  pose proof (recordRequest_ticks OpenAI userId (bump KOpenAI w2) KId
                ltac:(done) ltac:(done)) as Hid3.
  rewrite Hrec in Hid3. simpl in Hs3, Hr3, Hw3, Hg3, Hrec3, Hid3.
  assert (Htick : ticks w2 KOpenAI = ticks w KOpenAI) by (rewrite Ht2, Ht1; done).
  destruct (new_cuids_run (length questions) w3) as (w4 & Hids & Hdb4 & Hlog4 & Ht4).
  assert (Hids' : (λ i, cuid env (ticks w3 KId + i)) <$> seq 0 (length questions) = ids).
  { subst ids. rewrite Hid3, Ht2, Hid1; done. }
  rewrite Hids' in Hids.
  set (sid := ResearchSession.id session) in *.
  set (rows := zip_with (λ id q, Refinement.mk id sid (rq_question q) (rq_index q) None None)
                        ids questions).
  set (w5 := set_db (with_refinement (db w4) (refinement (db w4) ++ rows))
                    (bump KStorage w4)).
  assert (Hmany : refinement_createMany env
                    (List.map (λ q, (sid, rq_question q, rq_index q)) questions) w3
                  = (Ok tt, w5)).
  { unfold refinement_createMany. rewrite length_map.
    erewrite bind_Ok by exact Hids. unfold prisma. rewrite healthy. simpl.
    rewrite Hdb4, Hr3, Hr2, Hr1. rewrite bool_decide_eq_true_2 by done.
    subst w5 rows. rewrite Hdb4, Hr3, Hr2, Hr1. simpl. do 4 f_equal.
    change (List.map ?f ?l) with (f <$> l).
    rewrite zip_with_fmap_r. apply zip_with_ext; done. }
  assert (Hrow5 : researchSession (db w5) !! sid = Some session).
  { subst w5. simpl. rewrite Hdb4, Hs3, Hs2, Hdb1. apply lookup_insert_eq. }
  eexists. split.
  - unfold startSession. rewrite (bind_Ok _ _ _ _ _ Hcreate).
    unfold bind at 1, try_catch.
    unfold bind at 1. unfold canMakeOpenAIRequest. rewrite Hcan. rewrite Hallowed.
    simpl. unfold bind at 1. simpl.
    unfold bind at 1. unfold openaiClient. rewrite Htick, Hresp.
    unfold bind at 1. unfold recordOpenAIRequest. rewrite Hrec.
    rewrite Hreq, Hqs. fold sid.
    erewrite bind_Ok by exact Hmany.
    erewrite bind_Ok by (apply researchSession_update_healthy; [apply healthy | exact Hrow5]).
    reflexivity.
  - split; [by subst session|]. simpl. split; [apply lookup_insert_eq|].
    split; [by rewrite Hdb4, Hr3, Hr2, Hr1|].
    split.
    + rewrite ?bool_decide_eq_false_2 by done. rewrite Ht4, Hg3, Ht2, Ht1; done.
    + by rewrite Hlog4, Hrec3, Hlog2, Hlog1.
Qed.

(** X23: with a healthy store, when the guard denies the call,
    [startSession] throws the guard's reason (or the generic message),
    the session is stored FAILED with that message, written twice, no
    provider is called and no request is recorded. *)
Theorem startSession_denied (userId title initialPrompt : string)
    (w w1 w2 : World) (session : ResearchSession.t) (admission : Admission) :
  researchSession_create env userId title initialPrompt CREATED w = (Ok session, w1) →
  canMakeOpenAIRequest env userId w1 = (Ok admission, w2) →
  allowed admission = false →
  let message := or_else (reason admission) "API usage limit reached" in
  let failed := markFailed message session in
  ∃ w',
    startSession env userId title initialPrompt w = (Throw message, w')
    ∧ researchSession (db w') !! ResearchSession.id session = Some failed
    ∧ sessionWrites (log w') = [failed; failed; session] ++ sessionWrites (log w)
    ∧ refinement (db w') = refinement (db w)
    ∧ ticks w' KOpenAI = ticks w KOpenAI
    ∧ ticks w' KGemini = ticks w KGemini
    ∧ records (log w') = records (log w).
Proof.
  intros Hcreate Hcan Hallowed message failed.
  pose proof (researchSession_create_spec env userId title initialPrompt CREATED w) as Hs1.
  rewrite Hcreate in Hs1. simpl in Hs1.
  destruct Hs1 as (Ht1 & Hr1 & _ & _ & Hsession & _ & Hdb1 & Hlog1).
  pose proof (usage_frame_canMakeRequest env OpenAI userId w1) as Hf2.
  unfold canMakeOpenAIRequest in Hcan. rewrite Hcan in Hf2. simpl in Hf2.
  destruct Hf2 as (Hs2 & Hr2 & _ & Hlog2 & Ht2).
  set (sid := ResearchSession.id session) in *.
  assert (Hrow2 : researchSession (db w2) !! sid = Some session).
  { rewrite Hs2, Hdb1. apply lookup_insert_eq. }
  eexists. split.
  - unfold startSession. rewrite (bind_Ok _ _ _ _ _ Hcreate).
    unfold bind at 1, try_catch.
    unfold bind at 1. unfold canMakeOpenAIRequest. rewrite Hcan. rewrite Hallowed.
    cbn [negb]. cbv iota. fold sid. fold message.
    unfold bind at 1.
    erewrite bind_Ok by (apply researchSession_update_healthy; [apply healthy | exact Hrow2]).
    unfold throw at 1.
    erewrite bind_Ok.
    2:{ apply researchSession_update_healthy; [apply healthy|]. simpl.
        apply lookup_insert_eq. }
    reflexivity.
  - simpl. rewrite markFailed_idem. fold failed.
    split; [apply lookup_insert_eq|].
    split; [by rewrite Hlog2, Hlog1|].
    split; [by rewrite Hr2, Hr1|].
    rewrite ?bool_decide_eq_false_2 by done.
    split; [rewrite Ht2, Ht1; done|].
    split; [rewrite Ht2, Ht1; done|].
    by rewrite Hlog2, Hlog1.
Qed.

End StartSession.

Section Report.
Context (env : Env).

(** A run of [deliverReport] that returns: the report's address is
    stored, and the mail date is touched only after the mail went out. *)
Lemma deliverReport_Ok_inv sessionId session_user w w' old :
  deliverReport env sessionId session_user w = (Ok tt, w') →
  researchSession (db w) !! sessionId = Some old →
  ∃ row,
    researchSession (db w') !! sessionId = Some row
    ∧ ResearchSession.status row = ResearchSession.status old
    ∧ ResearchSession.pdfUrl row = Some ("/api/sessions/" +:+ sessionId +:+ "/pdf")
    ∧ is_Some (ResearchSession.pdfGeneratedAt row)
    ∧ (ResearchSession.emailSentAt row = ResearchSession.emailSentAt old
       ∨ is_Some (ResearchSession.emailSentAt row)
         ∧ (∃ email, session_user = Some (Some email) ∧ email ≠ "")
         ∧ ∃ k, emailService_sendPDF env k = Ok tt).
Proof.
  intros Hrun Hold. unfold deliverReport in Hrun.
  apply bind_Ok_inv in Hrun as (pdfBuffer & w1 & Hpdf & Hrun).
  apply bind_Ok_inv in Hrun as (generatedAt & w2 & Hdate & Hrun).
  apply bind_Ok_inv in Hrun as (row3 & w3 & Hup & Hrun).
  assert (Hdb2 : db w2 = db w).
  { unfold pdfGenerator in Hpdf. unfold new_Date in Hdate.
    injection Hpdf as _ <-. injection Hdate as _ <-. done. }
  pose proof (researchSession_update_spec env sessionId
                (ResearchSession.set_pdf ("/api/sessions/" +:+ sessionId +:+ "/pdf")
                   generatedAt) w2) as Hs3.
  rewrite Hup in Hs3. simpl in Hs3.
  destruct Hs3 as (_ & _ & _ & _ & old3 & Hold3 & -> & Hdb3 & _).
  rewrite Hdb2, Hold in Hold3. injection Hold3 as <-.
  assert (Hrow3 : researchSession (db w3) !! sessionId
                  = Some (ResearchSession.set_pdf
                            ("/api/sessions/" +:+ sessionId +:+ "/pdf") generatedAt old)).
  { rewrite Hdb3. apply lookup_insert_eq. }
  destruct session_user as [email|]; [|done].
  destruct (truthy email) eqn:Hemail.
  2:{ injection Hrun as <-. eexists. split; [exact Hrow3|]. simpl. eauto 10. }
  unfold try_catch in Hrun.
  unfold bind at 1 in Hrun. unfold emailService at 1 in Hrun.
  destruct (emailService_sendPDF env (ticks w3 KEmail)) as [[]|e] eqn:Hsend.
  2:{ injection Hrun as <-. eexists. split; [exact Hrow3|]. simpl. eauto 10. }
  unfold bind at 1 in Hrun. unfold new_Date at 1 in Hrun.
  unfold bind at 1 in Hrun.
  match type of Hrun with
  | context [researchSession_update env sessionId ?data ?w0] =>
      pose proof (researchSession_update_spec env sessionId data w0) as Hs4;
      destruct (researchSession_update env sessionId data w0) as [[row4|e] w4]
  end; simpl in Hs4, Hrun; injection Hrun as <-.
  - destruct Hs4 as (_ & _ & _ & _ & old4 & Hold4 & -> & Hdb4 & _).
    rewrite Hrow3 in Hold4. injection Hold4 as <-.
    eexists. split; [rewrite Hdb4; apply lookup_insert_eq|]. simpl.
    split; [done|]. split; [done|]. split; [eauto|]. right.
    split; [eauto|]. split; [|eauto].
    destruct email as [email|]; [|done]. exists email. split; [done|].
    simpl in Hemail. by apply bool_decide_eq_true in Hemail.
  - destruct Hs4 as (_ & _ & _ & _ & Hdb4 & _).
    eexists. split; [rewrite Hdb4; exact Hrow3|]. simpl. eauto 10.
Qed.

(** X24: when [runResearch] returns normally, the session has the
    address of its report and the date of its generation, and its mail
    date is as before unless the session's user has a non-empty email
    and a call to the mail service succeeded: a failing mail service
    does not fail the run. *)
Theorem runResearch_delivers_report (sessionId prompt : string) (w w' : World) :
  runResearch env sessionId prompt w = (Ok tt, w') →
  ∃ before row,
    researchSession (db w) !! sessionId = Some before
    ∧ researchSession (db w') !! sessionId = Some row
    ∧ ResearchSession.pdfUrl row = Some ("/api/sessions/" +:+ sessionId +:+ "/pdf")
    ∧ is_Some (ResearchSession.pdfGeneratedAt row)
    ∧ (ResearchSession.emailSentAt row = ResearchSession.emailSentAt before
       ∨ is_Some (ResearchSession.emailSentAt row)
         ∧ (∃ email, user (db w) !! ResearchSession.userId before = Some (Some email)
                     ∧ email ≠ "")
         ∧ ∃ k, emailService_sendPDF env k = Ok tt).
Proof.
  intros Hrun. unfold runResearch in Hrun.
  apply bind_Ok_inv in Hrun as (row1 & w1 & Hup1 & Hrun).
  apply try_catch_rethrow_inv with (g := λ e, e) in Hrun.
  pose proof (researchSession_update_spec env sessionId
                (ResearchSession.set_status RUNNING_RESEARCH) w) as Hs1.
  rewrite Hup1 in Hs1. simpl in Hs1.
  destruct Hs1 as (_ & _ & Hu1 & _ & before & Hbefore & -> & Hdb1 & _).
  apply bind_Ok_inv in Hrun as (sessionData & w2 & Hfind & Hrun).
  unfold researchSession_findUnique in Hfind.
  pose proof (prisma_spec env (λ d, (Ok (researchSession d !! sessionId), d)) w1) as Hs2.
  rewrite Hfind in Hs2. simpl in Hs2. destruct Hs2 as (_ & _ & _ & Hs2).
  assert (sessionData = Some (ResearchSession.set_status RUNNING_RESEARCH before)
          ∧ db w2 = db w1) as [-> Hdb2].
  { destruct (storageFault env _); destruct Hs2 as [Hr Hd]; [done|].
    injection Hr as ->. by rewrite Hdb1, lookup_insert_eq. }
  simpl in Hrun.
  apply bind_Ok_inv in Hrun as (canO & w3 & HcanO & Hrun).
  apply bind_Ok_inv in Hrun as (canG & w4 & HcanG & Hrun).
  pose proof (usage_frame_canMakeRequest env OpenAI (ResearchSession.userId before) w2) as Hf3.
  unfold canMakeOpenAIRequest in HcanO. rewrite HcanO in Hf3. simpl in Hf3.
  pose proof (usage_frame_canMakeRequest env Gemini (ResearchSession.userId before) w3) as Hf4.
  unfold canMakeGeminiRequest in HcanG. rewrite HcanG in Hf4. simpl in Hf4.
  destruct (negb (allowed canO) || negb (allowed canG));
    [ by apply update_then_throw_inv in Hrun |].
  apply bind_Ok_inv in Hrun as ([ro rg] & w5 & Hboth & Hrun).
  destruct (researchBoth_spec env (ResearchSession.userId before) prompt w4)
    as (w5' & Hboth' & Hq5 & _).
  rewrite Hboth in Hboth'. injection Hboth' as _ _ <-.
  destruct Hf3 as (Hs3 & _ & Hu3 & _). destruct Hf4 as (Hs4 & _ & Hu4 & _).
  destruct Hq5 as (Hs5 & _ & Hu5 & _).
  apply bind_Ok_inv in Hrun as ([session session_user] & w6 & Hup6 & Hrun).
  pose proof (researchSession_update_user_spec env sessionId
                (λ r, ResearchSession.set_status COMPLETED
                        (ResearchSession.set_results (settledText ro) (settledText rg) r))
                w5) as Hs6.
  rewrite Hup6 in Hs6. simpl in Hs6.
  destruct Hs6 as (_ & _ & _ & _ & old6 & Hold6 & -> & -> & Hdb6 & _).
  rewrite Hs5, Hs4, Hs3, Hdb2, Hdb1, lookup_insert_eq in Hold6. injection Hold6 as <-.
  rewrite Hu5, Hu4, Hu3, Hdb2, Hu1 in Hrun. simpl in Hrun.
  destruct (deliverReport_Ok_inv _ _ _ _ _ Hrun ltac:(rewrite Hdb6; apply lookup_insert_eq))
    as (row & Hrow & _ & Hurl & Hat & Hmail).
  exists before, row. simpl in Hmail. done.
Qed.

End Report.

Lemma includes_append before after searchString :
  includes after searchString = true →
  includes (before +:+ after) searchString = true.
Proof.
  intros Hafter. induction before as [|c before IH]; [done|].
  simpl. rewrite IH. apply orb_true_r.
Qed.

(** X25: the mock client never asks again: to a prompt made by
    [generateRefinedPrompt], whatever the initial prompt and the
    refinements, it answers with a non-empty result and no
    questions. *)
Theorem mock_answers_refined_prompt (initialPrompt : string)
    (refinements : list Refinement.t) :
  let response :=
    MockOpenAIClient_startDeepResearch (generateRefinedPrompt initialPrompt refinements) in
  requiresRefinement response = false
  ∧ refinementQuestions response = None
  ∧ truthy (result response) = true.
Proof.
  intros response. subst response. unfold MockOpenAIClient_startDeepResearch.
  assert (Hinc : includes (generateRefinedPrompt initialPrompt refinements) "[REFINED]"
                 = true).
  { unfold generateRefinedPrompt. do 3 apply includes_append. reflexivity. }
  rewrite Hinc. simpl negb. cbv iota. split; [done|]. split; [done|].
  cbn [result]. apply bool_decide_eq_true. done.
Qed.

Section RoutesProofs.
Context (env : Env).

Lemma researchSession_findFirst_where_run id userId w :
  researchSession_findFirst_where env id userId w =
    match storageFault env (ticks w KStorage) with
    | Some message => (Throw message, bump KStorage w)
    | None =>
        (Ok (match researchSession (db w) !! id with
             | Some row =>
                 if bool_decide (ResearchSession.userId row = userId)
                 then Some row else None
             | None => None
             end), bump KStorage w)
    end.
Proof.
  unfold researchSession_findFirst_where, prisma. destruct (storageFault env _); [done|].
  by destruct w as [[] ? ?].
Qed.

Lemma slug_is_safe title n :
  Forall (λ c, filenameChar c = true)
         (String.list_ascii_of_string (sanitizeFilename title n)).
Proof.
  rewrite sanitizeFilename_eq.
  destruct (substring0 n (slug title)) as [|c s] eqn:Hs.
  - vm_compute. repeat constructor.
  - rewrite String.list_ascii_of_string_of_list_ascii, <- Hs.
    unfold substring0. apply Forall_take, slug_chars.
Qed.

(** The run of the route, case by case. *)
Lemma pdf_GET_run getServerSession params_id w :
  ∃ response w',
    pdf_GET env getServerSession params_id w = (Ok response, w')
    ∧ db w' = db w
    ∧ log w' = log w
    ∧ (res_status response = 200 →
       ∃ userId row pdfBuffer,
         getServerSession = Ok (Some userId)
         ∧ userId ≠ ""
         ∧ researchSession (db w) !! params_id = Some row
         ∧ ResearchSession.userId row = userId
         ∧ truthy (ResearchSession.openaiResult row) = true
         ∧ truthy (ResearchSession.geminiResult row) = true
         ∧ generatePDFBuffer env (ticks w KPdf) = Ok pdfBuffer
         ∧ response =
             mkResponse 200
               [ ("Content-Type", "application/pdf");
                 ("Content-Disposition",
                  "attachment; filename=" +:+ double_quote
                  +:+ (sanitizeFilename (ResearchSession.title row) 50
                       +:+ " Research Report.pdf")
                  +:+ double_quote) ]
               (Buffer pdfBuffer)).
Proof.
  unfold pdf_GET, try_catch.
  unfold bind at 1.
  destruct getServerSession as [[userId|]|e]; simpl;
    [| do 2 eexists; repeat split; done | do 2 eexists; repeat split; done].
  case_bool_decide as Huser; simpl; [|do 2 eexists; repeat split; done].
  unfold bind at 1. rewrite researchSession_findFirst_where_run.
  destruct (storageFault env (ticks w KStorage)) as [fault|];
    [do 2 eexists; repeat split; done|].
  destruct (researchSession (db w) !! params_id) as [row|] eqn:Hrow;
    [|do 2 eexists; repeat split; done].
  case_bool_decide as Howner; [|do 2 eexists; repeat split; done].
  destruct (truthy (ResearchSession.openaiResult row)) eqn:Ho; simpl;
    [|do 2 eexists; repeat split; done].
  destruct (truthy (ResearchSession.geminiResult row)) eqn:Hg; simpl;
    [|do 2 eexists; repeat split; done].
  unfold bind at 1. unfold pdfGenerator at 1. simpl.
  destruct (generatePDFBuffer env (ticks w KPdf)) as [pdfBuffer|e] eqn:Hpdf; simpl;
    [|do 2 eexists; repeat split; done].
  do 2 eexists. split; [done|]. split; [done|]. split; [done|]. intros _.
  exists userId, row, pdfBuffer. done.
Qed.

(** X26: the report route always answers, never throws, and writes
    nothing; it answers 200 only to an authenticated user, for a
    session of that user whose two results are both non-empty. *)
Theorem pdf_GET_serves_the_owner_only (getServerSession : Result (option string))
    (params_id : string) (w : World) :
  let run := pdf_GET env getServerSession params_id w in
  ∃ response,
    run.1 = Ok response
    ∧ db run.2 = db w
    ∧ log run.2 = log w
    ∧ (res_status response = 200 →
       ∃ userId row,
         getServerSession = Ok (Some userId)
         ∧ userId ≠ ""
         ∧ researchSession (db w) !! params_id = Some row
         ∧ ResearchSession.userId row = userId
         ∧ truthy (ResearchSession.openaiResult row) = true
         ∧ truthy (ResearchSession.geminiResult row) = true).
Proof.
  intros run.
  destruct (pdf_GET_run getServerSession params_id w)
    as (response & w' & Hrun & Hdb & Hlog & Hok).
  subst run. rewrite Hrun.
  exists response. split; [done|]. split; [done|]. split; [done|].
  intros H200. destruct (Hok H200) as (userId & row & _ & ? & ? & ? & ? & ? & ? & _).
  exists userId, row. done.
Qed.

(** X27: in a 200 answer of the report route the file name between the
    quotes of the Content-Disposition header is a sanitized name
    followed by " Research Report.pdf"; the sanitized name is not
    empty, at most 50 characters long and made of [a-z], [0-9] and [-]:
    it cannot close the quotes. *)
Theorem pdf_GET_names_the_file_safely (getServerSession : Result (option string))
    (params_id : string) (w : World) (response : Response) :
  (pdf_GET env getServerSession params_id w).1 = Ok response →
  res_status response = 200 →
  ∃ name,
    res_headers response =
      [ ("Content-Type", "application/pdf");
        ("Content-Disposition",
         "attachment; filename=" +:+ double_quote +:+ (name +:+ " Research Report.pdf")
         +:+ double_quote) ]
    ∧ name ≠ ""
    ∧ (String.length name ≤ 50)%nat
    ∧ Forall (λ c, filenameChar c = true) (String.list_ascii_of_string name).
Proof.
  intros Hrun H200.
  destruct (pdf_GET_run getServerSession params_id w)
    as (response' & w' & Hrun' & _ & _ & Hok).
  rewrite Hrun' in Hrun. injection Hrun as ->.
  destruct (Hok H200) as (userId & row & pdfBuffer & _ & _ & _ & _ & _ & _ & _ & ->).
  exists (sanitizeFilename (ResearchSession.title row) 50).
  split; [done|]. split; [|split]; [| |apply slug_is_safe].
  - rewrite sanitizeFilename_eq. destruct (substring0 _ _); done.
  - rewrite sanitizeFilename_eq. unfold substring0.
    destruct (take _ _) as [|c s] eqn:Hs; [vm_compute; lia|].
    rewrite <- length_list_ascii_of_string, String.list_ascii_of_string_of_list_ascii, <- Hs.
    rewrite length_take. lia.
Qed.

End RoutesProofs.

Lemma pdf_GET_names_the_file_safely_witness :
  ∃ name,
    res_headers (mkResponse 200
                   [ ("Content-Type", "application/pdf");
                     ("Content-Disposition",
                      "attachment; filename=" +:+ double_quote
                      +:+ "q3-ai-law Research Report.pdf" +:+ double_quote) ]
                   (Buffer "%PDF")) =
      [ ("Content-Type", "application/pdf");
        ("Content-Disposition",
         "attachment; filename=" +:+ double_quote +:+ (name +:+ " Research Report.pdf")
         +:+ double_quote) ]
    ∧ name ≠ ""
    ∧ (String.length name ≤ 50)%nat
    ∧ Forall (λ c, filenameChar c = true) (String.list_ascii_of_string name).
Proof.
  apply (pdf_GET_names_the_file_safely env_feb1 (Ok (Some "u")) "s" world_done).
  - vm_compute. reflexivity.
  - reflexivity.
Defined.

Lemma world_two_answered_session :
  researchSession (db world_two_answered) !! "id0" = Some session_in_progress.
Proof. vm_compute. reflexivity. Qed.

Lemma world_two_answered_refinements :
  refinements_of (db world_two_answered) "id0"
  = [ Refinement.mk "id1" "id0" "What aspect?" 0 (Some "a0")
        (Some (mkDate 2025 1 1 36000000));
      second_question; third_question ].
Proof. vm_compute. reflexivity. Qed.

Lemma env_refine_healthy k : storageFault env_refine k = None.
Proof. reflexivity. Qed.

Lemma submitRefinementAnswer_rejects_strangers_witness :
  (submitRefinementAnswer env_refine "id0" "mallory" 0 "x" world_two_answered).1
  = Throw "Session not found or access denied"
  ∧ db (submitRefinementAnswer env_refine "id0" "mallory" 0 "x" world_two_answered).2
    = db world_two_answered.
Proof.
  destruct (submitRefinementAnswer_rejects_strangers env_refine "id0" "mallory" 0 "x"
              world_two_answered) as (message & Hthrow & Hdb & _ & Hmessage).
  - intros row Hrow. rewrite world_two_answered_session in Hrow.
    injection Hrow as <-. discriminate.
  - split; [|exact Hdb]. rewrite Hthrow. f_equal. apply Hmessage, env_refine_healthy.
Defined.

Lemma submitRefinementAnswer_unknown_question_witness :
  ∃ message,
    (submitRefinementAnswer env_refine "id0" "u" 7 "x" world_two_answered).1
    = Throw message
    ∧ db (submitRefinementAnswer env_refine "id0" "u" 7 "x" world_two_answered).2
      = db world_two_answered.
Proof.
  destruct (submitRefinementAnswer_unknown_question env_refine "id0" "u" 7 "x"
              world_two_answered) as (message & Hthrow & Hdb & _).
  - intros r Hin. rewrite world_two_answered_refinements in Hin.
    apply list_elem_of_In in Hin. destruct Hin as [<-|[<-|[<-|[]]]]; discriminate.
  - exists message. exact (conj Hthrow Hdb).
Defined.

Lemma submitRefinementAnswer_awaits_the_rest_witness :
  (submitRefinementAnswer env_refine "id0" "u" 1 "again" world_two_answered).1 = Ok tt
  ∧ ticks (submitRefinementAnswer env_refine "id0" "u" 1 "again" world_two_answered).2
      KOpenAI
    = ticks world_two_answered KOpenAI.
Proof.
  destruct (submitRefinementAnswer_awaits_the_rest env_refine "id0" "u" 1 "again"
              world_two_answered session_in_progress second_question third_question)
    as (Hok & _ & _ & _ & Hopenai & _).
  - exact env_refine_healthy.
  - exact world_two_answered_session.
  - reflexivity.
  - rewrite world_two_answered_refinements. reflexivity.
  - rewrite world_two_answered_refinements.
    apply list_elem_of_further, list_elem_of_further, list_elem_of_here.
  - discriminate.
  - reflexivity.
  - exact (conj Hok Hopenai).
Defined.

Lemma submitRefinementAnswer_empty_answer_witness :
  (submitRefinementAnswer env_refine "id0" "u" 2 "" world_two_answered).1 = Ok tt
  ∧ ticks (submitRefinementAnswer env_refine "id0" "u" 2 "" world_two_answered).2 KGemini
    = ticks world_two_answered KGemini.
Proof.
  destruct (submitRefinementAnswer_empty_answer env_refine "id0" "u" 2
              world_two_answered session_in_progress third_question)
    as (Hok & _ & _ & _ & Hgemini).
  - exact env_refine_healthy.
  - exact world_two_answered_session.
  - reflexivity.
  - rewrite world_two_answered_refinements. reflexivity.
  - exact (conj Hok Hgemini).
Defined.

Lemma runResearch_failure_is_stored_witness :
  ∃ row,
    researchSession (db (runResearch env_pdf_down "s" "X refined" world_one_session).2)
      !! "s" = Some row
    ∧ ResearchSession.status row = FAILED
    ∧ ResearchSession.errorMessage row = Some "PDF generation failed".
Proof.
  apply (runResearch_failure_is_stored env_pdf_down "s" "X refined" world_one_session
           "PDF generation failed").
  - intros k. reflexivity.
  - vm_compute. eauto.
  - vm_compute. reflexivity.
Defined.

Lemma startSession_failure_is_stored_witness :
  ∃ row,
    researchSession (db (startSession env_pdf_down "u" "Title" "X" world_one_user).2)
      !! "id0" = Some row
    ∧ ResearchSession.userId row = "u"
    ∧ ResearchSession.status row = FAILED
    ∧ ResearchSession.errorMessage row = Some "PDF generation failed".
Proof.
  apply (startSession_failure_is_stored env_pdf_down "u" "Title" "X" world_one_user
           "PDF generation failed").
  - intros k. reflexivity.
  - vm_compute. reflexivity.
  - vm_compute. reflexivity.
Defined.

Lemma startSession_asks_questions_witness :
  ∃ w',
    startSession env_refine "u" "Title" "X" world_one_user = (Ok session_created, w')
    ∧ researchSession (db w') !! "id0"
      = Some (ResearchSession.set_status AWAITING_REFINEMENTS session_created)
    ∧ length (refinement (db w')) = 3%nat.
Proof.
  destruct (startSession_asks_questions env_refine (λ _, eq_refl) "u" "Title" "X"
              world_one_user
              (researchSession_create env_refine "u" "Title" "X" CREATED world_one_user).2
              (canMakeOpenAIRequest env_refine "u"
                 (researchSession_create env_refine "u" "Title" "X" CREATED
                    world_one_user).2).2
              session_created (mkAdmission true None)
              (mkDeepResearchResponse (Some three_questions) None true) three_questions)
    as (w' & Hrun & _ & Hrow & Hrefs & _).
  - apply run_eta. vm_compute. reflexivity.
  - apply run_eta. vm_compute. reflexivity.
  - reflexivity.
  - reflexivity.
  - reflexivity.
  - reflexivity.
  - apply (bool_decide_unpack _). vm_compute. exact I.
  - apply (bool_decide_unpack _). vm_compute. exact I.
  - exists w'. split; [exact Hrun|]. split; [exact Hrow|]. rewrite Hrefs. reflexivity.
Defined.

Lemma startSession_denied_witness :
  ∃ w',
    startSession env_feb1 "u" "Title" "X" world_at_limit
    = (Throw "Daily OpenAI limit reached (10 requests). Please try again tomorrow.", w')
    ∧ ticks w' KOpenAI = O.
Proof.
  destruct (startSession_denied env_feb1 (λ _, eq_refl) "u" "Title" "X" world_at_limit
              (researchSession_create env_feb1 "u" "Title" "X" CREATED world_at_limit).2
              (canMakeOpenAIRequest env_feb1 "u"
                 (researchSession_create env_feb1 "u" "Title" "X" CREATED
                    world_at_limit).2).2
              session_created
              (mkAdmission false
                 (Some "Daily OpenAI limit reached (10 requests). Please try again tomorrow.")))
    as (w' & Hrun & _ & _ & _ & Hopenai & _).
  - apply run_eta. vm_compute. reflexivity.
  - apply run_eta. vm_compute. reflexivity.
  - reflexivity.
  - exists w'. split; [exact Hrun | exact Hopenai].
Defined.

Lemma runResearch_delivers_report_witness :
  ∃ row,
    researchSession (db (runResearch env_email_down "s" "X refined" world_one_session).2)
      !! "s" = Some row
    ∧ ResearchSession.pdfUrl row = Some "/api/sessions/s/pdf"
    ∧ ResearchSession.emailSentAt row = None.
Proof.
  destruct (runResearch_delivers_report env_email_down "s" "X refined" world_one_session
              (runResearch env_email_down "s" "X refined" world_one_session).2)
    as (before & row & Hbefore & Hrow & Hurl & _ & Hmail).
  - apply run_eta. vm_compute. reflexivity.
  - exists row. split; [exact Hrow|]. split; [exact Hurl|].
    vm_compute in Hbefore. injection Hbefore as <-.
    destruct Hmail as [-> | (_ & _ & k & Hk)]; [reflexivity | discriminate Hk].
Defined.
